(** * DAAVFX dashboard: flat-key naming, set-file decoding and validation

    A shallow embedding of
      - [APPS/dashboard/validate_export.py]: the abbreviation tables, the
        expected flat keys, the structural validator of a JSON export, the
        set-file parser and the parity validator;
      - [generate_massive_setfile.py]: the generator of the v18 set file.

    Python values are modelled as follows.
      - A [str] is the list of its code points ([list N]); [lit] turns a
        literal into one.
      - An [int] is a [Z]; [str_of_int] is its decimal rendering.
      - A [dict] with string keys that is only filled and queried
        ([values] of [parse_set_file]) is a [gmap]; a JSON object is an
        association list.
      - [bytes] is a [list byte].
      - A function that can raise returns a [result]. *)

From Stdlib Require Import ZArith NArith List String Ascii Lia QArith.
From Stdlib Require Import Decimal DecimalPos Strings.Byte.
From Stdlib Require MSets.MSetPositive DecimalZ.
From stdpp Require Import gmap list.

Set Warnings "-register-all".
Local Open Scope N_scope.
Local Open Scope list_scope.

(* ===================================================================== *)
(** ** Python strings                                                     *)
(* ===================================================================== *)

Module Py.

Abbreviation str := (list N).

(** A string literal of the source, as code points. *)
Definition lit (s : string) : str :=
  map N_of_ascii (list_ascii_of_string s).

(** [str(n)] and [f"{n}"] for an [int]. *)
Fixpoint uint_digits (d : Decimal.uint) : str :=
  match d with
  | Nil => []
  | D0 d => 48 :: uint_digits d
  | D1 d => 49 :: uint_digits d
  | D2 d => 50 :: uint_digits d
  | D3 d => 51 :: uint_digits d
  | D4 d => 52 :: uint_digits d
  | D5 d => 53 :: uint_digits d
  | D6 d => 54 :: uint_digits d
  | D7 d => 55 :: uint_digits d
  | D8 d => 56 :: uint_digits d
  | D9 d => 57 :: uint_digits d
  end.

Definition str_of_int (z : Z) : str :=
  match Z.to_int z with
  | Decimal.Pos d => uint_digits d
  | Decimal.Neg d => 45 :: uint_digits d
  end.

Definition isdigit (c : N) : bool := (48 <=? c) && (c <=? 57).

(** [c.isspace()]: the characters [str.strip()] removes. *)
Definition isspace (c : N) : bool :=
  ((9 <=? c) && (c <=? 13)) || ((28 <=? c) && (c <=? 32))
  || (c =? 133) || (c =? 160) || (c =? 5760)
  || ((8192 <=? c) && (c <=? 8202))
  || (c =? 8232) || (c =? 8233) || (c =? 8239) || (c =? 8287)
  || (c =? 12288).

Fixpoint lstrip (s : str) : str :=
  match s with
  | [] => []
  | c :: t => if isspace c then lstrip t else s
  end.

Fixpoint rstrip (s : str) : str :=
  match s with
  | [] => []
  | c :: t =>
      match rstrip t with
      | [] => if isspace c then [] else [c]
      | r => c :: r
      end
  end.

(** [s.strip()] *)
Definition strip (s : str) : str := rstrip (lstrip s).

(** The line boundaries of [str.splitlines()]. *)
Definition islinebreak (c : N) : bool :=
  ((10 <=? c) && (c <=? 13)) || ((28 <=? c) && (c <=? 30))
  || (c =? 133) || (c =? 8232) || (c =? 8233).

(** [s.splitlines()]: the lines without their boundaries; a carriage return
    followed by a line feed is one boundary; no empty last line after a final
    boundary. *)
Fixpoint splitlines (s : str) : list str :=
  match s with
  | [] => []
  | c :: t =>
      if islinebreak c then
        [] :: match t with
              | c' :: t' => if (c =? 13) && (c' =? 10) then splitlines t'
                            else splitlines t
              | [] => []
              end
      else
        match splitlines t with
        | [] => [[c]]
        | l :: ls => (c :: l) :: ls
        end
  end.

(** [sep in s] together with [s.split(sep, 1)] for a one-character [sep]:
    [Some (before, after)] of the first occurrence, [None] when [sep] does not
    occur. *)
Fixpoint split1 (sep : N) (s : str) : option (str * str) :=
  match s with
  | [] => None
  | c :: t =>
      if c =? sep then Some ([], t)
      else match split1 sep t with
           | Some (a, b) => Some (c :: a, b)
           | None => None
           end
  end.

(** [s.startswith(c)] for a one-character [c]. *)
Definition startswith1 (c : N) (s : str) : bool :=
  match s with
  | x :: _ => x =? c
  | [] => false
  end.

(** [s.startswith(p)] *)
Fixpoint startswith (p s : str) : bool :=
  match p, s with
  | [], _ => true
  | x :: p', y :: s' => (x =? y) && startswith p' s'
  | _ :: _, [] => false
  end.

(** [s.endswith(p)] *)
Definition endswith (p s : str) : bool := startswith (rev p) (rev s).

(** [s.lower()] on the letters A-Z.  Python also folds letters outside
    ASCII; none of their images contains a letter of ["power"], the only
    string the sources compare a lowered name with. *)
Definition lower_char (c : N) : N :=
  if (65 <=? c) && (c <=? 90) then c + 32 else c.

Definition lower (s : str) : str := map lower_char s.

(** [sep.join(ls)] *)
Fixpoint join (sep : str) (ls : list str) : str :=
  match ls with
  | [] => []
  | [l] => l
  | l :: ls' => l ++ sep ++ join sep ls'
  end.

Definition eqb (a b : str) : bool := bool_decide (a = b).

End Py.

Import Py.


(* ===================================================================== *)
(** ** Byte encodings of text                                             *)
(* ===================================================================== *)

Module Codec.

Definition bytes := list byte.

(** A continuation byte of UTF-8. *)
Definition cont (b : N) : bool := (128 <=? b) && (b <=? 191).

(** [bytes.decode('utf-8')], strict: [None] is [UnicodeDecodeError].  Only
    the well-formed sequences of the Unicode standard decode: no overlong
    form, no surrogate, nothing above U+10FFFF. *)
Fixpoint utf8_decode (bs : list N) : option str :=
  match bs with
  | [] => Some []
  | b0 :: t =>
      if b0 <? 128 then cons b0 <$> utf8_decode t
      else if (194 <=? b0) && (b0 <=? 223) then
        match t with
        | b1 :: t1 =>
            if cont b1
            then cons ((b0 - 192) * 64 + (b1 - 128)) <$> utf8_decode t1
            else None
        | _ => None
        end
      else if (224 <=? b0) && (b0 <=? 239) then
        match t with
        | b1 :: b2 :: t2 =>
            if ((if b0 =? 224 then 160 else 128) <=? b1)
               && (b1 <=? (if b0 =? 237 then 159 else 191))
               && cont b2
            then cons ((b0 - 224) * 4096 + (b1 - 128) * 64 + (b2 - 128))
                   <$> utf8_decode t2
            else None
        | _ => None
        end
      else if (240 <=? b0) && (b0 <=? 244) then
        match t with
        | b1 :: b2 :: b3 :: t3 =>
            if ((if b0 =? 240 then 144 else 128) <=? b1)
               && (b1 <=? (if b0 =? 244 then 143 else 191))
               && cont b2 && cont b3
            then cons ((b0 - 240) * 262144 + (b1 - 128) * 4096
                       + (b2 - 128) * 64 + (b3 - 128))
                   <$> utf8_decode t3
            else None
        | _ => None
        end
      else None
  end.

(** The 16-bit units of a little-endian byte sequence; an odd length is
    truncated data. *)
Fixpoint utf16le_units (bs : list N) : option (list N) :=
  match bs with
  | [] => Some []
  | lo :: hi :: t => cons (lo + 256 * hi) <$> utf16le_units t
  | [_] => None
  end.

(** Code points of a sequence of UTF-16 units; a surrogate that is not the
    first half of a pair followed by its second half is an error. *)
Fixpoint utf16_points (us : list N) : option str :=
  match us with
  | [] => Some []
  | u :: t =>
      if (u <? 55296) || (57343 <? u) then cons u <$> utf16_points t
      else if u <=? 56319 then
        match t with
        | u2 :: t2 =>
            if (56320 <=? u2) && (u2 <=? 57343)
            then cons (65536 + (u - 55296) * 1024 + (u2 - 56320))
                   <$> utf16_points t2
            else None
        | [] => None
        end
      else None
  end.

(** [bytes.decode('utf-16-le')], strict. *)
Definition utf16le_decode (bs : list N) : option str :=
  match utf16le_units bs with
  | Some us => utf16_points us
  | None => None
  end.

(** A code point that UTF-8 can encode: below U+110000 and no surrogate. *)
Definition scalar (c : N) : bool :=
  (c <? 55296) || ((57343 <? c) && (c <? 1114112)).

(** The UTF-8 bytes of one code point. *)
Definition utf8_char (c : N) : list N :=
  if c <? 128 then [c]
  else if c <? 2048 then [192 + c / 64; 128 + c mod 64]
  else if c <? 65536 then
    [224 + c / 4096; 128 + (c / 64) mod 64; 128 + c mod 64]
  else [240 + c / 262144; 128 + (c / 4096) mod 64;
        128 + (c / 64) mod 64; 128 + c mod 64].

Definition byte_of_N (n : N) : byte :=
  match Byte.of_N n with
  | Some b => b
  | None => x00
  end.

(** [str.encode('utf-8')], strict: [None] is [UnicodeEncodeError]. *)
Definition utf8_encode (s : str) : option bytes :=
  if forallb scalar s
  then Some (map byte_of_N (flat_map utf8_char s))
  else None.

End Codec.

Import Codec.

(* ===================================================================== *)
(** ** Loaded JSON values, exceptions, f-strings                          *)
(* ===================================================================== *)

(** What [json.load] returns.  A float is kept as the rational it denotes;
    an object keeps its members in order, a key occurring once. *)
Inductive json : Type :=
  | JNull
  | JBool (b : bool)
  | JInt (z : Z)
  | JFloat (q : Q)
  | JStr (s : str)
  | JArr (l : list json)
  | JObj (d : list (str * json)).

Inductive exn : Type :=
  | AttributeError
  | TypeError
  | KeyError
  | OSError
  | UnicodeDecodeError
  | UnicodeEncodeError.

Inductive result (A : Type) : Type :=
  | Ok (a : A)
  | Raise (e : exn).

Arguments Ok {A} a.
Arguments Raise {A} e.

#[local] Instance result_ret : MRet result := @Ok.
#[local] Instance result_bind : MBind result :=
  fun A B k x =>
    match x with
    | Ok a => k a
    | Raise e => Raise e
    end.

(** An f-string before it is rendered: literal text and interpolated
    values, in order.  Python renders an interpolated value with [str()]. *)
Inductive part : Type :=
  | T (s : str)
  | V (v : json).

Abbreviation msg := (list part).

(** Lookup in a table or object: the first member with the key. *)
Fixpoint assoc {A : Type} (d : list (str * A)) (k : str) : option A :=
  match d with
  | [] => None
  | (k', v) :: d' => if Py.eqb k' k then Some v else assoc d' k
  end.

(** [d.get(k, default)] on a table of the source. *)
Definition dict_get {A : Type} (d : list (str * A)) (k : str) (default : A) : A :=
  match assoc d k with
  | Some v => v
  | None => default
  end.

(** [v.get(k, default)]: only a [dict] has the method. *)
Definition py_get (v : json) (k : str) (default : json) : result json :=
  match v with
  | JObj d => Ok (dict_get d k default)
  | _ => Raise AttributeError
  end.

(** [k in v] for a [dict] [v]; the sources apply it to values whose [get]
    has already succeeded. *)
Definition py_has (v : json) (k : str) : result bool :=
  match v with
  | JObj d => Ok (bool_decide (is_Some (assoc d k)))
  | _ => Raise TypeError
  end.

(** The truth value of [v] (as in [not v]). *)
Definition truthy (v : json) : bool :=
  match v with
  | JNull => false
  | JBool b => b
  | JInt z => negb (z =? 0)%Z
  | JFloat q => negb (Qeq_bool q 0)
  | JStr s => negb (bool_decide (s = []))
  | JArr l => negb (bool_decide (l = []))
  | JObj d => negb (bool_decide (d = []))
  end.

(** [len(v)] *)
Definition py_len (v : json) : result Z :=
  match v with
  | JStr s => Ok (Z.of_nat (length s))
  | JArr l => Ok (Z.of_nat (length l))
  | JObj d => Ok (Z.of_nat (length d))
  | _ => Raise TypeError
  end.

(** The values [for x in v] binds [x] to: the elements of a list, the keys
    of a dict, the characters of a string. *)
Definition py_iter (v : json) : result (list json) :=
  match v with
  | JArr l => Ok l
  | JObj d => Ok (map (fun kv => JStr (fst kv)) d)
  | JStr s => Ok (map (fun c => JStr [c]) s)
  | _ => Raise TypeError
  end.

(** [v == n] for an [int] [n]: [True == 1] and [1.0 == 1] hold in Python. *)
Definition py_eq_int (v : json) (n : Z) : bool :=
  match v with
  | JInt z => (z =? n)%Z
  | JFloat q => Qeq_bool q (inject_Z n)
  | JBool b => ((if b then 1 else 0) =? n)%Z
  | _ => false
  end.

(** [v == s] for a [str] [s]. *)
Definition py_eq_str (v : json) (s : str) : bool :=
  match v with
  | JStr s' => Py.eqb s' s
  | _ => false
  end.

(** [v in l] for a list [l] of strings. *)
Definition py_in_strs (v : json) (l : list str) : bool :=
  existsb (py_eq_str v) l.

(** [v.lower()]: only a [str] has the method. *)
Definition py_lower (v : json) : result str :=
  match v with
  | JStr s => Ok (lower s)
  | _ => Raise AttributeError
  end.

(* ===================================================================== *)
(** ** validate_export.py: naming tables and expected keys                *)
(* ===================================================================== *)

Definition LOGIC_ABBREVIATIONS : list (str * str) :=
  [ (lit "Power", lit "P"); (lit "Repower", lit "R"); (lit "Scalper", lit "S");
    (lit "Stopper", lit "ST"); (lit "STO", lit "STO"); (lit "SCA", lit "SCA");
    (lit "RPO", lit "RPO") ].

Definition ENGINE_PREFIXES : list (str * str) :=
  [ (lit "A", lit ""); (lit "B", lit "B"); (lit "C", lit "C") ].

Definition REQUIRED_LOGIC_FIELDS : list str :=
  map lit
  [ "logic_name"; "logic_id"; "enabled";
    "initial_lot"; "multiplier"; "grid";
    "trail_method"; "trail_value"; "trail_start"; "trail_step"; "trail_step_method";
    "close_targets"; "order_count_reference"; "reset_lot_on_restart";
    "use_tp"; "tp_mode"; "tp_value"; "use_sl"; "sl_mode"; "sl_value";
    "reverse_enabled"; "hedge_enabled"; "reverse_scale"; "hedge_scale";
    "reverse_reference"; "hedge_reference";
    "trail_step_mode"; "trail_step_cycle"; "trail_step_balance";
    "close_partial"; "close_partial_cycle"; "close_partial_mode";
    "close_partial_balance"; "close_partial_trail_step_mode" ]%string.

Definition REQUIRED_GROUP_FIELDS : list str :=
  map lit
  [ "group_number"; "enabled";
    "reverse_mode"; "hedge_mode"; "hedge_reference"; "entry_delay_bars";
    "logics" ]%string.

(** Generate MT4/MT5 variable suffix: e.g., P1, BP1, CP1 *)
Definition get_suffix (engine_id : str) (group : Z) (logic_name : str) : str :=
  let prefix := dict_get ENGINE_PREFIXES engine_id (lit "") in
  let logic := dict_get LOGIC_ABBREVIATIONS logic_name (lit "P") in
  prefix ++ logic ++ str_of_int group.

(** Generate short logic name: e.g., P, BP, CP *)
Definition get_short (engine_id : str) (logic_name : str) : str :=
  let prefix := dict_get ENGINE_PREFIXES engine_id (lit "") in
  let logic := dict_get LOGIC_ABBREVIATIONS logic_name (lit "P") in
  prefix ++ logic.

(** Generate all expected .set file variable names for a logic. *)
Definition generate_expected_set_keys
    (engine_id : str) (group : Z) (logic_name : str) : list str :=
  let suffix := get_suffix engine_id group logic_name in
  let short := get_short engine_id logic_name in
  let g := str_of_int group in
  let keys :=
    [ (* Base params *)
      lit "gInput_Initial_loT_" ++ suffix;
      lit "gInput_Mult_" ++ suffix;
      lit "gInput_Grid_" ++ suffix;
      lit "gInput_Trail_" ++ suffix;
      lit "gInput_TrailValue_" ++ suffix;
      lit "gInput_Trail_Start_" ++ suffix;
      lit "gInput_TrailStep_" ++ suffix;
      lit "gInput_TrailStepMethod_" ++ suffix;
      (* Trail Step Advanced (V17.04+) *)
      lit "gInput_TrailStepMode_" ++ suffix;
      lit "gInput_TrailStepCycle_" ++ suffix;
      lit "gInput_TrailStepBalance_" ++ suffix;
      (* Logic specific *)
      lit "gInput_CloseTargets_" ++ suffix;
      lit "gInput_" ++ suffix ++ lit "_OrderCountReference";
      lit "gInput_ResetLotOnRestart_" ++ suffix;
      (* TPSL (group-aware) *)
      lit "gInput_G" ++ g ++ lit "_UseTP_" ++ short;
      lit "gInput_G" ++ g ++ lit "_TP_Mode_" ++ short;
      lit "gInput_G" ++ g ++ lit "_TP_Value_" ++ short;
      lit "gInput_G" ++ g ++ lit "_UseSL_" ++ short;
      lit "gInput_G" ++ g ++ lit "_SL_Mode_" ++ short;
      lit "gInput_G" ++ g ++ lit "_SL_Value_" ++ short;
      (* Reverse/Hedge per-logic (V17.04+) *)
      lit "gInput_G" ++ g ++ lit "_" ++ short ++ lit "_ReverseEnabled";
      lit "gInput_G" ++ g ++ lit "_" ++ short ++ lit "_HedgeEnabled";
      lit "gInput_G" ++ g ++ lit "_Scale_" ++ short ++ lit "_Reverse";
      lit "gInput_G" ++ g ++ lit "_Scale_" ++ short ++ lit "_Hedge";
      lit "gInput_G" ++ g ++ lit "_" ++ short ++ lit "_ReverseReference";
      lit "gInput_G" ++ g ++ lit "_" ++ short ++ lit "_HedgeReference";
      (* Close Partial *)
      lit "gInput_ClosePartial_" ++ suffix;
      lit "gInput_ClosePartialCycle_" ++ suffix;
      lit "gInput_ClosePartialMode_" ++ suffix;
      lit "gInput_ClosePartialBalance_" ++ suffix;
      lit "gInput_ClosePartialTrailStepMode_" ++ suffix ] in
  (* Non-Power logics have extra fields *)
  let keys :=
    if negb (Py.eqb (lower logic_name) (lit "power"))
    then keys ++ [ lit "gInput_StartLevel_" ++ suffix;
                   lit "gInput_LastLot_" ++ suffix ]
    else keys in
  (* Group 1 has trigger fields *)
  let keys :=
    if (group =? 1)%Z
    then keys ++ [ lit "gInput_G1_TriggerType_" ++ short;
                   lit "gInput_G1_TriggerBars_" ++ short;
                   lit "gInput_G1_TriggerMinutes_" ++ short ]
    else keys in
  keys.

(** Generate group-level variable names (V17.04+). *)
Definition generate_group_level_keys (group : Z) : list str :=
  let g := str_of_int group in
  [ lit "gInput_Group" ++ g ++ lit "_ReverseMode";
    lit "gInput_Group" ++ g ++ lit "_HedgeMode";
    lit "gInput_Group" ++ g ++ lit "_HedgeReference";
    lit "gInput_Group" ++ g ++ lit "_EntryDelayBars" ].

(* ===================================================================== *)
(** ** validate_export.py: the structural validator                       *)
(* ===================================================================== *)

(** The two lists [validate_json_structure] appends to. *)
Record report : Type := Report { errors : list msg; warnings : list msg }.

(** A computation that reads and extends the report and may raise; a raised
    exception leaves the function, no report is returned. *)
Definition M (A : Type) : Type := report -> result (A * report).

Definition ret {A : Type} (a : A) : M A := fun r => Ok (a, r).

Definition bind {A B : Type} (m : M A) (k : A -> M B) : M B :=
  fun r =>
    match m r with
    | Ok (a, r') => k a r'
    | Raise e => Raise e
    end.

Definition lift {A : Type} (x : result A) : M A :=
  fun r =>
    match x with
    | Ok a => Ok (a, r)
    | Raise e => Raise e
    end.

#[local] Instance M_ret : MRet M := @ret.
#[local] Instance M_bind : MBind M := fun A B k m => bind m k.

(** [errors.append(m)] *)
Definition append_error (m : msg) : M unit :=
  fun r => Ok (tt, Report (errors r ++ [m]) (warnings r)).

(** [warnings.append(m)] *)
Definition append_warning (m : msg) : M unit :=
  fun r => Ok (tt, Report (errors r) (warnings r ++ [m])).

(** [if b: m] *)
Definition when (b : bool) (m : M unit) : M unit :=
  if b then m else ret tt.

(** [for x in l: body(x)] over the values [l] of an iteration. *)
Fixpoint for_each {A : Type} (l : list A) (body : A -> M unit) : M unit :=
  match l with
  | [] => ret tt
  | x :: l' => body x ;; for_each l' body
  end.

(** [if k not in v: errors.append(m)] *)
Definition require (v : json) (k : str) (m : msg) : M unit :=
  has ← lift (py_has v k);
  when (negb has) (append_error m).

Definition expected_engines : list str := map lit ["A"; "B"; "C"]%string.

(** *** The f-strings of [validate_json_structure] *)

Definition msg_no_engines : msg :=
  [T (lit "No engines found in config")].

Definition msg_unexpected_engine (engine_id : json) : msg :=
  [T (lit "Unexpected engine ID: "); V engine_id].

Definition msg_group_count (engine_id : json) (n : Z) : msg :=
  [T (lit "Engine "); V engine_id; T (lit " has "); V (JInt n);
   T (lit " groups (expected 20)")].

Definition msg_group_field (engine_id g_num : json) (field : str) : msg :=
  [T (lit "Engine "); V engine_id; T (lit " Group "); V g_num;
   T (lit ": Missing group field '"); T field; T (lit "'")].

Definition msg_logic_count (engine_id g_num : json) (n : Z) : msg :=
  [T (lit "Engine "); V engine_id; T (lit " Group "); V g_num; T (lit " has ");
   V (JInt n); T (lit " logics (expected 7)")].

Definition msg_logic_field (engine_id g_num l_name : json) (field : str) : msg :=
  [T (lit "Engine "); V engine_id; T (lit " Group "); V g_num; T (lit " ");
   V l_name; T (lit ": Missing field '"); T field; T (lit "'")].

Definition msg_start_level (engine_id g_num l_name : json) : msg :=
  [T (lit "Engine "); V engine_id; T (lit " Group "); V g_num; T (lit " ");
   V l_name; T (lit ": Missing 'start_level' (non-Power)")].

Definition msg_last_lot (engine_id g_num l_name : json) : msg :=
  [T (lit "Engine "); V engine_id; T (lit " Group "); V g_num; T (lit " ");
   V l_name; T (lit ": Missing 'last_lot' (non-Power)")].

Definition msg_trigger_type (engine_id l_name : json) : msg :=
  [T (lit "Engine "); V engine_id; T (lit " Group 1 "); V l_name;
   T (lit ": Missing 'trigger_type'")].

Definition msg_trigger_bars (engine_id l_name : json) : msg :=
  [T (lit "Engine "); V engine_id; T (lit " Group 1 "); V l_name;
   T (lit ": Missing 'trigger_bars'")].

Definition msg_trigger_minutes (engine_id l_name : json) : msg :=
  [T (lit "Engine "); V engine_id; T (lit " Group 1 "); V l_name;
   T (lit ": Missing 'trigger_minutes'")].

(** The body of [for logic in logics]. *)
Definition logic_body (engine_id g_num logic : json) : M unit :=
  l_name ← lift (py_get logic (lit "logic_name") (JStr (lit "Unknown")));
  (* Check required logic fields *)
  for_each REQUIRED_LOGIC_FIELDS (fun field =>
    require logic field (msg_logic_field engine_id g_num l_name field)) ;;
  (* Check non-Power specific fields *)
  lowered ← lift (py_lower l_name);
  when (negb (Py.eqb lowered (lit "power")))
    (require logic (lit "start_level") (msg_start_level engine_id g_num l_name) ;;
     require logic (lit "last_lot") (msg_last_lot engine_id g_num l_name)) ;;
  (* Check Group 1 trigger fields *)
  when (py_eq_int g_num 1)
    (require logic (lit "trigger_type") (msg_trigger_type engine_id l_name) ;;
     require logic (lit "trigger_bars") (msg_trigger_bars engine_id l_name) ;;
     require logic (lit "trigger_minutes") (msg_trigger_minutes engine_id l_name)).

(** The body of [for group in groups]. *)
Definition group_body (engine_id group : json) : M unit :=
  g_num ← lift (py_get group (lit "group_number") JNull);
  (* Check group-level fields *)
  for_each REQUIRED_GROUP_FIELDS (fun field =>
    require group field (msg_group_field engine_id g_num field)) ;;
  logics ← lift (py_get group (lit "logics") (JArr []));
  n ← lift (py_len logics);
  when (negb (n =? 7)%Z) (append_warning (msg_logic_count engine_id g_num n)) ;;
  items ← lift (py_iter logics);
  for_each items (logic_body engine_id g_num).

(** The body of [for engine in engines]. *)
Definition engine_body (engine : json) : M unit :=
  engine_id ← lift (py_get engine (lit "engine_id") JNull);
  when (negb (py_in_strs engine_id expected_engines))
    (append_warning (msg_unexpected_engine engine_id)) ;;
  groups ← lift (py_get engine (lit "groups") (JArr []));
  n ← lift (py_len groups);
  when (negb (n =? 20)%Z) (append_warning (msg_group_count engine_id n)) ;;
  items ← lift (py_iter groups);
  for_each items (group_body engine_id).

(** Validate JSON structure has all required fields: the pair
    [(errors, warnings)], or the exception that ended the walk. *)
Definition validate_json_structure (data : json) : result (list msg * list msg) :=
  let walk : M unit :=
    engines ← lift (py_get data (lit "engines") (JArr []));
    if negb (truthy engines) then append_error msg_no_engines
    else
      items ← lift (py_iter engines);
      for_each items engine_body in
  match walk (Report [] []) with
  | Ok (_, r) => Ok (errors r, warnings r)
  | Raise e => Raise e
  end.

(* ===================================================================== *)
(** ** validate_export.py: the set-file parser and the parity validator   *)
(* ===================================================================== *)

(** What [open(path, 'rb')] and [read()] give for each path: the content,
    or the exception they raise. *)
Definition filesystem : Type := str -> result bytes.

(** [content.decode(...)] after the test for the UTF-16 LE byte-order mark. *)
Definition decode_content (content : bytes) : result str :=
  let decoded :=
    match content with
    | xff :: xfe :: rest => utf16le_decode (map Byte.to_N rest)
    | _ => utf8_decode (map Byte.to_N content)
    end in
  match decoded with
  | Some text => Ok text
  | None => Raise UnicodeDecodeError
  end.

(** The body of [for line in text.splitlines()]. *)
Definition parse_line (values : gmap str str) (line : str) : gmap str str :=
  let line := strip line in
  if bool_decide (line = []) || startswith1 59 line then values
  else
    match split1 61 line with
    | Some (key, value) => <[strip key := strip value]> values
    | None => values
    end.

(** The loop of [parse_set_file] over the lines of the decoded text. *)
Definition parse_text (values : gmap str str) (text : str) : gmap str str :=
  fold_left parse_line (splitlines text) values.

(** The [try] block of [parse_set_file]. *)
Definition parse_set_file_try
    (fs : filesystem) (file_path : str) (values : gmap str str)
  : result (gmap str str) :=
  match fs file_path with
  | Raise e => Raise e
  | Ok content =>
      match decode_content content with
      | Raise e => Raise e
      | Ok text => Ok (parse_text values text)
      end
  end.

(** Parse .set file into key-value dict.  The [except Exception] branch
    prints the exception and falls through to [return values]. *)
Definition parse_set_file (fs : filesystem) (file_path : str) : gmap str str :=
  let values : gmap str str := ∅ in
  match parse_set_file_try fs file_path values with
  | Ok values' => values'
  | Raise _ => values
  end.

(** [range(a, b)] *)
Definition range (a b : Z) : list Z :=
  map (fun i => (a + Z.of_nat i)%Z) (seq 0 (Z.to_nat (b - a))).

Definition canonical_logics : list str :=
  map lit ["Power"; "Repower"; "Scalper"; "Stopper"; "STO"; "SCA"; "RPO"]%string.

(** [for key in keys: if key not in set_values: errors.append(what + key)] *)
Definition check_keys
    (set_values : gmap str str) (what : str) (keys : list str) (errs : list str)
  : list str :=
  fold_left
    (fun errs key =>
       if bool_decide (set_values !! key = None) then errs ++ [what ++ key]
       else errs)
    keys errs.

(** The loops of [validate_set_file_parity] over engines, groups and
    logics, threading [errors]. *)
Definition check_parity (set_values : gmap str str) (errs : list str) : list str :=
  fold_left
    (fun errs engine_id =>
       fold_left
         (fun errs group =>
            (* Group-level keys *)
            let errs :=
              check_keys set_values (lit "Missing group key: ")
                (generate_group_level_keys group) errs in
            (* Logic-level keys *)
            fold_left
              (fun errs logic_name =>
                 check_keys set_values (lit "Missing logic key: ")
                   (generate_expected_set_keys engine_id group logic_name) errs)
              canonical_logics errs)
         (range 1 21) errs)
    expected_engines errs.

(** Validate .set file has all expected variable names: [(errors, warnings)]. *)
Definition validate_set_file_parity
    (fs : filesystem) (set_file : str) : list str * list str :=
  let set_values := parse_set_file fs set_file in
  if bool_decide (set_values = ∅) then
    ([lit "Failed to parse .set file: " ++ set_file], [])
  else
    (check_parity set_values [], []).

(* ===================================================================== *)
(** ** generate_massive_setfile.py                                        *)
(* ===================================================================== *)

Module Massive.

(* Configuration *)
Definition GROUPS : Z := 15.
Definition ENGINES : list str := map lit ["A"; "B"; "C"]%string.
Definition LOGICS : list str :=
  map lit ["Power"; "Repower"; "Scalp"; "Stopper"; "STO"; "SCA"; "RPO"]%string.
Definition DIRECTIONS : list str := map lit ["Buy"; "Sell"]%string.

(* Logic suffix mapping for compact names *)
Definition LOGIC_SUFFIX : list (str * str) :=
  [ (lit "Power", lit "P"); (lit "Repower", lit "R"); (lit "Scalp", lit "S");
    (lit "Stopper", lit "T"); (lit "STO", lit "O"); (lit "SCA", lit "C");
    (lit "RPO", lit "X") ].

(** [d[k]] on a table of the source. *)
Definition dict_item {A : Type} (d : list (str * A)) (k : str) : result A :=
  match assoc d k with
  | Some v => Ok v
  | None => Raise KeyError
  end.

(** The rendering ([repr], and [:.1f] on a multiple of one half) of the
    float [q/4].  The floats the generator formats are sums and products of
    an [int] with 0.25, 0.5, 2.0, 5.0, 10.0 and the like: multiples of one
    quarter, which binary floating point holds and adds exactly, and which
    Python prints in positional notation below 10^16. *)
Definition float_quarters (q : Z) : str :=
  let a := Z.abs q in
  (if (q <? 0)%Z then lit "-" else lit "")
  ++ str_of_int (a / 4) ++ lit "."
  ++ (if (a mod 4 =? 0)%Z then lit "0"
      else if (a mod 4 =? 1)%Z then lit "25"
      else if (a mod 4 =? 2)%Z then lit "5"
      else lit "75").

(** The five lines of one trail step. *)
Definition trail_step_inputs (prefix : str) (group_num step : Z) : list str :=
  (* step_value = 5.0 + (step * 5.0) + (group_num * 0.5) *)
  let step_value := (20 + 20 * step + 2 * group_num)%Z in
  let n := str_of_int step in
  [ prefix ++ lit "_TrailStep" ++ n ++ lit "=" ++ float_quarters step_value;
    prefix ++ lit "_TrailStepMethod" ++ n ++ lit "=0";
    prefix ++ lit "_TrailStepMode" ++ n ++ lit "=0";
    prefix ++ lit "_TrailStepCycle" ++ n ++ lit "=" ++ n;
    prefix ++ lit "_TrailStepBalance" ++ n ++ lit "=0.0" ].

(** The eight lines of one partial-close slot. *)
Definition partial_inputs (prefix : str) (partial : Z) : list str :=
  let n := str_of_int partial in
  [ prefix ++ lit "_PartialEnabled" ++ n ++ lit "=0";
    prefix ++ lit "_PartialCycle" ++ n ++ lit "=" ++ str_of_int (partial + 1);
    prefix ++ lit "_PartialMode" ++ n ++ lit "=1";
    prefix ++ lit "_PartialBalance" ++ n ++ lit "=1";
    prefix ++ lit "_PartialTrailMode" ++ n ++ lit "=0";
    prefix ++ lit "_PartialTrigger" ++ n ++ lit "=0";
    prefix ++ lit "_PartialProfitThreshold" ++ n ++ lit "=0.0";
    prefix ++ lit "_PartialHours" ++ n ++ lit "=0" ].

(** Generate all 88 inputs for a single logic-direction.  The prefix
    formats [{group_num}] and [{engine}] before it looks [logic] up; the
    model is for the group numbers Python formats and multiplies by its
    floats exactly (see [float_quarters]), where only the look-up can
    raise. *)
Definition generate_logic_inputs
    (group_num : Z) (engine logic direction : str) : result (list str) :=
  sfx ← dict_item LOGIC_SUFFIX logic;
  let prefix :=
    lit "gInput_" ++ str_of_int group_num ++ lit "_" ++ engine ++ sfx
    ++ lit "_" ++ direction in
  let is_power := Py.eqb logic (lit "Power") in
  let is_buy := Py.eqb direction (lit "Buy") in
  Ok (
    (* 1. Metadata & Base (3 fields) *)
    [ prefix ++ lit "_Enabled=1";
      (if is_buy then prefix ++ lit "_AllowBuy=1" else prefix ++ lit "_AllowBuy=0");
      (if is_buy then prefix ++ lit "_AllowSell=0" else prefix ++ lit "_AllowSell=1");
      (* 2. Order Parameters (5 fields) *)
      prefix ++ lit "_InitialLot=0.01";
      prefix ++ lit "_LastLot=0.10";
      prefix ++ lit "_Multiplier=1.20";
      prefix ++ lit "_Grid=" ++ str_of_int (100 + group_num * 20);
      prefix ++ lit "_GridBehavior=0";
      (* 3. Trail Configuration (4 fields) *)
      prefix ++ lit "_TrailMethod=0";
      (* 5.0 + (group_num * 0.5) *)
      prefix ++ lit "_TrailValue=" ++ float_quarters (20 + 2 * group_num);
      (* group_num * 2.0 *)
      prefix ++ lit "_TrailStart=" ++ float_quarters (8 * group_num);
      (* 5.0 + (group_num * 0.25) *)
      prefix ++ lit "_TrailStep=" ++ float_quarters (20 + group_num) ]
    (* 4. Trail Steps [7] x 5 fields = 35 fields *)
    ++ flat_map (trail_step_inputs prefix group_num) (range 1 8)
    ++
    (* 5. Take Profit / Stop Loss (6 fields) *)
    [ prefix ++ lit "_UseTP=1";
      (* 50.0 + (group_num * 10.0) *)
      prefix ++ lit "_TakeProfit=" ++ float_quarters (200 + 40 * group_num);
      prefix ++ lit "_TPMode=0";
      prefix ++ lit "_UseSL=1";
      (* 30.0 + (group_num * 5.0) *)
      prefix ++ lit "_StopLoss=" ++ float_quarters (120 + 20 * group_num);
      prefix ++ lit "_SLMode=0";
      (* 6. Breakeven (4 fields) *)
      prefix ++ lit "_BreakEvenMode=0";
      (* 20.0 + (group_num * 2.0) *)
      prefix ++ lit "_BreakEvenActivation=" ++ float_quarters (80 + 8 * group_num);
      (* 10.0 + group_num *)
      prefix ++ lit "_BreakEvenLock=" ++ float_quarters (40 + 4 * group_num);
      prefix ++ lit "_BreakEvenTrail=0";
      (* 7. Profit Trail (5 fields) *)
      prefix ++ lit "_ProfitTrailEnabled=0";
      prefix ++ lit "_ProfitTrailPeakDrop=50.0";
      prefix ++ lit "_ProfitTrailLock=30.0";
      prefix ++ lit "_ProfitTrailCloseOnTrigger=0";
      prefix ++ lit "_ProfitTrailUseBreakEven=0";
      (* 8. Entry Triggers (4 fields) *)
      prefix ++ lit "_TriggerType=0";
      prefix ++ lit "_TriggerBars=0";
      prefix ++ lit "_TriggerMinutes=0";
      prefix ++ lit "_TriggerPips=0.0";
      (* 9. Cross-Logic References (8 fields) *)
      prefix ++ lit "_ReverseReference=0";
      prefix ++ lit "_HedgeReference=0";
      prefix ++ lit "_OrderCountRefLogic=0";
      prefix ++ lit "_ReverseScale=1.0";
      prefix ++ lit "_HedgeScale=1.0";
      prefix ++ lit "_ReverseEnabled=0";
      prefix ++ lit "_HedgeEnabled=0";
      prefix ++ lit "_CloseTargets=0";
      (* 10. Engine-Specific (4 fields, Power has no start_level) *)
      prefix ++ lit "_OrderCountRef=0";
      (if negb is_power then prefix ++ lit "_StartLevel=" ++ str_of_int group_num
       else prefix ++ lit "_StartLevel=0");
      prefix ++ lit "_ResetLotOnRestart=1";
      prefix ++ lit "_RestartPolicy=0" ]
    (* 11. Partial Close [4] x 8 fields = 32 fields *)
    ++ flat_map (partial_inputs prefix) (range 1 5)).

(** Generate ~50 global inputs *)
Definition generate_global_inputs : list str :=
  map lit
  [ (* Global Settings *)
    "gInput_MagicNumber=777";
    "gInput_MagicNumberBuy=777";
    "gInput_MagicNumberSell=888";
    "gInput_EnableLogs=0";
    "gInput_AllowBuy=1";
    "gInput_AllowSell=1";
    "gInput_MaxSlippage=3";
    "gInput_MaxSpread=50";
    "gInput_MaxOrders=100";
    "gInput_MaxDailyLoss=0";
    "gInput_MaxDrawdown=0";
    "gInput_AutoCompounding=0";
    "gInput_CompoundingPercent=0.0";
    "gInput_RiskPercent=1.0";
    "gInput_LotSize=0.01";
    "gInput_UseMoneyManagement=0";
    "gInput_FixedLot=0.01";
    (* Session Settings *)
    "gInput_TradeMonday=1";
    "gInput_TradeTuesday=1";
    "gInput_TradeWednesday=1";
    "gInput_TradeThursday=1";
    "gInput_TradeFriday=1";
    "gInput_TradeSaturday=0";
    "gInput_TradeSunday=0";
    "gInput_StartHour=0";
    "gInput_EndHour=24";
    "gInput_UseSessionFilter=0";
    "gInput_SessionStart=0";
    "gInput_SessionEnd=24";
    (* Filter Settings *)
    "gInput_UseTrendFilter=0";
    "gInput_TrendPeriod=14";
    "gInput_UseVolatilityFilter=0";
    "gInput_VolatilityPeriod=20";
    "gInput_UseNewsFilter=0";
    "gInput_NewsImpact=3";
    "gInput_MinsBeforeNews=30";
    "gInput_MinsAfterNews=30";
    (* Advanced Settings *)
    "gInput_UseVirtualPending=0";
    "gInput_VirtualPendingPips=10.0";
    "gInput_OrderComment=DAAVILEFX";
    "gInput_RequireLicense=0";
    "gInput_LicenseServer=https://license.daavfx.com";
    "gInput_ShowUI=1";
    "gInput_ShowTrails=0";
    "gInput_EnableDebug=0";
    "gInput_LogLevel=1";
    "gInput_SaveStats=1";
    "gInput_StatsFile=daavilefx_stats.csv" ]%string.


(** The local time [datetime.now()] returned. *)
Record datetime : Type :=
  Datetime { year : nat; month : nat; day : nat;
             hour : nat; minute : nat; second : nat }.

(** [s.zfill(w)] for a string of digits. *)
Definition zfill (w : nat) (s : str) : str :=
  repeat 48 (w - length s)%nat ++ s.

(** [now.strftime('%Y-%m-%d %H:%M:%S')] *)
Definition strftime (now : datetime) : str :=
  zfill 4 (str_of_int (Z.of_nat (year now))) ++ lit "-"
  ++ zfill 2 (str_of_int (Z.of_nat (month now))) ++ lit "-"
  ++ zfill 2 (str_of_int (Z.of_nat (day now))) ++ lit " "
  ++ zfill 2 (str_of_int (Z.of_nat (hour now))) ++ lit ":"
  ++ zfill 2 (str_of_int (Z.of_nat (minute now))) ++ lit ":"
  ++ zfill 2 (str_of_int (Z.of_nat (second now))).

(** A loop whose body can raise, threading its state. *)
Fixpoint foldM {A S : Type} (f : S -> A -> result S) (l : list A) (s : S)
  : result S :=
  match l with
  | [] => Ok s
  | x :: l' => s' ← f s x; foldM f l' s'
  end.

Definition len {A : Type} (l : list A) : Z := Z.of_nat (length l).

Definition rule : str := lit "; ===========================================".

(** The multiplication sign of the header comments (U+00D7). *)
Definition times : str := [215].

(** The lines before the logic inputs. *)
Definition header (groups : Z) (now : datetime) : list str :=
  [ lit "; DAAVILEFX MASSIVE CONFIGURATION SETFILE";
    lit "; Generated: " ++ strftime now;
    lit "; Version: 18.0 MASSIVE";
    lit "; Platform: MT4";
    lit ";";
    lit "; Structure: " ++ str_of_int groups ++ lit " groups " ++ times ++ lit " "
      ++ str_of_int (len ENGINES) ++ lit " engines " ++ times ++ lit " "
      ++ str_of_int (len LOGICS) ++ lit " logics " ++ times ++ lit " "
      ++ str_of_int (len DIRECTIONS) ++ lit " directions";
    lit "; Total Logic-Directions: "
      ++ str_of_int (groups * len ENGINES * len LOGICS * len DIRECTIONS);
    lit "; Fields per Logic: 88";
    lit "; Total Logic Inputs: "
      ++ str_of_int (groups * len ENGINES * len LOGICS * len DIRECTIONS * 88);
    lit "; Global Inputs: ~50";
    lit "; GRAND TOTAL: ~55,500 inputs";
    lit "" ]
  (* Global Settings Section *)
  ++ [ rule; lit "; GLOBAL SETTINGS"; rule; lit "" ]
  ++ generate_global_inputs
  ++ [ lit "" ]
  (* Logic Inputs Section *)
  ++ [ rule; lit "; LOGIC CONFIGURATIONS (630 logic-directions)"; rule; lit "" ].

(** The body of [for direction in DIRECTIONS], on [(lines, total_inputs)]. *)
Definition direction_body (group : Z) (engine logic : str)
    (st : list str * Z) (direction : str) : result (list str * Z) :=
  logic_inputs ← generate_logic_inputs group engine logic direction;
  Ok (fst st ++ logic_inputs ++ [lit ""], (snd st + len logic_inputs)%Z).

(** The body of [for group in range(1, GROUPS + 1)]. *)
Definition group_body (st : list str * Z) (group : Z) : result (list str * Z) :=
  let st := (fst st ++ [lit "; Group " ++ str_of_int group; rule], snd st) in
  st ← foldM
         (fun st engine =>
            foldM (fun st logic => foldM (direction_body group engine logic) DIRECTIONS st)
              LOGICS st)
         ENGINES st;
  Ok (fst st ++ [lit ""], snd st).

(** [generate_massive_setfile] with the constant [GROUPS] as an argument. *)
Definition generate_massive_setfile_for (groups : Z) (now : datetime) : result str :=
  let lines := header groups now in
  let total_inputs := 0%Z in
  st ← foldM group_body (range 1 (groups + 1)) (lines, total_inputs);
  (* Footer *)
  let lines :=
    fst st
    ++ [ rule;
         lit "; END OF CONFIGURATION";
         lit "; Total Inputs Generated: "
           ++ str_of_int (snd st + len generate_global_inputs);
         rule ] in
  Ok (join [10] lines).

(** Generate complete massive setfile with all 55,500+ inputs *)
Definition generate_massive_setfile (now : datetime) : result str :=
  generate_massive_setfile_for GROUPS now.

(** [f.write(content)] on a file opened with [open(path, 'w',
    encoding='utf-8')]: text mode writes [os.linesep] for every line feed. *)
Definition write_text (linesep : str) (content : str) : result bytes :=
  let translated :=
    flat_map (fun c => if c =? 10 then linesep else [c]) content in
  match utf8_encode translated with
  | Some b => Ok b
  | None => Raise UnicodeEncodeError
  end.

(** The bytes [main] writes to the output file, for a group count. *)
Definition main_writes_for (groups : Z) (linesep : str) (now : datetime)
  : result bytes :=
  content ← generate_massive_setfile_for groups now;
  write_text linesep content.

(** The bytes [main] writes to the output file. *)
Definition main_writes (linesep : str) (now : datetime) : result bytes :=
  main_writes_for GROUPS linesep now.

End Massive.

(* ===================================================================== *)
(** ** generate_sample_json.py: the sample export                         *)
(* ===================================================================== *)

Module Sample.

Definition logic_names : list str :=
  map lit ["Power"; "Repower"; "Scalper"; "Stopper"; "STO"; "SCA"; "RPO"]%string.

Definition engine_ids : list str := map lit ["A"; "B"; "C"]%string.

(** The body of [for logic_name in logic_names]: the [logic] appended to
    [logics]. *)
Definition make_logic (engine_id : str) (group_num : Z) (logic_name : str) : json :=
  let is_power := Py.eqb (lower logic_name) (lit "power") in
  let logic_id :=
    engine_id ++ lit "_" ++ logic_name ++ lit "_G" ++ str_of_int group_num in
  let logic :=
    [ (lit "logic_name", JStr logic_name);
      (lit "logic_id", JStr logic_id);
      (lit "enabled", JBool true);
      (lit "initial_lot", JFloat (1 # 50));
      (lit "multiplier", JFloat (6 # 5));
      (lit "grid", JFloat (300 # 1));
      (lit "trail_method", JStr (lit "Points"));
      (lit "trail_value", JFloat (3000 # 1));
      (lit "trail_start", JFloat (1 # 1));
      (lit "trail_step", JFloat (1500 # 1));
      (lit "trail_step_method", JStr (lit "Step_Points"));
      (lit "close_targets", JStr (lit "1,2,3"));
      (lit "order_count_reference", JStr (lit "Logic_Self"));
      (lit "reset_lot_on_restart", JBool false);
      (lit "use_tp", JBool false);
      (lit "tp_mode", JStr (lit "TPSL_Points"));
      (lit "tp_value", JFloat (0 # 1));
      (lit "use_sl", JBool false);
      (lit "sl_mode", JStr (lit "TPSL_Points"));
      (lit "sl_value", JFloat (0 # 1));
      (lit "reverse_enabled", JBool false);
      (lit "hedge_enabled", JBool false);
      (lit "reverse_scale", JFloat (100 # 1));
      (lit "hedge_scale", JFloat (50 # 1));
      (lit "reverse_reference", JStr (lit "Logic_None"));
      (lit "hedge_reference", JStr (lit "Logic_None"));
      (lit "trail_step_mode", JStr (lit "TrailStepMode_Auto"));
      (lit "trail_step_cycle", JInt 1);
      (lit "trail_step_balance", JFloat (0 # 1));
      (lit "trail_step_2", JFloat (1500 # 1));
      (lit "trail_step_method_2", JStr (lit "Step_Points"));
      (lit "trail_step_cycle_2", JInt 1);
      (lit "trail_step_balance_2", JFloat (0 # 1));
      (lit "trail_step_mode_2", JStr (lit "TrailStepMode_Auto"));
      (lit "trail_step_3", JFloat (1500 # 1));
      (lit "trail_step_method_3", JStr (lit "Step_Points"));
      (lit "trail_step_cycle_3", JInt 1);
      (lit "trail_step_balance_3", JFloat (0 # 1));
      (lit "trail_step_mode_3", JStr (lit "TrailStepMode_Auto"));
      (lit "trail_step_4", JFloat (1500 # 1));
      (lit "trail_step_method_4", JStr (lit "Step_Points"));
      (lit "trail_step_cycle_4", JInt 1);
      (lit "trail_step_balance_4", JFloat (0 # 1));
      (lit "trail_step_mode_4", JStr (lit "TrailStepMode_Auto"));
      (lit "trail_step_5", JFloat (1500 # 1));
      (lit "trail_step_method_5", JStr (lit "Step_Points"));
      (lit "trail_step_cycle_5", JInt 1);
      (lit "trail_step_balance_5", JFloat (0 # 1));
      (lit "trail_step_mode_5", JStr (lit "TrailStepMode_Auto"));
      (lit "trail_step_6", JFloat (1500 # 1));
      (lit "trail_step_method_6", JStr (lit "Step_Points"));
      (lit "trail_step_cycle_6", JInt 1);
      (lit "trail_step_balance_6", JFloat (0 # 1));
      (lit "trail_step_mode_6", JStr (lit "TrailStepMode_Auto"));
      (lit "trail_step_7", JFloat (1500 # 1));
      (lit "trail_step_method_7", JStr (lit "Step_Points"));
      (lit "trail_step_cycle_7", JInt 1);
      (lit "trail_step_balance_7", JFloat (0 # 1));
      (lit "trail_step_mode_7", JStr (lit "TrailStepMode_Auto"));
      (lit "close_partial", JBool false);
      (lit "close_partial_cycle", JInt 3);
      (lit "close_partial_mode", JStr (lit "PartialMode_Low"));
      (lit "close_partial_balance", JStr (lit "PartialBalance_Balanced"));
      (lit "close_partial_trail_step_mode", JStr (lit "TrailStepMode_Auto"));
      (lit "close_partial_2", JBool false);
      (lit "close_partial_cycle_2", JInt 3);
      (lit "close_partial_mode_2", JStr (lit "PartialMode_Low"));
      (lit "close_partial_balance_2", JStr (lit "PartialBalance_Balanced"));
      (lit "close_partial_3", JBool false);
      (lit "close_partial_cycle_3", JInt 3);
      (lit "close_partial_mode_3", JStr (lit "PartialMode_Low"));
      (lit "close_partial_balance_3", JStr (lit "PartialBalance_Balanced"));
      (lit "close_partial_4", JBool false);
      (lit "close_partial_cycle_4", JInt 3);
      (lit "close_partial_mode_4", JStr (lit "PartialMode_Low"));
      (lit "close_partial_balance_4", JStr (lit "PartialBalance_Balanced")) ] in
  (* Non-Power specific fields *)
  let logic :=
    if negb is_power
    then logic ++ [ (lit "start_level", JInt 4); (lit "last_lot", JFloat (3 # 25)) ]
    else logic in
  (* Group 1 trigger fields *)
  let logic :=
    if (group_num =? 1)%Z
    then logic ++ [ (lit "trigger_type", JStr (lit "Default"));
                    (lit "trigger_bars", JInt 3);
                    (lit "trigger_minutes", JInt 15) ]
    else logic in
  JObj logic.

(** The body of [for group_num in range(1, 21)]: the [group] appended to
    [groups]. *)
Definition make_group (engine_id : str) (group_num : Z) : json :=
  let logics := map (make_logic engine_id group_num) logic_names in
  JObj
    [ (lit "group_number", JInt group_num);
      (lit "enabled", JBool true);
      (lit "reverse_mode", JBool false);
      (lit "hedge_mode", JBool false);
      (lit "hedge_reference", JStr (lit "Logic_None"));
      (lit "entry_delay_bars", JInt 0);
      (lit "logics", JArr logics) ].

(** The body of [for engine_id in engine_ids]: the [engine] appended to
    [engines]. *)
Definition make_engine (engine_id : str) : json :=
  let groups := map (make_group engine_id) (range 1 21) in
  JObj
    [ (lit "engine_id", JStr engine_id);
      (lit "engine_name", JStr (lit "Engine " ++ engine_id));
      (lit "max_power_orders", JInt 10);
      (lit "groups", JArr groups) ].

(** One element of the [sessions] comprehension. *)
Definition session (i : Z) : json :=
  JObj
    [ (lit "session_number", JInt i);
      (lit "enabled", JBool false);
      (lit "day", JInt (i mod 7));
      (lit "start_hour", JInt 9);
      (lit "start_minute", JInt 30);
      (lit "end_hour", JInt 17);
      (lit "end_minute", JInt 0);
      (lit "action", JStr (lit "TriggerAction_StopEA_KeepTrades"));
      (lit "auto_restart", JBool true);
      (lit "restart_mode", JStr (lit "Restart_Immediate"));
      (lit "restart_bars", JInt 0);
      (lit "restart_minutes", JInt 0);
      (lit "restart_pips", JInt 0) ].

(** Generate complete V17.04+ compliant config, for the engine identifiers
    [ids]; [timestamp] is [datetime.now().isoformat()]. *)
Definition generate_full_export_for (ids : list str) (timestamp : str) : json :=
  let engines := map make_engine ids in
  JObj
    [ (lit "version", JStr (lit "17.04"));
      (lit "platform", JStr (lit "MT4"));
      (lit "timestamp", JStr timestamp);
      (lit "total_inputs", JInt 11081);
      (lit "general", JObj
      [ (lit "license_key", JStr (lit ""));
        (lit "license_server_url", JStr (lit "https://license.daavfx.com"));
        (lit "require_license", JBool false);
        (lit "license_check_interval", JInt 3600);
        (lit "config_file_name", JStr (lit "DAAVFX_Config.json"));
        (lit "config_file_is_common", JBool false);
        (lit "allow_buy", JBool true);
        (lit "allow_sell", JBool true);
        (lit "enable_logs", JBool true);
        (lit "compounding_enabled", JBool false);
        (lit "compounding_type", JStr (lit "Compound_Balance"));
        (lit "compounding_target", JFloat (40 # 1));
        (lit "compounding_increase", JFloat (2 # 1));
        (lit "restart_policy_power", JStr (lit "Restart_Default"));
        (lit "restart_policy_non_power", JStr (lit "Restart_Default"));
        (lit "close_non_power_on_power_close", JBool false);
        (lit "hold_timeout_bars", JInt 10);
        (lit "magic_number", JInt 777);
        (lit "max_slippage_points", JFloat (30 # 1));
        (lit "risk_management", JObj
        [ (lit "spread_filter_enabled", JBool false);
          (lit "max_spread_points", JFloat (25 # 1));
          (lit "equity_stop_enabled", JBool false);
          (lit "equity_stop_value", JFloat (35 # 1));
          (lit "drawdown_stop_enabled", JBool false);
          (lit "max_drawdown_percent", JFloat (35 # 1)) ]);
        (lit "time_filters", JObj
        [ (lit "priority_settings", JObj
          [ (lit "news_filter_overrides_session", JBool false);
            (lit "session_filter_overrides_news", JBool true) ]);
          (lit "sessions", JArr (map session (range 1 8))) ]);
        (lit "news_filter", JObj
        [ (lit "enabled", JBool false);
          (lit "api_key", JStr (lit ""));
          (lit "api_url", JStr (lit "https://www.jblanked.com/news/api/calendar/"));
          (lit "countries", JStr (lit "US,GB,EU"));
          (lit "impact_level", JInt 3);
          (lit "minutes_before", JInt 30);
          (lit "minutes_after", JInt 30);
          (lit "action", JStr (lit "TriggerAction_StopEA_KeepTrades")) ]) ]);
      (lit "engines", JArr engines) ].

(** Generate complete V17.04+ compliant config. *)
Definition generate_full_export (timestamp : str) : json :=
  generate_full_export_for engine_ids timestamp.

End Sample.

(** The file system that holds [content] at [path] and nothing else. *)
Definition single_file (path : str) (content : bytes) : filesystem :=
  fun p => if Py.eqb p path then Ok content else Raise OSError.

(* ===================================================================== *)
(** ** validate_export.py: the entry points of the command line           *)
(* ===================================================================== *)

Module Cli.

(** What the [print] calls wrote, one message for each call, in order. *)
Definition console : Type := list msg.

(** How a call ends: with a value, or with an exception; [IndexError] is
    raised by no other function of the sources. *)
Inductive ending (A : Type) : Type :=
  | Returns (a : A)
  | Raises (e : exn)
  | RaisesIndexError.

Arguments Returns {A} a.
Arguments Raises {A} e.
Arguments RaisesIndexError {A}.

(** A computation that prints and may raise; what was printed before an
    exception stays printed. *)
Definition C (A : Type) : Type := console -> console * ending A.

Definition ret {A : Type} (a : A) : C A := fun out => (out, Returns a).

Definition bind {A B : Type} (m : C A) (k : A -> C B) : C B :=
  fun out =>
    match m out with
    | (out', Returns a) => k a out'
    | (out', Raises e) => (out', Raises e)
    | (out', RaisesIndexError) => (out', RaisesIndexError)
    end.

#[local] Instance C_ret : MRet C := @ret.
#[local] Instance C_bind : MBind C := fun A B k m => bind m k.

Section Stream.

(** The texts the encoding of the stream can hold: what is written is
    encoded first, and a text that cannot be encoded raises
    [UnicodeEncodeError] and leaves nothing on the stream. *)
Variable can_encode : msg -> bool.

(** [print(m)], and [f.write(m)] on a file opened as text. *)
Definition print (m : msg) : C unit :=
  fun out =>
    if can_encode m then (out ++ [m], Returns tt)
    else (out, Raises UnicodeEncodeError).

(** [print()]: the end of a line is in every encoding. *)
Definition blank : C unit := fun out => (out ++ [[]], Returns tt).

Definition lift {A : Type} (x : result A) : C A :=
  fun out =>
    match x with
    | Ok a => (out, Returns a)
    | Raise e => (out, Raises e)
    end.

(** [if b: m] *)
Definition when (b : bool) (m : C unit) : C unit :=
  if b then m else ret tt.

(** [for x in l: body(x)] *)
Fixpoint for_each {A : Type} (l : list A) (body : A -> C unit) : C unit :=
  match l with
  | [] => ret tt
  | x :: l' => body x ;; for_each l' body
  end.

(** [open(file_path, 'r')] followed by [json.load(f)]: the document, or
    the text ([str(e)]) of the exception one of them raised. *)
Inductive loaded : Type :=
  | Loaded (data : json)
  | LoadFailure (text : str).

(** The marks of the messages, character by character as the source file
    holds them. *)
Definition cross_mark : str := [8218; 249; 229].
Definition warning_mark : str := [8218; 246; 8224; 212; 8719; 232].
Definition check_mark : str := [8218; 250; 214].
Definition party_mark : str := [63743; 252; 233; 226].

(** ['='*60] *)
Definition rule : str := repeat 61 60.

Definition len {A : Type} (l : list A) : Z := Z.of_nat (length l).

(** [v[0]] *)
Definition py_first (v : json) : C json :=
  fun out =>
    match v with
    | JArr (x :: _) => (out, Returns x)
    | JArr [] => (out, RaisesIndexError)
    | JStr (c :: _) => (out, Returns (JStr [c]))
    | JStr [] => (out, RaisesIndexError)
    | JObj _ => (out, Raises KeyError)
    | _ => (out, Raises TypeError)
    end.

(** [sum(len(group.get("logics", [])) for engine in engines
         for group in engine.get("groups", []))] *)
Definition total_logics (engines : json) : result Z :=
  es ← py_iter engines;
  Massive.foldM
    (fun total engine =>
       groups ← py_get engine (lit "groups") (JArr []);
       gs ← py_iter groups;
       Massive.foldM
         (fun total group =>
            logics ← py_get group (lit "logics") (JArr []);
            n ← py_len logics;
            Ok (total + n)%Z)
         gs total)
    es 0%Z.

(** Main validation function for JSON exports. *)
Definition validate_export (files : str -> loaded) (file_path : str) : C bool :=
  print [T (10 :: rule)] ;;
  print [T (lit "Validating Dashboard Export: "); T file_path] ;;
  print [T (rule ++ [10])] ;;
  match files file_path with
  | LoadFailure e =>
      print [T (cross_mark ++ lit " Failed to load JSON: "); T e] ;;
      ret false
  | Loaded data =>
      report ← lift (validate_json_structure data);
      let errors := fst report in
      let warnings := snd report in
      (* Print warnings *)
      when (negb (bool_decide (warnings = [])))
        (print [T (warning_mark ++ lit "  "); V (JInt (len warnings));
                T (lit " Warnings:")] ;;
         for_each (firstn 10 warnings) (fun w => print (T (lit "   - ") :: w)) ;;
         when (10 <? len warnings)%Z
           (print [T (lit "   ... and "); V (JInt (len warnings - 10));
                   T (lit " more warnings")]) ;;
         blank) ;;
      (* Print errors *)
      if negb (bool_decide (errors = [])) then
        print [T (cross_mark ++ lit " "); V (JInt (len errors)); T (lit " Errors:")] ;;
        for_each (firstn 20 errors) (fun e => print (T (lit "   - ") :: e)) ;;
        when (20 <? len errors)%Z
          (print [T (lit "   ... and "); V (JInt (len errors - 20));
                  T (lit " more errors")]) ;;
        blank ;;
        print [T (cross_mark ++ lit " VALIDATION FAILED")] ;;
        ret false
      else
        (* Summary *)
        engines ← lift (py_get data (lit "engines") (JArr []));
        total ← lift (total_logics engines);
        print [T (check_mark ++ lit " Structure Valid")] ;;
        n ← lift (py_len engines);
        print [T (lit "   - Engines: "); V (JInt n)] ;;
        first ← py_first engines;
        groups ← lift (py_get first (lit "groups") (JArr []));
        g ← lift (py_len groups);
        print [T (lit "   - Groups per engine: "); V (JInt g)] ;;
        print [T (lit "   - Total logics: "); V (JInt total)] ;;
        print [T (lit "   - V17.04+ fields: " ++ check_mark ++ lit " Present")] ;;
        blank ;;
        print [T (party_mark ++ lit " VALIDATION SUCCESS!")] ;;
        ret true
  end.

(** Validate .set file has all expected MT4/MT5 variable names.  The call
    of [validate_set_file_parity] prints one line when [parse_set_file]
    catches an exception: [describe] gives the text of the exception. *)
Definition validate_set_parity
    (describe : exn -> str) (fs : filesystem) (set_file : str) : C bool :=
  print [T (10 :: rule)] ;;
  print [T (lit "Validating .SET File Parity: "); T set_file] ;;
  print [T (rule ++ [10])] ;;
  match parse_set_file_try fs set_file ∅ with
  | Raise e => print [T (lit "Error parsing .set file: "); T (describe e)]
  | Ok _ => ret tt
  end ;;
  let report := validate_set_file_parity fs set_file in
  let errors := fst report in
  if negb (bool_decide (errors = [])) then
    print [T (cross_mark ++ lit " "); V (JInt (len errors));
           T (lit " Missing Variables:")] ;;
    for_each (firstn 30 errors) (fun e => print [T (lit "   - "); T e]) ;;
    when (30 <? len errors)%Z
      (print [T (lit "   ... and "); V (JInt (len errors - 30));
              T (lit " more missing")]) ;;
    blank ;;
    print [T (cross_mark ++ lit " .SET PARITY CHECK FAILED")] ;;
    ret false
  else
    print [T (check_mark ++ lit " All expected MT4/MT5 variable names present")] ;;
    print [T (party_mark ++ lit " .SET PARITY CHECK PASSED!")] ;;
    ret true.

End Stream.

End Cli.

#[local] Existing Instance Cli.C_ret.
#[local] Existing Instance Cli.C_bind.

(* ===================================================================== *)
(** ** generate_sample_json.py: the set file of the visible inputs        *)
(* ===================================================================== *)

Module SampleSet.

(** [v[k]] for a string [k]: only a [dict] can be indexed by a string. *)
Definition py_item (v : json) (k : str) : result json :=
  match v with
  | JObj d =>
      match assoc d k with
      | Some x => Ok x
      | None => Raise KeyError
      end
  | _ => Raise TypeError
  end.

(** [table.get(v, default)] on a table of the source whose keys are
    strings: a list or a dict cannot be hashed; any other value that is no
    key gives the default. *)
Definition table_get {A : Type} (table : list (str * A)) (v : json) (default : A)
  : result A :=
  match v with
  | JStr s => Ok (dict_get table s default)
  | JArr _ | JObj _ => Raise TypeError
  | _ => Ok default
  end.

(** [next((x for x in l if test(x)), None)]: the elements after the first
    one that passes are not looked at. *)
Fixpoint next_where (test : json -> result bool) (l : list json) : result json :=
  match l with
  | [] => Ok JNull
  | x :: l' =>
      b ← test x;
      if (b : bool) then Ok x else next_where test l'
  end.

(* Enum Mappings (Best Guess / Standard defaults) *)
Definition TRAIL_METHODS : list (str * Z) :=
  [ (lit "Points", 0%Z); (lit "Percent", 1%Z); (lit "AVG_Points", 2%Z);
    (lit "AVG_Percent", 3%Z) ].

Definition TRAIL_STEP_METHODS : list (str * Z) :=
  [ (lit "Step_Points", 0%Z); (lit "Step_Percent", 1%Z); (lit "Step_Pips", 2%Z) ].

Definition TRAIL_STEP_MODES : list (str * Z) :=
  [ (lit "TrailStepMode_Auto", 0%Z); (lit "TrailStepMode_Fixed", 1%Z);
    (lit "TrailStepMode_PerOrder", 2%Z); (lit "TrailStepMode_Disabled", 3%Z) ].

Definition TPSL_MODES : list (str * Z) :=
  [ (lit "TPSL_Points", 0%Z); (lit "TPSL_Percent", 1%Z); (lit "TPSL_Currency", 2%Z) ].

Definition logic_suffix_map : list (str * str) :=
  [ (lit "Power", lit "P"); (lit "Repower", lit "R"); (lit "Scalper", lit "S");
    (lit "Stopper", lit "ST"); (lit "STO", lit "STO"); (lit "SCA", lit "SCA");
    (lit "RPO", lit "RPO") ].

Section Writer.

(** The texts the encoding of the file can hold: the file is opened with
    the encoding of the platform. *)
Variable can_encode : msg -> bool.

(** [f.write(m)]: what was written to the file, one message for each
    call, in order; the text is encoded when it is written. *)
Definition write (m : msg) : Cli.C unit := Cli.print can_encode m.

(** [if key in logic: f.write(f"{name}{suffix_full}={logic[key]}\n")] *)
Definition write_if_present (logic : json) (key name suffix_full : str) : Cli.C unit :=
  present ← Cli.lift (py_has logic key);
  Cli.when present
    (v ← Cli.lift (py_item logic key);
     write [T name; T suffix_full; T (lit "="); V v; T [10]]).

(** The body of [for logic in group1["logics"]]. *)
Definition logic_body (engine_a logic : json) : Cli.C unit :=
  name ← Cli.lift (py_item logic (lit "logic_name"));
  suffix ← Cli.lift (table_get logic_suffix_map name (lit "Unknown"));
  let suffix_full := suffix ++ lit "1" in
  write [T (lit "; --- "); V name; T (lit " 1 ---" ++ [10])] ;;
  write [T (lit "gInput_str1_"); V name; T (lit "="); V name; T (lit " 1" ++ [10])] ;;
  (* Core Inputs *)
  write_if_present logic (lit "initial_lot") (lit "gInput_Initial_loT_") suffix_full ;;
  write_if_present logic (lit "multiplier") (lit "gInput_Mult_") suffix_full ;;
  write_if_present logic (lit "grid") (lit "gInput_Grid_") suffix_full ;;
  (* Trail *)
  tm ← Cli.lift (py_get logic (lit "trail_method") (JStr (lit "Points")));
  method ← Cli.lift (table_get TRAIL_METHODS tm 0%Z);
  write [T (lit "gInput_Trail_"); T suffix_full; T (lit "="); V (JInt method); T [10]] ;;
  trail_value ← Cli.lift (py_get logic (lit "trail_value") (JInt 0));
  write [T (lit "gInput_TrailValue_"); T suffix_full; T (lit "="); V trail_value;
         T [10]] ;;
  trail_start ← Cli.lift (py_get logic (lit "trail_start") (JInt 0));
  write [T (lit "gInput_Trail_Start_"); T suffix_full; T (lit "="); V trail_start;
         T [10]] ;;
  trail_step ← Cli.lift (py_get logic (lit "trail_step") (JInt 0));
  write [T (lit "gInput_TrailStep_"); T suffix_full; T (lit "="); V trail_step;
         T [10]] ;;
  tsm ← Cli.lift (py_get logic (lit "trail_step_method") (JStr (lit "Step_Points")));
  step_method ← Cli.lift (table_get TRAIL_STEP_METHODS tsm 0%Z);
  write [T (lit "gInput_TrailStepMethod_"); T suffix_full; T (lit "=");
         V (JInt step_method); T [10]] ;;
  (* Logic Specific *)
  (if py_eq_str name (lit "Power") then
     orders ← Cli.lift (py_get engine_a (lit "max_power_orders") (JInt 10));
     write [T (lit "gInput_MaxPowerOrders="); V orders; T [10]] ;;
     last_lot ← Cli.lift (py_get logic (lit "last_lot") (JFloat (63 # 100)));
     write [T (lit "gInput_LastLotPower="); V last_lot; T [10]]
   else
     start_level ← Cli.lift (py_get logic (lit "start_level") (JInt 4));
     write [T (lit "gInput_Start"); V name; T (lit "="); V start_level; T [10]] ;;
     last_lot ← Cli.lift (py_get logic (lit "last_lot") (JFloat (12 # 100)));
     write [T (lit "gInput_LastLot"); V name; T (lit "="); V last_lot; T [10]]) ;;
  write [T [10]].

(** Generates a standard MT4/MT5 .set file for visible inputs (Group 1):
    what is written to the file once [open(filename, "w")] has succeeded. *)
Definition generate_set_file (config : json) : Cli.C unit :=
  write [T (lit "; DAAVFX V17.04 Generated Setfile" ++ [10])] ;;
  write [T (lit "; Contains Group 1 (Visible) inputs + Global Settings" ++ [10])] ;;
  write [T (lit "; For Hidden inputs (Groups 2-20), use the JSON config loader."
            ++ [10; 10])] ;;
  (* General Settings *)
  gen ← Cli.lift (py_item config (lit "general"));
  magic ← Cli.lift (py_get gen (lit "magic_number") (JInt 777));
  write [T (lit "MagicNumber="); V magic; T [10]] ;;
  slippage ← Cli.lift (py_get gen (lit "max_slippage_points") (JFloat (30 # 1)));
  write [T (lit "MaxSlippage="); V slippage; T [10]] ;;
  logs ← Cli.lift (py_get gen (lit "enable_logs") (JBool true));
  write [T (lit "EnableLogs="); V (JInt (if truthy logs then 1 else 0)); T [10]] ;;
  write [T [10]] ;;
  (* We will generate inputs for Engine A (Primary) *)
  engines ← Cli.lift (py_item config (lit "engines"));
  es ← Cli.lift (py_iter engines);
  engine_a ← Cli.lift
    (next_where (fun e => id ← py_item e (lit "engine_id"); Ok (py_eq_str id (lit "A")))
       es);
  if negb (truthy engine_a) then Cli.ret tt
  else
    (* Group 1 Only *)
    groups ← Cli.lift (py_item engine_a (lit "groups"));
    gs ← Cli.lift (py_iter groups);
    group1 ← Cli.lift
      (next_where
         (fun g => n ← py_item g (lit "group_number"); Ok (py_eq_int n 1)) gs);
    Cli.when (truthy group1)
      (write [T (lit "; ==== GROUP 1 ====" ++ [10])] ;;
       write [T (lit "gInput_str1==== GROUP 1 ====" ++ [10])] ;;
       logics ← Cli.lift (py_item group1 (lit "logics"));
       ls ← Cli.lift (py_iter logics);
       Cli.for_each ls (logic_body engine_a)).

End Writer.

End SampleSet.

(* ===================================================================== *)
(** ** Notions used to state the properties                               *)
(* ===================================================================== *)

(** The group-qualified key form of the specification:
    [gInput_G<group>_<FieldName>_<logicAbbrev>], the field name not empty. *)
Definition group_qualified_form (group : Z) (short k : str) : bool :=
  let head := lit "gInput_G" ++ str_of_int group ++ lit "_" in
  let tail := lit "_" ++ short in
  startswith head k && endswith tail k
  && (length head + length tail <? length k)%nat.

(** The suffix-appended key form of the specification:
    [gInput_<FieldName>_<suffix>], the field name not empty. *)
Definition suffix_form (suffix k : str) : bool :=
  let head := lit "gInput_" in
  let tail := lit "_" ++ suffix in
  startswith head k && endswith tail k
  && (length head + length tail <? length k)%nat.

(** The elements of [l] at the positions [a], ..., [b - 1] ([l[a:b]]). *)
Definition slice {A : Type} (a b : nat) (l : list A) : list A :=
  firstn (b - a) (skipn a l).

(** *** Paths into a loaded document *)

(** [v.get(k, default)] where [v] is an object, [default] elsewhere. *)
Definition field (v : json) (k : str) (default : json) : json :=
  match v with
  | JObj d => dict_get d k default
  | _ => default
  end.

(** The values an iteration over [v] visits, none when [v] cannot be
    iterated. *)
Definition items (v : json) : list json :=
  match py_iter v with
  | Ok l => l
  | Raise _ => []
  end.

Definition engines_of (data : json) : list json :=
  items (field data (lit "engines") (JArr [])).

Definition groups_of (engine : json) : list json :=
  items (field engine (lit "groups") (JArr [])).

Definition logics_of (group : json) : list json :=
  items (field group (lit "logics") (JArr [])).

Definition id_of (engine : json) : json := field engine (lit "engine_id") JNull.

Definition number_of (group : json) : json := field group (lit "group_number") JNull.

Definition name_of (logic : json) : json :=
  field logic (lit "logic_name") (JStr (lit "Unknown")).

(** The object [v] has no member [k]. *)
Definition lacks (v : json) (k : str) : bool :=
  match v with
  | JObj d => bool_decide (assoc d k = None)
  | _ => false
  end.

(** The logic name is ["power"] in some letter case. *)
Definition named_power (logic : json) : bool :=
  match name_of logic with
  | JStr s => Py.eqb (lower s) (lit "power")
  | _ => false
  end.

(** *** Documents on which the walk raises no exception *)

Definition is_obj (v : json) : bool :=
  match v with JObj _ => true | _ => false end.

Definition is_str (v : json) : bool :=
  match v with JStr _ => true | _ => false end.

(** [len(v)] and [for x in v] are defined. *)
Definition sized (v : json) : bool :=
  match v with JArr _ | JObj _ | JStr _ => true | _ => false end.

Definition logic_ok (logic : json) : bool :=
  is_obj logic && is_str (name_of logic).

Definition group_ok (group : json) : bool :=
  is_obj group && sized (field group (lit "logics") (JArr []))
  && forallb logic_ok (logics_of group).

Definition engine_ok (engine : json) : bool :=
  is_obj engine && sized (field engine (lit "groups") (JArr []))
  && forallb group_ok (groups_of engine).

Definition well_shaped (data : json) : bool :=
  is_obj data
  && (negb (truthy (field data (lit "engines") (JArr [])))
      || (sized (field data (lit "engines") (JArr []))
          && forallb engine_ok (engines_of data))).

(** *** What the walk adds to the report, entity by entity *)

(** [if k not in v: errors.append(m)] *)
Definition missing (v : json) (k : str) (m : msg) : list msg :=
  if lacks v k then [m] else [].

Definition count (v : json) : Z := Z.of_nat (length (items v)).

Definition logic_errors (engine_id g_num logic : json) : list msg :=
  let l_name := name_of logic in
  flat_map (fun f => missing logic f (msg_logic_field engine_id g_num l_name f))
    REQUIRED_LOGIC_FIELDS
  ++ (if negb (named_power logic)
      then missing logic (lit "start_level") (msg_start_level engine_id g_num l_name)
           ++ missing logic (lit "last_lot") (msg_last_lot engine_id g_num l_name)
      else [])
  ++ (if py_eq_int g_num 1
      then missing logic (lit "trigger_type") (msg_trigger_type engine_id l_name)
           ++ missing logic (lit "trigger_bars") (msg_trigger_bars engine_id l_name)
           ++ missing logic (lit "trigger_minutes") (msg_trigger_minutes engine_id l_name)
      else []).

Definition group_errors (engine_id group : json) : list msg :=
  flat_map (fun f => missing group f (msg_group_field engine_id (number_of group) f))
    REQUIRED_GROUP_FIELDS
  ++ flat_map (logic_errors engine_id (number_of group)) (logics_of group).

Definition group_warnings (engine_id group : json) : list msg :=
  let n := count (field group (lit "logics") (JArr [])) in
  if negb (n =? 7)%Z then [msg_logic_count engine_id (number_of group) n] else [].

Definition engine_errors (engine : json) : list msg :=
  flat_map (group_errors (id_of engine)) (groups_of engine).

Definition engine_warnings (engine : json) : list msg :=
  let n := count (field engine (lit "groups") (JArr [])) in
  (if negb (py_in_strs (id_of engine) expected_engines)
   then [msg_unexpected_engine (id_of engine)] else [])
  ++ (if negb (n =? 20)%Z then [msg_group_count (id_of engine) n] else [])
  ++ flat_map (group_warnings (id_of engine)) (groups_of engine).

Definition doc_errors (data : json) : list msg :=
  if truthy (field data (lit "engines") (JArr []))
  then flat_map engine_errors (engines_of data)
  else [msg_no_engines].

Definition doc_warnings (data : json) : list msg :=
  if truthy (field data (lit "engines") (JArr []))
  then flat_map engine_warnings (engines_of data)
  else [].

(** A loop body that, on the values [ok] accepts, appends [E x] and [W x]
    to the report, and raises on the others. *)
Definition behaves {A : Type} (body : A -> M unit) (ok : A -> bool)
    (E W : A -> list msg) : Prop :=
  forall x r,
    if ok x
    then body x r = Ok (tt, Report (errors r ++ E x) (warnings r ++ W x))
    else exists e, body x r = Raise e.

(** The logic [logic] of the group [group] of the engine [engine] of the
    document. *)
Definition on_path (data engine group logic : json) : Prop :=
  In engine (engines_of data) /\ In group (groups_of engine)
  /\ In logic (logics_of group).

(** The literal text of a message, a NUL for each interpolated value. *)
Definition static_text (m : msg) : str :=
  flat_map (fun p => match p with T s => s | V _ => [0] end) m.

(** [p in s] for strings. *)
Fixpoint contains (p s : str) : bool :=
  startswith p s
  || match s with
     | [] => false
     | _ :: t => contains p t
     end.

(** The message names the field [f], between quotes. *)
Definition about (f : str) (m : msg) : bool :=
  contains (lit "'" ++ f ++ lit "'") (static_text m).

(** *** The parity check as a function of the decoded mapping *)

(** The messages for the keys of [keys] that [set_values] lacks. *)
Definition missing_keys (set_values : gmap str str) (what : str) (keys : list str)
  : list str :=
  flat_map
    (fun key => if bool_decide (set_values !! key = None) then [what ++ key] else [])
    keys.

(** The messages for one engine and one group. *)
Definition missing_in_group (set_values : gmap str str) (engine_id : str) (group : Z)
  : list str :=
  missing_keys set_values (lit "Missing group key: ") (generate_group_level_keys group)
  ++ flat_map
       (fun logic_name =>
          missing_keys set_values (lit "Missing logic key: ")
            (generate_expected_set_keys engine_id group logic_name))
       canonical_logics.

Definition missing_everywhere (set_values : gmap str str) : list str :=
  flat_map
    (fun engine_id => flat_map (missing_in_group set_values engine_id) (range 1 21))
    expected_engines.

(** Every key the parity validator looks up, in order. *)
Definition all_expected_keys : list str :=
  flat_map
    (fun engine_id =>
       flat_map
         (fun group =>
            generate_group_level_keys group
            ++ flat_map (generate_expected_set_keys engine_id group) canonical_logics)
         (range 1 21))
    expected_engines.

(** *** The processing rule of the decoder, line by line *)

(** The line contributes the entry [(k, v)]: trimmed, it is not empty, does
    not begin with [;], and splits at its first [=] into two parts that,
    trimmed, are [k] and [v]. *)
Definition entry (line k v : str) : Prop :=
  let l := strip line in
  l <> [] /\ startswith1 59 l = false
  /\ exists a b, l = a ++ 61 :: b /\ ~ In 61 a /\ k = strip a /\ v = strip b.

(** The entry of a line as a function. *)
Definition line_entry (line : str) : option (str * str) :=
  let l := strip line in
  if bool_decide (l = []) || startswith1 59 l then None
  else match split1 61 l with
       | Some (a, b) => Some (strip a, strip b)
       | None => None
       end.

(** The fields a logic must carry only under a condition. *)
Definition conditional_fields : list str :=
  map lit ["start_level"; "last_lot"; "trigger_type"; "trigger_bars";
           "trigger_minutes"]%string.

(** *** Documents and files used as instances *)

(** A logic that has a name and nothing else; a group, number 1, that
    holds it and nothing else; an engine with this group; a document with
    this engine. *)
Definition bare_logic (logic_name : str) : json :=
  JObj [ (lit "logic_name", JStr logic_name) ].

Definition bare_group (logic_name : str) : json :=
  JObj [ (lit "group_number", JInt 1);
         (lit "logics", JArr [ bare_logic logic_name ]) ].

Definition bare_engine (engine_id logic_name : str) : json :=
  JObj [ (lit "engine_id", JStr engine_id);
         (lit "groups", JArr [ bare_group logic_name ]) ].

Definition bare_document (engine_id logic_name : str) : json :=
  JObj [ (lit "engines", JArr [ bare_engine engine_id logic_name ]) ].

(** The bytes of an ASCII text. *)
Definition ascii_bytes (s : str) : bytes := map byte_of_N s.


(** *** Character classes and proof tools *)

(** A decimal digit or the minus sign: the characters of [str(n)]. *)
Definition digit_or_minus (c : N) : bool := isdigit c || (c =? 45).

(** A capital letter: the characters of the abbreviations. *)
Definition capital (c : N) : bool := (65 <=? c) && (c <=? 90).

(** Replace the literals of the goal by their code points. *)
Ltac eval_lits :=
  repeat match goal with
         | |- context [lit ?s] =>
             let v := eval vm_compute in (lit s) in change (lit s) with v
         end.

(** Split a hypothesis [In x [a; b; ...]] into its cases. *)
Ltac split_in H :=
  repeat match type of H with
         | _ \/ _ => destruct H as [H | H]
         | False => destruct H
         end.


(** *** Characters of the generated file *)

(** A character that ends no line and that UTF-8 encodes. *)
Definition tame (c : N) : bool := negb (islinebreak c) && scalar c.

Definition tameb (s : str) : bool := forallb tame s.

(** A character that may stand in the head of a key: no white space, no
    line boundary, no [=], and encodable. *)
Definition solid (c : N) : bool :=
  negb (isspace c) && negb (c =? 61) && tame c.

Definition solidb (s : str) : bool := forallb solid s.

(** The character after [gInput_] in a key; 0 when the key is shorter. *)
Definition eighth (k : str) : N := nth 7 k 0.

(** The key holds a decimal digit. *)
Definition has_digit (k : str) : bool := existsb isdigit k.

(** The keys of the generator: after [gInput_] comes the group number (the
    logic inputs), or the key holds no digit at all (the global inputs). *)
Definition generator_key (k : str) : bool :=
  digit_or_minus (eighth k) || negb (has_digit k).

(** What text mode writes for a text: [linesep] for every line feed. *)
Definition translate (linesep : str) (content : str) : str :=
  flat_map (fun c => if c =? 10 then linesep else [c]) content.

(** Arithmetic with division by a constant. *)
Ltac arith := zify; Z.to_euclidean_division_equations; lia.

(** Split a conjunction of comparisons that must be true. *)
Ltac btrue :=
  repeat match goal with
         | |- (_ && _) = true => apply andb_true_intro; split
         | |- (_ <=? _) = true => apply N.leb_le
         | |- (_ <? _) = true => apply N.ltb_lt
         | |- (_ =? _) = true => apply N.eqb_eq
         end.

(** *** Lines of the generated file *)

(** A line the decoder can take from the generated file: it holds no line
    boundary and can be encoded, and the key of its entry, when it has one,
    is a key of the generator. *)
Definition good_line (x : str) : Prop :=
  tameb x = true
  /\ forall k v, line_entry x = Some (k, v) -> generator_key k = true.

(** The same as a test. *)
Definition good_lineb (x : str) : bool :=
  tameb x
  && match line_entry x with
     | Some (k, _) => generator_key k
     | None => true
     end.

(** The field name begins with a character that is no digit and no minus
    sign. *)
Definition letter_head (f : str) : bool :=
  match f with
  | c :: _ => negb (digit_or_minus c)
  | [] => false
  end.

(** The first line of the generated file. *)
Definition first_line : str := lit "; DAAVILEFX MASSIVE CONFIGURATION SETFILE".

(* ===================================================================== *)
(** ** Notions for the generated set file                                 *)
(* ===================================================================== *)

(** A character of a number as the generator writes it: a digit, the minus
    sign or the decimal point. *)
Definition numeric (c : N) : bool := isdigit c || (c =? 45) || (c =? 46).

(** A number as the generator writes it. *)
Definition valueb (v : str) : bool :=
  forallb numeric v && negb (bool_decide (v = [])).

(** The line is [<prefix><field>=<value>], the field without white space
    and the value a number. *)
Definition input_line (prefix line : str) : Prop :=
  exists f v, line = prefix ++ f ++ 61 :: v /\ solidb f = true /\ valueb v = true.

(** The part of an input line after the prefix. *)
Definition input_tail (tail : str) : Prop :=
  exists f v, tail = f ++ 61 :: v /\ solidb f = true /\ valueb v = true.

(** The same as a test, for a tail without variable parts. *)
Definition input_tailb (tail : str) : bool :=
  match split1 61 tail with
  | Some (f, v) => solidb f && valueb v
  | None => false
  end.

(** The prefix of the lines of one logic and direction. *)
Definition logic_prefix (group_num : Z) (engine sfx direction : str) : str :=
  lit "gInput_" ++ str_of_int group_num ++ lit "_" ++ engine ++ sfx
  ++ lit "_" ++ direction.

(** The line is an input: the decoder takes an entry from it. *)
Definition is_input (line : str) : bool :=
  match line_entry line with
  | Some _ => true
  | None => false
  end.

(** The number of inputs among the lines. *)
Definition inputs (lines : list str) : Z :=
  Z.of_nat (length (filter (fun l => is_input l = true) lines)).

(** What the loops keep: every line is good, the counter is the number of
    inputs after the 48 global ones, and the lines begin with the header
    [h]. *)
Definition file_state (h : list str) (st : list str * Z) : Prop :=
  Forall good_line (fst st)
  /\ inputs (fst st) = (snd st + 48)%Z
  /\ exists rest, fst st = h ++ rest.

(** The last lines of the file, reporting [total] inputs. *)
Definition footer (total : Z) : list str :=
  [ lit "; ===========================================";
    lit "; END OF CONFIGURATION";
    lit "; Total Inputs Generated: " ++ str_of_int total;
    lit "; ===========================================" ].


(** A file system whose files all hold what [main] writes on a platform
    with the line separator LF, at the first second of 2024. *)
Definition written_by_main : filesystem :=
  fun _ => Massive.main_writes [10] (Massive.Datetime 2024 1 1 0 0 0).

(* ===================================================================== *)
(** ** Notions for the parity check                                       *)
(* ===================================================================== *)

(** The group-level keys the parity validator looks up, once for each
    group. *)
Definition all_group_keys : list str :=
  flat_map generate_group_level_keys (range 1 21).

(** The group-level keys in the order of the look-ups: the loop over the
    groups runs inside the loop over the engines. *)
Definition group_key_checks : list str :=
  flat_map (fun _ : str => all_group_keys) expected_engines.

(** The logic-level keys the parity validator looks up, in order. *)
Definition all_logic_keys : list str :=
  flat_map
    (fun engine_id =>
       flat_map
         (fun group =>
            flat_map (generate_expected_set_keys engine_id group) canonical_logics)
         (range 1 21))
    expected_engines.

(** A key as a number, its characters the digits. *)
Definition key_number (k : str) : positive :=
  fold_left (fun acc c => (acc * 128 + N.succ_pos c)%positive) k 1%positive.

(** No element of [l] is in [seen] or occurs twice in [l]. *)
Fixpoint fresh_from (seen : MSetPositive.PositiveSet.t) (l : list positive) : bool :=
  match l with
  | [] => true
  | x :: t =>
      negb (MSetPositive.PositiveSet.mem x seen)
      && fresh_from (MSetPositive.PositiveSet.add x seen) t
  end.

(** The number of occurrences of [x] in [l]. *)
Definition occurrences (x : str) (l : list str) : nat :=
  length (filter (fun y => y = x) l).

(** An input line [key=value] as a writer of set files puts it. *)
Definition render_entry (kv : str * str) : str := fst kv ++ 61 :: snd kv.

(** A key and a value the decoder gets back as they were written: the key
    not empty, without white space, [=] or line boundary, not beginning
    with [;]; the value without line boundary and without white space at
    its ends. *)
Definition entry_ok (kv : str * str) : bool :=
  solidb (fst kv) && negb (bool_decide (fst kv = []))
  && negb (startswith1 59 (fst kv))
  && tameb (snd kv) && bool_decide (rstrip (lstrip (snd kv)) = snd kv).

(** A set file that gives every expected key the value 0. *)
Definition complete_entries : list (str * str) :=
  map (fun k => (k, lit "0")) all_expected_keys.

(* ===================================================================== *)
(** ** Notions for the structural validator                               *)
(* ===================================================================== *)

(** The object [v] has the member [k]. *)
Definition has (v : json) (k : str) : bool := negb (lacks v k).

(** The logic carries every field the validator asks of it in a group
    whose number is [g_num]. *)
Definition complete_logic (g_num logic : json) : bool :=
  forallb (has logic) REQUIRED_LOGIC_FIELDS
  && (named_power logic
      || has logic (lit "start_level") && has logic (lit "last_lot"))
  && (negb (py_eq_int g_num 1)
      || has logic (lit "trigger_type") && has logic (lit "trigger_bars")
         && has logic (lit "trigger_minutes")).

(** The group carries its fields, and its logics theirs. *)
Definition complete_group (group : json) : bool :=
  forallb (has group) REQUIRED_GROUP_FIELDS
  && forallb (complete_logic (number_of group)) (logics_of group).

(** The document has engines, and all their groups are complete. *)
Definition complete_document (data : json) : bool :=
  truthy (field data (lit "engines") (JArr []))
  && forallb (fun engine => forallb complete_group (groups_of engine))
       (engines_of data).

(** The exceptions of a call on a value of the wrong type. *)
Definition type_failure (e : exn) : Prop := e = AttributeError \/ e = TypeError.

(** The computation raises nothing but the exceptions of a call on a value
    of the wrong type. *)
Definition mildly {A : Type} (c : M A) : Prop :=
  forall r e, c r = Raise e -> type_failure e.

(* ===================================================================== *)
(** ** Notions for the encodings                                          *)
(* ===================================================================== *)

(** The UTF-16 units of one code point. *)
Definition utf16_units (c : N) : list N :=
  if c <? 65536 then [c]
  else [55296 + (c - 65536) / 1024; 56320 + (c - 65536) mod 1024].

(** [str.encode('utf-16-le')], as numbers below 256. *)
Definition utf16le_encode (s : str) : list N :=
  flat_map (fun u => [u mod 256; u / 256]) (flat_map utf16_units s).

(** The bytes of a text in UTF-8, without a mark. *)
Definition utf8_bytes (s : str) : bytes := map byte_of_N (flat_map utf8_char s).

(** The bytes of a text in UTF-16 LE after the byte-order mark [FF FE]. *)
Definition utf16_file (s : str) : bytes :=
  xff :: xfe :: map byte_of_N (utf16le_encode s).

(** The bytes of a text in UTF-8 after the mark [EF BB BF]. *)
Definition utf8_marked_file (s : str) : bytes :=
  xef :: xbb :: xbf :: utf8_bytes s.

(** No character of the string is a line boundary. *)
Definition one_line (s : str) : Prop := Forall (fun c => islinebreak c = false) s.

(** A file system with the same text in three encodings. *)
Definition three_encodings (text : str) : filesystem :=
  fun path =>
    if Py.eqb path (lit "utf8.set") then Ok (utf8_bytes text)
    else if Py.eqb path (lit "utf16.set") then Ok (utf16_file text)
    else if Py.eqb path (lit "marked.set") then Ok (utf8_marked_file text)
    else Raise OSError.

(* ===================================================================== *)
(** ** Notions for the entry points                                       *)
(* ===================================================================== *)

(** The three lines every entry point prints first. *)
Definition banner (title file_path : str) : Cli.console :=
  [ [T (10 :: Cli.rule)]; [T title; T file_path]; [T (Cli.rule ++ [10])] ].

(** The logics of the groups of one engine, added to [total]. *)
Definition engine_total (total : Z) (engine : json) : Z :=
  fold_left
    (fun t group => (t + count (field group (lit "logics") (JArr [])))%Z)
    (groups_of engine) total.

(** The number of logics of the document, group by group. *)
Definition logic_total (data : json) : Z :=
  fold_left engine_total (engines_of data) 0%Z.

(** What [validate_export] prints for [warnings]. *)
Definition warnings_block (warnings : list msg) : Cli.console :=
  if bool_decide (warnings = []) then []
  else
    [ [T (Cli.warning_mark ++ lit "  "); V (JInt (Cli.len warnings));
       T (lit " Warnings:")] ]
    ++ map (fun w => T (lit "   - ") :: w) (firstn 10 warnings)
    ++ (if (10 <? Cli.len warnings)%Z
        then [ [T (lit "   ... and "); V (JInt (Cli.len warnings - 10));
                T (lit " more warnings")] ]
        else [])
    ++ [ [] ].

(** What [validate_export] prints after a successful validation. *)
Definition summary (data : json) : Cli.console :=
  [ [T (Cli.check_mark ++ lit " Structure Valid")];
    [T (lit "   - Engines: "); V (JInt (count (field data (lit "engines") (JArr []))))];
    [T (lit "   - Groups per engine: ");
     V (JInt (count (field (hd JNull (engines_of data)) (lit "groups") (JArr []))))];
    [T (lit "   - Total logics: "); V (JInt (logic_total data))];
    [T (lit "   - V17.04+ fields: " ++ Cli.check_mark ++ lit " Present")];
    [];
    [T (Cli.party_mark ++ lit " VALIDATION SUCCESS!")] ].

(** What [validate_export] prints for [errors], when there are some. *)
Definition errors_block (errors : list msg) : Cli.console :=
  [ [T (Cli.cross_mark ++ lit " "); V (JInt (Cli.len errors)); T (lit " Errors:")] ]
  ++ map (fun e => T (lit "   - ") :: e) (firstn 20 errors)
  ++ (if (20 <? Cli.len errors)%Z
      then [ [T (lit "   ... and "); V (JInt (Cli.len errors - 20));
              T (lit " more errors")] ]
      else [])
  ++ [ []; [T (Cli.cross_mark ++ lit " VALIDATION FAILED")] ].

(** What [validate_set_parity] prints for [errors]. *)
Definition parity_report (errors : list str) : Cli.console :=
  if bool_decide (errors = [])
  then [ [T (Cli.check_mark ++ lit " All expected MT4/MT5 variable names present")];
         [T (Cli.party_mark ++ lit " .SET PARITY CHECK PASSED!")] ]
  else
    [ [T (Cli.cross_mark ++ lit " "); V (JInt (Cli.len errors));
       T (lit " Missing Variables:")] ]
    ++ map (fun e => [T (lit "   - "); T e]) (firstn 30 errors)
    ++ (if (30 <? Cli.len errors)%Z
        then [ [T (lit "   ... and "); V (JInt (Cli.len errors - 30));
                T (lit " more missing")] ]
        else [])
    ++ [ []; [T (Cli.cross_mark ++ lit " .SET PARITY CHECK FAILED")] ].

(** The line [parse_set_file] prints when it catches an exception. *)
Definition parse_failure_line (describe : exn -> str) (fs : filesystem)
    (set_file : str) : Cli.console :=
  match parse_set_file_try fs set_file ∅ with
  | Raise e => [ [T (lit "Error parsing .set file: "); T (describe e)] ]
  | Ok _ => []
  end.

(** The stream takes the message: the empty line of [print()] is in every
    encoding. *)
Definition encodable (enc : msg -> bool) (m : msg) : bool :=
  match m with
  | [] => true
  | _ => enc m
  end.

(** Printing the messages of [l] one after the other and ending with [r]:
    the first message the stream cannot encode raises [UnicodeEncodeError]
    in place of [r], and the messages before it stay printed. *)
Fixpoint printing {A : Type} (enc : msg -> bool) (l : list msg) (r : Cli.ending A)
    (out : Cli.console) : Cli.console * Cli.ending A :=
  match l with
  | [] => (out, r)
  | m :: l' =>
      if encodable enc m then printing enc l' r (out ++ [m])
      else (out, Cli.Raises UnicodeEncodeError)
  end.

(** The computation prints [l] and ends with [r], as far as the stream
    takes the messages. *)
Definition prints {A : Type} (enc : msg -> bool) (c : Cli.C A) (l : list msg)
    (r : Cli.ending A) : Prop :=
  forall out, c out = printing enc l r out.

(** The messages for the logics that lack the field [f] in the groups whose
    number is 1, in the order of the document; [m] builds the message from
    the identifier of the engine and the name of the logic. *)
Definition group_one_flags (f : str) (m : json -> json -> msg) (data : json)
  : list msg :=
  flat_map
    (fun engine =>
       flat_map
         (fun group =>
            if py_eq_int (number_of group) 1
            then flat_map
                   (fun logic =>
                      if lacks logic f then [m (id_of engine) (name_of logic)] else [])
                   (logics_of group)
            else [])
         (groups_of engine))
    (engines_of data).

(** The field and the message of one of the three checks of group 1. *)
Definition trigger_check (f : str) (m : json -> json -> msg) : Prop :=
  (f = lit "trigger_type" /\ m = msg_trigger_type)
  \/ (f = lit "trigger_bars" /\ m = msg_trigger_bars)
  \/ (f = lit "trigger_minutes" /\ m = msg_trigger_minutes).

(** A document with the bare logic Power in group 1 and the bare logic
    Scalper in group 3 of engine A. *)
Definition two_groups_document : json :=
  JObj
    [ (lit "engines",
       JArr
         [ JObj
             [ (lit "engine_id", JStr (lit "A"));
               (lit "groups",
                JArr
                  [ JObj [ (lit "group_number", JInt 1);
                           (lit "logics", JArr [ bare_logic (lit "Power") ]) ];
                    JObj [ (lit "group_number", JInt 3);
                           (lit "logics", JArr [ bare_logic (lit "Scalper") ]) ] ]) ] ]) ].

(** A loader that finds the sample export at every path. *)
Definition sample_files : str -> Cli.loaded :=
  fun _ => Cli.Loaded (Sample.generate_full_export (lit "2024-01-01T00:00:00")).

(* ===================================================================== *)
(** ** Notions for the set file of the visible inputs                     *)
(* ===================================================================== *)







(** The remarks [generate_set_file] writes first. *)
Definition opening : Cli.console :=
  [ [T (lit "; DAAVFX V17.04 Generated Setfile" ++ [10])];
    [T (lit "; Contains Group 1 (Visible) inputs + Global Settings" ++ [10])];
    [T (lit "; For Hidden inputs (Groups 2-20), use the JSON config loader."
        ++ [10; 10])] ].

(** What [generate_set_file] writes before it looks at the engines, for a
    configuration whose general settings are [gen]. *)
Definition general_part (gen : json) : Cli.console :=
  opening
  ++ [ [T (lit "MagicNumber="); V (field gen (lit "magic_number") (JInt 777)); T [10]];
       [T (lit "MaxSlippage=");
        V (field gen (lit "max_slippage_points") (JFloat (30 # 1))); T [10]];
       [T (lit "EnableLogs=");
        V (JInt (if truthy (field gen (lit "enable_logs") (JBool true)) then 1 else 0));
        T [10]];
       [T [10]] ].

(** The engine is an object whose identifier is there and is not ["A"]. *)
Definition other_engine (engine : json) : bool :=
  match engine with
  | JObj d =>
      match assoc d (lit "engine_id") with
      | Some id => negb (py_eq_str id (lit "A"))
      | None => false
      end
  | _ => false
  end.





(** A configuration without engine A. *)
Definition engine_b_only : json :=
  JObj
    [ (lit "general", JObj []);
      (lit "engines",
       JArr [ JObj [ (lit "engine_id", JStr (lit "B")); (lit "groups", JArr []) ] ]) ].

(* ===================================================================== *)
(** ** Strings: prefixes, suffixes, decimal digits                        *)
(* ===================================================================== *)

Lemma eqb_true (a b : str) : Py.eqb a b = true <-> a = b.
Proof. unfold Py.eqb. apply bool_decide_eq_true. Qed.

Lemma eqb_false (a b : str) : Py.eqb a b = false <-> a <> b.
Proof. unfold Py.eqb. apply bool_decide_eq_false. Qed.

Lemma eqb_refl (a : str) : Py.eqb a a = true.
Proof. now apply eqb_true. Qed.

Lemma startswith_app (p s : str) : startswith p (p ++ s) = true.
Proof.
  induction p as [|x p IH]; simpl; [reflexivity|].
  now rewrite N.eqb_refl, IH.
Qed.

Lemma startswith_spec (p s : str) :
  startswith p s = true <-> exists t, s = p ++ t.
Proof.
  revert s; induction p as [|x p IH]; intros s; simpl.
  - split; [intros _; now exists s | reflexivity].
  - destruct s as [|y s].
    + split; [discriminate | intros [t Ht]; discriminate].
    + rewrite andb_true_iff, N.eqb_eq, IH. split.
      * intros [-> [t ->]]. now exists t.
      * intros [t Ht]. injection Ht as -> ->. split; [reflexivity | now exists t].
Qed.

Lemma endswith_app (p s : str) : endswith p (s ++ p) = true.
Proof. unfold endswith. rewrite rev_app_distr. apply startswith_app. Qed.

Lemma endswith_spec (p s : str) :
  endswith p s = true <-> exists t, s = t ++ p.
Proof.
  unfold endswith. rewrite startswith_spec. split.
  - intros [t Ht]. exists (rev t).
    rewrite <- (rev_involutive s), Ht, rev_app_distr. now rewrite rev_involutive.
  - intros [t ->]. exists (rev t). apply rev_app_distr.
Qed.

(** The tables have finitely many values. *)
Lemma engine_prefix_cases (engine_id : str) :
  dict_get ENGINE_PREFIXES engine_id (lit "") = lit ""
  \/ dict_get ENGINE_PREFIXES engine_id (lit "") = lit "B"
  \/ dict_get ENGINE_PREFIXES engine_id (lit "") = lit "C".
Proof.
  unfold dict_get, ENGINE_PREFIXES, assoc.
  repeat (destruct (Py.eqb _ engine_id); [tauto|]). tauto.
Qed.

Lemma logic_abbrev_cases (logic_name : str) :
  In (dict_get LOGIC_ABBREVIATIONS logic_name (lit "P"))
     (map lit ["P"; "R"; "S"; "ST"; "STO"; "SCA"; "RPO"]%string).
Proof.
  unfold dict_get, LOGIC_ABBREVIATIONS, assoc.
  repeat (destruct (Py.eqb _ logic_name); [simpl; tauto|]). simpl; tauto.
Qed.

Lemma assoc_None_in {A : Type} (d : list (str * A)) (k : str) :
  assoc d k = None <-> ~ In k (map fst d).
Proof.
  induction d as [|[k' v] d IH]; simpl; [tauto|].
  destruct (Py.eqb k' k) eqn:E.
  - apply eqb_true in E. split; [discriminate | tauto].
  - apply eqb_false in E. rewrite IH. tauto.
Qed.

Lemma canonical_logics_keys : canonical_logics = map fst LOGIC_ABBREVIATIONS.
Proof. reflexivity. Qed.

Lemma expected_engines_keys : expected_engines = map fst ENGINE_PREFIXES.
Proof. reflexivity. Qed.

(** *** The decimal rendering of an [int] *)

Lemma uint_digits_isdigit d : Forall (fun c => isdigit c = true) (uint_digits d).
Proof. induction d; simpl; constructor; auto. Qed.

Lemma uint_digits_nonempty d : d <> Nil -> uint_digits d <> [].
Proof. destruct d; simpl; congruence. Qed.

(** [str(n)] is a string of digits, after a minus sign when [n < 0]. *)
Lemma str_of_int_shape z :
  exists sign digits,
    str_of_int z = sign ++ digits
    /\ (sign = [] \/ sign = [45])
    /\ digits <> [] /\ Forall (fun c => isdigit c = true) digits.
Proof.
  unfold str_of_int, Z.to_int. destruct z as [|p|p].
  - exists [], [48]. split; [reflexivity|]. split; [now left|].
    split; [discriminate | repeat constructor].
  - exists [], (uint_digits (Pos.to_uint p)). split; [reflexivity|].
    split; [now left|]. split.
    + apply uint_digits_nonempty, Unsigned.to_uint_nonnil.
    + apply uint_digits_isdigit.
  - exists [45], (uint_digits (Pos.to_uint p)). split; [reflexivity|].
    split; [now right|]. split.
    + apply uint_digits_nonempty, Unsigned.to_uint_nonnil.
    + apply uint_digits_isdigit.
Qed.

Lemma str_of_int_chars z : Forall (fun c => digit_or_minus c = true) (str_of_int z).
Proof.
  destruct (str_of_int_shape z) as (sign & digits & -> & Hs & _ & Hd).
  apply Forall_app. split.
  - destruct Hs as [->| ->]; repeat constructor.
  - eapply Forall_impl; [exact Hd|]. intros c Hc. unfold digit_or_minus.
    now rewrite Hc.
Qed.

Lemma str_of_int_nonempty z : str_of_int z <> [].
Proof.
  destruct (str_of_int_shape z) as (sign & digits & -> & _ & Hd & _).
  destruct sign; simpl; [assumption | discriminate].
Qed.

(** Its first character. *)
Lemma str_of_int_head z :
  exists c t, str_of_int z = c :: t /\ digit_or_minus c = true.
Proof.
  pose proof (str_of_int_chars z) as H. pose proof (str_of_int_nonempty z) as Hn.
  destruct (str_of_int z) as [|c t]; [congruence|].
  exists c, t. split; [reflexivity|]. now inversion H.
Qed.

(** Its last character is a digit. *)
Lemma str_of_int_last z :
  exists t c, str_of_int z = t ++ [c] /\ isdigit c = true.
Proof.
  destruct (str_of_int_shape z) as (sign & digits & -> & _ & Hn & Hd).
  destruct (exists_last Hn) as (t & c & ->).
  exists (sign ++ t), c. split; [now rewrite app_assoc|].
  apply Forall_app in Hd as [_ Hd]. now inversion Hd.
Qed.

(* ===================================================================== *)
(** ** The expected keys                                                  *)
(* ===================================================================== *)

(** The keys depend on the names through the suffix, the short name and
    the test for ["power"] only. *)
Lemma expected_keys_congruence engine_id engine_id' group logic_name logic_name' :
  get_suffix engine_id group logic_name = get_suffix engine_id' group logic_name' ->
  get_short engine_id logic_name = get_short engine_id' logic_name' ->
  Py.eqb (lower logic_name) (lit "power") = Py.eqb (lower logic_name') (lit "power") ->
  generate_expected_set_keys engine_id group logic_name
  = generate_expected_set_keys engine_id' group logic_name'.
Proof.
  intros Hs Hh Hp. unfold generate_expected_set_keys. now rewrite Hs, Hh, Hp.
Qed.

(** The keys of a logic are those of the same logic taken as a Power
    logic, and the two start-level and last-lot keys when it is no Power
    logic. *)
Lemma in_expected_keys engine_id group logic_name k :
  In k (generate_expected_set_keys engine_id group logic_name)
  <-> In k (firstn 31 (generate_expected_set_keys engine_id group logic_name))
      \/ (Py.eqb (lower logic_name) (lit "power") = false
          /\ (k = lit "gInput_StartLevel_" ++ get_suffix engine_id group logic_name
              \/ k = lit "gInput_LastLot_" ++ get_suffix engine_id group logic_name))
      \/ (group = 1%Z
          /\ (k = lit "gInput_G1_TriggerType_" ++ get_short engine_id logic_name
              \/ k = lit "gInput_G1_TriggerBars_" ++ get_short engine_id logic_name
              \/ k = lit "gInput_G1_TriggerMinutes_" ++ get_short engine_id logic_name)).
Proof.
  unfold generate_expected_set_keys. cbv zeta.
  match goal with
  | |- context [if negb _ then ?b ++ _ else _] => set (base := b)
  end.
  assert (Hb : length base = 31%nat) by reflexivity.
  destruct (Py.eqb (lower logic_name) (lit "power")); cbn [negb];
    destruct (Z.eqb_spec group 1) as [Hg|Hg];
    rewrite ?firstn_app, ?Hb, ?Nat.sub_diag, ?firstn_all2 by lia;
    cbn [firstn Nat.sub]; rewrite ?app_nil_r, ?in_app_iff; cbn [In];
    intuition congruence.
Qed.

(** *** The two key forms *)

Lemma suffix_form_intro (field suffix : str) :
  field <> [] ->
  suffix_form suffix (lit "gInput_" ++ field ++ lit "_" ++ suffix) = true.
Proof.
  intros Hf. unfold suffix_form. cbv zeta.
  rewrite startswith_app.
  replace (lit "gInput_" ++ field ++ lit "_" ++ suffix)
    with ((lit "gInput_" ++ field) ++ lit "_" ++ suffix) by now rewrite <- app_assoc.
  rewrite endswith_app. cbn [andb]. apply Nat.ltb_lt.
  rewrite !length_app. destruct field; [congruence|]. simpl. lia.
Qed.

Lemma group_qualified_form_intro (group : Z) (field short : str) :
  field <> [] ->
  group_qualified_form group short
    (lit "gInput_G" ++ str_of_int group ++ lit "_" ++ field ++ lit "_" ++ short) = true.
Proof.
  intros Hf. unfold group_qualified_form. cbv zeta.
  replace (lit "gInput_G" ++ str_of_int group ++ lit "_" ++ field ++ lit "_" ++ short)
    with ((lit "gInput_G" ++ str_of_int group ++ lit "_") ++ field ++ lit "_" ++ short)
    by now rewrite <- !app_assoc.
  rewrite startswith_app.
  replace ((lit "gInput_G" ++ str_of_int group ++ lit "_") ++ field ++ lit "_" ++ short)
    with (((lit "gInput_G" ++ str_of_int group ++ lit "_") ++ field) ++ lit "_" ++ short)
    by now rewrite <- !app_assoc.
  rewrite endswith_app. cbn [andb]. apply Nat.ltb_lt.
  rewrite !length_app. destruct field; [congruence|]. simpl. lia.
Qed.

(** The last character of a string that ends with a non-empty one. *)
Lemma endswith_last (p s : str) (c : N) :
  endswith (p ++ [c]) s = true -> exists t, s = t ++ [c].
Proof.
  intros [t ->]%endswith_spec. exists (t ++ p). now rewrite <- app_assoc.
Qed.

Lemma app_last_inj {A : Type} (s t : list A) (a b : A) :
  s ++ [a] = t ++ [b] -> a = b.
Proof. intros H. now apply app_inj_tail in H. Qed.

Lemma get_short_capitals engine_id logic_name :
  Forall (fun c => capital c = true) (get_short engine_id logic_name)
  /\ get_short engine_id logic_name <> [].
Proof.
  unfold get_short.
  pose proof (logic_abbrev_cases logic_name) as H. cbn [map In] in H.
  destruct (engine_prefix_cases engine_id) as [-> | [-> | ->]];
    repeat (destruct H as [<- | H]; [split; [repeat constructor | discriminate] |]);
    destruct H.
Qed.

Lemma get_short_last engine_id logic_name :
  exists t c, get_short engine_id logic_name = t ++ [c] /\ capital c = true.
Proof.
  destruct (get_short_capitals engine_id logic_name) as [Hc Hn].
  destruct (exists_last Hn) as (t & c & E). exists t, c. split; [assumption|].
  rewrite E in Hc. apply Forall_app in Hc as [_ Hc]. now inversion Hc.
Qed.

(** A key that ends in a small letter does not end with the short name,
    and one that ends in a letter does not end with the suffix. *)
Lemma not_endswith_short engine_id logic_name (s : str) (c : N) :
  capital c = false ->
  endswith (lit "_" ++ get_short engine_id logic_name) (s ++ [c]) = false.
Proof.
  intros Hc. destruct (get_short_last engine_id logic_name) as (t & x & -> & Hx).
  destruct (endswith _ _) eqn:E; [|reflexivity].
  rewrite app_assoc in E. apply endswith_last in E as [u Hu].
  apply app_last_inj in Hu. congruence.
Qed.

Lemma get_suffix_last engine_id group logic_name :
  exists t c, get_suffix engine_id group logic_name = t ++ [c] /\ isdigit c = true.
Proof.
  unfold get_suffix. destruct (str_of_int_last group) as (t & c & -> & Hc).
  exists (dict_get ENGINE_PREFIXES engine_id (lit "")
          ++ dict_get LOGIC_ABBREVIATIONS logic_name (lit "P") ++ t), c.
  split; [now rewrite <- !app_assoc | assumption].
Qed.

Lemma not_endswith_suffix engine_id group logic_name (s : str) (c : N) :
  isdigit c = false ->
  endswith (lit "_" ++ get_suffix engine_id group logic_name) (s ++ [c]) = false.
Proof.
  intros Hc. destruct (get_suffix_last engine_id group logic_name) as (t & x & -> & Hx).
  destruct (endswith _ _) eqn:E; [|reflexivity].
  rewrite app_assoc in E. apply endswith_last in E as [u Hu].
  apply app_last_inj in Hu. congruence.
Qed.

(** A group-level key is not of the group-qualified form: after
    [gInput_G] comes [roup], not the group number. *)
Lemma group_level_not_qualified (group : Z) (short rest : str) :
  group_qualified_form group short (lit "gInput_Group" ++ rest) = false.
Proof.
  unfold group_qualified_form. cbv zeta.
  destruct (str_of_int_head group) as (c & t & -> & Hc).
  replace (startswith (lit "gInput_G" ++ (c :: t) ++ lit "_") (lit "gInput_Group" ++ rest))
    with false; [reflexivity|].
  eval_lits. cbn. destruct (N.eqb_spec c 114) as [->|_]; [discriminate Hc | reflexivity].
Qed.

Lemma reverse_hedge_not_qualified engine_id logic_name group (mid tail : str) (c : N) :
  capital c = false ->
  group_qualified_form group (get_short engine_id logic_name)
    (lit "gInput_G" ++ str_of_int group ++ mid
     ++ get_short engine_id logic_name ++ tail ++ [c]) = false.
Proof.
  intros Hc. unfold group_qualified_form. cbv zeta.
  replace (lit "gInput_G" ++ str_of_int group ++ mid
           ++ get_short engine_id logic_name ++ tail ++ [c])
    with ((lit "gInput_G" ++ str_of_int group ++ mid
           ++ get_short engine_id logic_name ++ tail) ++ [c])
    by now rewrite <- !app_assoc.
  rewrite (not_endswith_short _ _ _ _ Hc). now rewrite andb_false_r.
Qed.

Lemma order_count_not_suffix engine_id group logic_name (tail : str) (c : N) :
  isdigit c = false ->
  suffix_form (get_suffix engine_id group logic_name)
    (lit "gInput_" ++ get_suffix engine_id group logic_name ++ tail ++ [c]) = false.
Proof.
  intros Hc. unfold suffix_form. cbv zeta.
  replace (lit "gInput_" ++ get_suffix engine_id group logic_name ++ tail ++ [c])
    with ((lit "gInput_" ++ get_suffix engine_id group logic_name ++ tail) ++ [c])
    by now rewrite <- !app_assoc.
  rewrite (not_endswith_suffix _ _ _ _ _ Hc). now rewrite andb_false_r.
Qed.

Lemma group_level_prefix (group : Z) (field : str) :
  startswith (lit "gInput_Group" ++ str_of_int group ++ lit "_")
    (lit "gInput_Group" ++ str_of_int group ++ lit "_" ++ field) = true.
Proof.
  apply startswith_spec. exists field. now rewrite <- !app_assoc.
Qed.

Lemma slice_firstn {A : Type} (a b n : nat) (l : list A) :
  (b <= n)%nat -> slice a b l = slice a b (firstn n l).
Proof.
  intros Hb. unfold slice. rewrite skipn_firstn_comm, firstn_firstn.
  f_equal. lia.
Qed.

(** The first 31 keys, by naming template and field name. *)
Lemma expected_keys_base engine_id group logic_name :
  let suffix := get_suffix engine_id group logic_name in
  let short := get_short engine_id logic_name in
  let g := str_of_int group in
  firstn 31 (generate_expected_set_keys engine_id group logic_name)
  = map (fun f => lit "gInput_" ++ f ++ lit "_" ++ suffix)
      (map lit ["Initial_loT"; "Mult"; "Grid"; "Trail"; "TrailValue"; "Trail_Start";
                "TrailStep"; "TrailStepMethod"; "TrailStepMode"; "TrailStepCycle";
                "TrailStepBalance"; "CloseTargets"]%string)
    ++ [lit "gInput_" ++ suffix ++ lit "_OrderCountReference"]
    ++ map (fun f => lit "gInput_" ++ f ++ lit "_" ++ suffix)
         (map lit ["ResetLotOnRestart"]%string)
    ++ map (fun f => lit "gInput_G" ++ g ++ lit "_" ++ f ++ lit "_" ++ short)
         (map lit ["UseTP"; "TP_Mode"; "TP_Value"; "UseSL"; "SL_Mode"; "SL_Value"]%string)
    ++ [ lit "gInput_G" ++ g ++ lit "_" ++ short ++ lit "_ReverseEnabled";
         lit "gInput_G" ++ g ++ lit "_" ++ short ++ lit "_HedgeEnabled";
         lit "gInput_G" ++ g ++ lit "_Scale_" ++ short ++ lit "_Reverse";
         lit "gInput_G" ++ g ++ lit "_Scale_" ++ short ++ lit "_Hedge";
         lit "gInput_G" ++ g ++ lit "_" ++ short ++ lit "_ReverseReference";
         lit "gInput_G" ++ g ++ lit "_" ++ short ++ lit "_HedgeReference" ]
    ++ map (fun f => lit "gInput_" ++ f ++ lit "_" ++ suffix)
         (map lit ["ClosePartial"; "ClosePartialCycle"; "ClosePartialMode";
                   "ClosePartialBalance"; "ClosePartialTrailStepMode"]%string).
Proof.
  cbv zeta. unfold generate_expected_set_keys. cbv zeta.
  destruct (negb (Py.eqb (lower logic_name) (lit "power")));
    destruct (group =? 1)%Z; cbn [firstn app map]; reflexivity.
Qed.

(** The keys after them. *)
Lemma expected_keys_rest engine_id group logic_name :
  let suffix := get_suffix engine_id group logic_name in
  let short := get_short engine_id logic_name in
  skipn 31 (generate_expected_set_keys engine_id group logic_name)
  = (if negb (Py.eqb (lower logic_name) (lit "power"))
     then map (fun f => lit "gInput_" ++ f ++ lit "_" ++ suffix)
            (map lit ["StartLevel"; "LastLot"]%string)
     else [])
    ++ (if (group =? 1)%Z
        then map (fun f => lit "gInput_G" ++ str_of_int 1 ++ lit "_" ++ f ++ lit "_" ++ short)
               (map lit ["TriggerType"; "TriggerBars"; "TriggerMinutes"]%string)
        else []).
Proof.
  cbv zeta. unfold generate_expected_set_keys. cbv zeta.
  destruct (negb (Py.eqb (lower logic_name) (lit "power")));
    destruct (group =? 1)%Z; cbn [skipn app map]; reflexivity.
Qed.

Lemma nonempty_fields (names : list string) :
  forallb (fun s => negb (bool_decide (lit s = []))) names = true ->
  Forall (fun f => f <> []) (map lit names).
Proof.
  intros H. apply Forall_map. apply Forall_forall. intros s Hs.
  rewrite forallb_forall in H. specialize (H s).
  apply negb_true_iff, bool_decide_eq_false in H; [assumption|].
  now apply list_elem_of_In.
Qed.

Lemma Forall_suffix_form (suffix : str) (fields : list str) :
  Forall (fun f => f <> []) fields ->
  Forall (fun k => suffix_form suffix k = true)
    (map (fun f => lit "gInput_" ++ f ++ lit "_" ++ suffix) fields).
Proof.
  intros H. apply Forall_map. eapply Forall_impl; [exact H|].
  intros f Hf. now apply suffix_form_intro.
Qed.

Lemma Forall_group_qualified_form (group : Z) (short : str) (fields : list str) :
  Forall (fun f => f <> []) fields ->
  Forall (fun k => group_qualified_form group short k = true)
    (map (fun f => lit "gInput_G" ++ str_of_int group ++ lit "_" ++ f ++ lit "_" ++ short)
       fields).
Proof.
  intros H. apply Forall_map. eapply Forall_impl; [exact H|].
  intros f Hf. now apply group_qualified_form_intro.
Qed.

Lemma canonical_not_power (s : str) :
  In s canonical_logics -> s <> lit "Power" ->
  Py.eqb (lower s) (lit "power") = false.
Proof.
  unfold canonical_logics. cbn [map In]. intros H Hs.
  repeat (destruct H as [<- | H]; [first [congruence | vm_compute; reflexivity] |]).
  destruct H.
Qed.

Lemma unknown_logic_abbreviation (logic_name : str) :
  ~ In logic_name canonical_logics ->
  dict_get LOGIC_ABBREVIATIONS logic_name (lit "P") = lit "P".
Proof.
  rewrite canonical_logics_keys, <- assoc_None_in. unfold dict_get. now intros ->.
Qed.

Lemma unknown_engine_prefix (engine_id : str) :
  ~ In engine_id expected_engines ->
  dict_get ENGINE_PREFIXES engine_id (lit "") = lit "".
Proof.
  rewrite expected_engines_keys, <- assoc_None_in. unfold dict_get. now intros ->.
Qed.

Lemma in_expected_keys_nonpower engine_id group logic_name :
  Py.eqb (lower logic_name) (lit "power") = false ->
  In (lit "gInput_StartLevel_" ++ get_suffix engine_id group logic_name)
    (generate_expected_set_keys engine_id group logic_name)
  /\ In (lit "gInput_LastLot_" ++ get_suffix engine_id group logic_name)
       (generate_expected_set_keys engine_id group logic_name).
Proof.
  intros H. split; apply in_expected_keys; right; left; auto.
Qed.

(* ===================================================================== *)
(** ** The structural walk as a function of the document                  *)
(* ===================================================================== *)

Lemma bind_Ok {A B : Type} (m : M A) (k : A -> M B) r a r' :
  m r = Ok (a, r') -> (m ≫= k) r = k a r'.
Proof. intros H. unfold mbind, M_bind, bind. now rewrite H. Qed.

Lemma bind_Raise {A B : Type} (m : M A) (k : A -> M B) r e :
  m r = Raise e -> (m ≫= k) r = Raise e.
Proof. intros H. unfold mbind, M_bind, bind. now rewrite H. Qed.

Lemma bind_lift_Ok {A B : Type} (a : A) (k : A -> M B) r :
  (lift (Ok a) ≫= k) r = k a r.
Proof. reflexivity. Qed.

Lemma report_app_nil r : Report (errors r ++ []) (warnings r ++ []) = r.
Proof. destruct r; simpl. now rewrite !app_nil_r. Qed.

Lemma require_obj d k m r :
  require (JObj d) k m r
  = Ok (tt, Report (errors r ++ missing (JObj d) k m) (warnings r)).
Proof.
  unfold require, missing, lacks. simpl py_has.
  rewrite bind_lift_Ok. unfold when, append_error, ret.
  destruct (assoc d k) eqn:E.
  - rewrite bool_decide_eq_true_2 by eauto.
    rewrite bool_decide_eq_false_2 by discriminate.
    simpl. rewrite app_nil_r. now destruct r.
  - rewrite bool_decide_eq_false_2 by (intros [? ?]; discriminate).
    rewrite bool_decide_eq_true_2 by reflexivity. reflexivity.
Qed.

Lemma for_each_behaves {A : Type} (body : A -> M unit) ok E W :
  behaves body ok E W ->
  forall l, behaves (fun _ : unit => for_each l body)
              (fun _ => forallb ok l) (fun _ => flat_map E l) (fun _ => flat_map W l).
Proof.
  intros Hb l. induction l as [|x l IH]; intros [] r; simpl.
  - unfold ret. now rewrite report_app_nil.
  - specialize (Hb x r). destruct (ok x); simpl.
    + rewrite (bind_Ok _ _ _ _ _ Hb).
      specialize (IH tt (Report (errors r ++ E x) (warnings r ++ W x))).
      simpl in IH. destruct (forallb ok l).
      * rewrite IH. simpl. now rewrite <- !app_assoc.
      * exact IH.
    + destruct Hb as [e He]. exists e. now apply bind_Raise.
Qed.

Lemma for_each_Ok {A : Type} (body : A -> M unit) ok E W l r :
  behaves body ok E W -> forallb ok l = true ->
  for_each l body r
  = Ok (tt, Report (errors r ++ flat_map E l) (warnings r ++ flat_map W l)).
Proof.
  intros Hb Hl. pose proof (for_each_behaves body ok E W Hb l tt r) as H.
  simpl in H. now rewrite Hl in H.
Qed.

Lemma for_each_Raise {A : Type} (body : A -> M unit) ok E W l r :
  behaves body ok E W -> forallb ok l = false ->
  exists e, for_each l body r = Raise e.
Proof.
  intros Hb Hl. pose proof (for_each_behaves body ok E W Hb l tt r) as H.
  simpl in H. now rewrite Hl in H.
Qed.

Lemma require_behaves d (m : str -> msg) :
  behaves (fun f => require (JObj d) f (m f)) (fun _ => true)
    (fun f => missing (JObj d) f (m f)) (fun _ => []).
Proof.
  intros f r. simpl. rewrite require_obj. now rewrite app_nil_r.
Qed.

Lemma flat_map_nil {A B : Type} (l : list A) :
  flat_map (fun _ : A => @nil B) l = [].
Proof. induction l; simpl; auto. Qed.

Lemma bind_require {B : Type} d k m (K : unit -> M B) r :
  (require (JObj d) k m ≫= K) r
  = K tt (Report (errors r ++ missing (JObj d) k m) (warnings r)).
Proof. apply bind_Ok, require_obj. Qed.

Lemma bind_when_false {B : Type} (m : M unit) (K : unit -> M B) r :
  (when false m ≫= K) r = K tt r.
Proof. reflexivity. Qed.

Lemma bind_when_true {B : Type} (m : M unit) (K : unit -> M B) r :
  (when true m ≫= K) r = (m ≫= K) r.
Proof. reflexivity. Qed.

Lemma bind_bind {A B C : Type} (m : M A) (k : A -> M B) (K : B -> M C) r :
  ((m ≫= k) ≫= K) r = (m ≫= (fun a => k a ≫= K)) r.
Proof.
  unfold mbind, M_bind, bind. destruct (m r) as [[a r']|e]; reflexivity.
Qed.

Lemma bind_append_warning {B : Type} m (K : unit -> M B) r :
  (append_warning m ≫= K) r = K tt (Report (errors r) (warnings r ++ [m])).
Proof. reflexivity. Qed.

Lemma report_eta r : Report (errors r) (warnings r) = r.
Proof. now destruct r. Qed.

Lemma logic_body_behaves engine_id g_num :
  behaves (logic_body engine_id g_num) logic_ok
    (logic_errors engine_id g_num) (fun _ => []).
Proof.
  intros logic r. unfold logic_ok, logic_body.
  destruct logic as [| | | | |l|d]; simpl is_obj; cbn [andb];
    try (eexists; reflexivity).
  simpl py_get. rewrite bind_lift_Ok.
  change (dict_get d (lit "logic_name") (JStr (lit "Unknown")))
    with (name_of (JObj d)).
  erewrite bind_Ok; cycle 1.
  { apply (for_each_Ok _ _ _ _ _ _ (require_behaves d _)).
    apply forallb_forall. reflexivity. }
  destruct (name_of (JObj d)) as [| | | |s| |] eqn:En; simpl is_str;
    try (eexists; reflexivity).
  simpl py_lower. rewrite bind_lift_Ok.
  unfold logic_errors, named_power. rewrite En, flat_map_nil.
  destruct (negb (Py.eqb (lower s) (lit "power"))).
  - rewrite bind_when_true, bind_bind, bind_require, bind_require.
    destruct (py_eq_int g_num 1); unfold when.
    + rewrite bind_require, bind_require, require_obj. simpl.
      now rewrite <- !app_assoc.
    + unfold ret. simpl. now rewrite <- !app_assoc, !app_nil_r.
  - rewrite bind_when_false.
    destruct (py_eq_int g_num 1); unfold when.
    + rewrite bind_require, bind_require, require_obj. simpl.
      now rewrite <- !app_assoc.
    + unfold ret. simpl. now rewrite !app_nil_r.
Qed.

Lemma sized_items v : sized v = true -> py_iter v = Ok (items v).
Proof. unfold items. destruct v; simpl; (discriminate || reflexivity). Qed.

Lemma sized_len v : sized v = true -> py_len v = Ok (count v).
Proof.
  unfold count, items. destruct v; simpl; try discriminate; intros _;
    now rewrite ?length_map.
Qed.

Lemma unsized_len v : sized v = false -> py_len v = Raise TypeError.
Proof. destruct v; simpl; (discriminate || reflexivity). Qed.

Lemma group_body_behaves engine_id :
  behaves (group_body engine_id) group_ok
    (group_errors engine_id) (group_warnings engine_id).
Proof.
  intros group r. unfold group_ok, group_body.
  destruct group as [| | | | |l|d]; simpl is_obj; cbn [andb];
    try (eexists; reflexivity).
  simpl py_get. rewrite !bind_lift_Ok.
  change (dict_get d (lit "group_number") JNull) with (number_of (JObj d)).
  erewrite bind_Ok; cycle 1.
  { apply (for_each_Ok _ _ _ _ _ _ (require_behaves d _)).
    apply forallb_forall. reflexivity. }
  rewrite bind_lift_Ok.
  unfold logics_of, group_errors, group_warnings, logics_of. simpl field.
  set (logics := dict_get d (lit "logics") (JArr [])).
  destruct (sized logics) eqn:Es; cbn [andb].
  2:{ rewrite (unsized_len _ Es). eexists; reflexivity. }
  rewrite (sized_len _ Es), bind_lift_Ok, (sized_items _ Es).
  rewrite flat_map_nil, app_nil_r.
  pose proof (logic_body_behaves engine_id (number_of (JObj d))) as Hb.
  destruct (negb (count logics =? 7)%Z); unfold when.
  - rewrite bind_append_warning, bind_lift_Ok. cbn [errors warnings].
    destruct (forallb logic_ok (items logics)) eqn:El.
    + rewrite (for_each_Ok _ _ _ _ _ _ Hb El). cbn [errors warnings].
      now rewrite flat_map_nil, app_nil_r, <- !app_assoc.
    + apply (for_each_Raise _ _ _ _ _ _ Hb El).
  - change ((ret () ≫= ?K) ?r) with (K tt r). cbv beta.
    rewrite bind_lift_Ok.
    destruct (forallb logic_ok (items logics)) eqn:El.
    + rewrite (for_each_Ok _ _ _ _ _ _ Hb El). cbn [errors warnings].
      now rewrite flat_map_nil, !app_nil_r, <- !app_assoc.
    + apply (for_each_Raise _ _ _ _ _ _ Hb El).
Qed.

Lemma engine_body_behaves :
  behaves engine_body engine_ok engine_errors engine_warnings.
Proof.
  intros engine r. unfold engine_ok, engine_body.
  destruct engine as [| | | | |l|d]; simpl is_obj; cbn [andb];
    try (eexists; reflexivity).
  simpl py_get. rewrite !bind_lift_Ok.
  unfold engine_errors, engine_warnings, groups_of, id_of. simpl field.
  set (engine_id := dict_get d (lit "engine_id") JNull).
  set (groups := dict_get d (lit "groups") (JArr [])).
  set (W1 := if negb (py_in_strs engine_id expected_engines)
             then [msg_unexpected_engine engine_id] else []).
  assert (H1 : forall (K : unit -> M unit) r,
             (when (negb (py_in_strs engine_id expected_engines))
                (append_warning (msg_unexpected_engine engine_id)) ≫= K) r
             = K tt (Report (errors r) (warnings r ++ W1))).
  { intros K r0. subst W1.
    destruct (negb (py_in_strs engine_id expected_engines)); unfold when.
    - apply bind_append_warning.
    - change ((ret () ≫= K) r0) with (K tt r0).
      now rewrite app_nil_r, report_eta. }
  rewrite H1, bind_lift_Ok. clear H1.
  destruct (sized groups) eqn:Es; cbn [andb].
  2:{ rewrite (unsized_len _ Es). eexists; reflexivity. }
  rewrite (sized_len _ Es), bind_lift_Ok, (sized_items _ Es).
  set (W2 := if negb (count groups =? 20)%Z
             then [msg_group_count engine_id (count groups)] else []).
  assert (H2 : forall (K : unit -> M unit) r,
             (when (negb (count groups =? 20)%Z)
                (append_warning (msg_group_count engine_id (count groups))) ≫= K) r
             = K tt (Report (errors r) (warnings r ++ W2))).
  { intros K r0. subst W2.
    destruct (negb (count groups =? 20)%Z); unfold when.
    - apply bind_append_warning.
    - change ((ret () ≫= K) r0) with (K tt r0).
      now rewrite app_nil_r, report_eta. }
  rewrite H2, bind_lift_Ok. clear H2. cbn [errors warnings].
  pose proof (group_body_behaves engine_id) as Hb.
  destruct (forallb group_ok (items groups)) eqn:El.
  - rewrite (for_each_Ok _ _ _ _ _ _ Hb El). cbn [errors warnings].
    now rewrite <- !app_assoc.
  - apply (for_each_Raise _ _ _ _ _ _ Hb El).
Qed.

(** On a well-shaped document the validator returns, and what it returns
    is [doc_errors] and [doc_warnings]. *)
Lemma validate_well_shaped data :
  well_shaped data = true ->
  validate_json_structure data = Ok (doc_errors data, doc_warnings data).
Proof.
  unfold well_shaped, validate_json_structure, doc_errors, doc_warnings, engines_of.
  destruct data as [| | | | |l|d]; simpl is_obj; cbn [andb]; try discriminate.
  simpl py_get. simpl field. rewrite bind_lift_Ok.
  set (engines := dict_get d (lit "engines") (JArr [])).
  destruct (truthy engines); cbn [negb orb].
  - intros [Hs Hl]%andb_true_iff.
    rewrite (sized_items _ Hs), bind_lift_Ok.
    now rewrite (for_each_Ok _ _ _ _ _ _ engine_body_behaves Hl).
  - reflexivity.
Qed.

(** On any other document it raises. *)
Lemma validate_ill_shaped data :
  well_shaped data = false ->
  exists e, validate_json_structure data = Raise e.
Proof.
  unfold well_shaped, validate_json_structure, engines_of.
  destruct data as [| | | | |l|d]; simpl is_obj; cbn [andb];
    try (intros _; eexists; reflexivity).
  simpl py_get. simpl field. rewrite bind_lift_Ok.
  set (engines := dict_get d (lit "engines") (JArr [])).
  destruct (truthy engines) eqn:Et; cbn [negb orb]; [|discriminate].
  destruct (sized engines) eqn:Es; cbn [andb].
  - intros Hl. rewrite (sized_items _ Es), bind_lift_Ok.
    destruct (for_each_Raise _ _ _ _ (items engines) (Report [] [])
                engine_body_behaves Hl) as [e He].
    exists e. now rewrite He.
  - intros _. exists TypeError.
    destruct engines; simpl in Es; try discriminate; reflexivity.
Qed.

Lemma validate_Ok_iff data E W :
  validate_json_structure data = Ok (E, W)
  <-> well_shaped data = true /\ E = doc_errors data /\ W = doc_warnings data.
Proof.
  split.
  - intros H. destruct (well_shaped data) eqn:Hw.
    + rewrite (validate_well_shaped _ Hw) in H. injection H as <- <-. auto.
    + destruct (validate_ill_shaped _ Hw) as [e He]. congruence.
  - intros (Hw & -> & ->). now apply validate_well_shaped.
Qed.

(** *** Which messages the reports hold *)

Lemma in_missing v k m x :
  In x (missing v k m) <-> lacks v k = true /\ x = m.
Proof.
  unfold missing. destruct (lacks v k); simpl.
  - split; [intros [<-|[]]; auto | intros [_ ->]; auto].
  - split; [intros [] | intros [? _]; discriminate].
Qed.

Lemma in_missing_fields v (m : str -> msg) fields x :
  In x (flat_map (fun f => missing v f (m f)) fields)
  <-> exists f, In f fields /\ lacks v f = true /\ x = m f.
Proof.
  rewrite in_flat_map. split.
  - intros (f & Hf & Hx). apply in_missing in Hx. eauto.
  - intros (f & Hf & Hl & ->). exists f. split; [assumption|]. now apply in_missing.
Qed.

Lemma in_logic_errors engine_id g_num logic m :
  In m (logic_errors engine_id g_num logic)
  <-> (exists f, In f REQUIRED_LOGIC_FIELDS /\ lacks logic f = true
                 /\ m = msg_logic_field engine_id g_num (name_of logic) f)
      \/ (named_power logic = false
          /\ (lacks logic (lit "start_level") = true
              /\ m = msg_start_level engine_id g_num (name_of logic)
              \/ lacks logic (lit "last_lot") = true
                 /\ m = msg_last_lot engine_id g_num (name_of logic)))
      \/ (py_eq_int g_num 1 = true
          /\ (lacks logic (lit "trigger_type") = true
              /\ m = msg_trigger_type engine_id (name_of logic)
              \/ lacks logic (lit "trigger_bars") = true
                 /\ m = msg_trigger_bars engine_id (name_of logic)
              \/ lacks logic (lit "trigger_minutes") = true
                 /\ m = msg_trigger_minutes engine_id (name_of logic))).
Proof.
  unfold logic_errors. cbv zeta.
  rewrite !in_app_iff, in_missing_fields.
  destruct (named_power logic), (py_eq_int g_num 1); cbn [negb];
    rewrite ?in_app_iff, ?in_missing; simpl In; intuition congruence.
Qed.

Lemma in_group_errors engine_id group m :
  In m (group_errors engine_id group)
  <-> (exists f, In f REQUIRED_GROUP_FIELDS /\ lacks group f = true
                 /\ m = msg_group_field engine_id (number_of group) f)
      \/ (exists logic, In logic (logics_of group)
                        /\ In m (logic_errors engine_id (number_of group) logic)).
Proof.
  unfold group_errors. now rewrite in_app_iff, in_missing_fields, in_flat_map.
Qed.

Lemma items_truthy v x : In x (items v) -> truthy v = true.
Proof.
  unfold items. destruct v as [| | | |s|l|d]; simpl; try tauto.
  - destruct s; [intros [] | reflexivity].
  - destruct l; [intros [] | reflexivity].
  - destruct d; [intros [] | reflexivity].
Qed.

Lemma falsy_no_engines data :
  truthy (field data (lit "engines") (JArr [])) = false -> engines_of data = [].
Proof.
  unfold engines_of. intros H.
  destruct (items (field data (lit "engines") (JArr []))) as [|x l] eqn:E;
    [reflexivity|].
  rewrite (items_truthy _ x) in H; [discriminate|]. rewrite E. now left.
Qed.

Lemma in_doc_errors data m :
  In m (doc_errors data)
  <-> (truthy (field data (lit "engines") (JArr [])) = false /\ m = msg_no_engines)
      \/ (exists engine group,
             In engine (engines_of data) /\ In group (groups_of engine)
             /\ In m (group_errors (id_of engine) group)).
Proof.
  unfold doc_errors.
  destruct (truthy (field data (lit "engines") (JArr []))) eqn:Et.
  - rewrite in_flat_map. unfold engine_errors. split.
    + intros (engine & He & (group & Hg & Hm)%in_flat_map). right. eauto.
    + intros [[? _]|(engine & group & He & Hg & Hm)]; [discriminate|].
      exists engine. split; [assumption|]. apply in_flat_map. eauto.
  - rewrite (falsy_no_engines _ Et). simpl. split.
    + intros [<-|[]]. now left.
    + intros [[_ ->]|(engine & _ & [] & _)]. now left.
Qed.

Lemma in_doc_warnings data m :
  In m (doc_warnings data)
  <-> exists engine,
        In engine (engines_of data)
        /\ (py_in_strs (id_of engine) expected_engines = false
            /\ m = msg_unexpected_engine (id_of engine)
            \/ (count (field engine (lit "groups") (JArr [])) =? 20)%Z = false
               /\ m = msg_group_count (id_of engine)
                        (count (field engine (lit "groups") (JArr [])))
            \/ exists group,
                 In group (groups_of engine)
                 /\ (count (field group (lit "logics") (JArr [])) =? 7)%Z = false
                 /\ m = msg_logic_count (id_of engine) (number_of group)
                          (count (field group (lit "logics") (JArr [])))).
Proof.
  unfold doc_warnings.
  destruct (truthy (field data (lit "engines") (JArr []))) eqn:Et.
  - rewrite in_flat_map. apply exist_proper. intros engine.
    apply and_iff_compat_l. unfold engine_warnings. cbv zeta.
    rewrite !in_app_iff.
    assert (H1 : forall (b : bool) (x : msg),
               In m (if negb b then [x] else []) <-> b = false /\ m = x).
    { intros [] x; simpl; intuition congruence. }
    rewrite !H1. clear H1.
    assert (H3 : In m (flat_map (group_warnings (id_of engine)) (groups_of engine))
                 <-> exists group,
                       In group (groups_of engine)
                       /\ (count (field group (lit "logics") (JArr [])) =? 7)%Z = false
                       /\ m = msg_logic_count (id_of engine) (number_of group)
                                (count (field group (lit "logics") (JArr [])))).
    { rewrite in_flat_map. apply exist_proper. intros group.
      apply and_iff_compat_l. unfold group_warnings. cbv zeta.
      destruct (_ =? 7)%Z; simpl; intuition congruence. }
    rewrite H3. tauto.
  - rewrite (falsy_no_engines _ Et). simpl. split; [intros [] | intros (? & [] & _)].
Qed.

Lemma sized_truthy_items v :
  sized v = true -> truthy v = true -> items v <> [].
Proof.
  unfold items. destruct v as [| | | |s|l|d]; simpl; try discriminate; intros _.
  - destruct s; [discriminate | intros _; discriminate].
  - destruct l; [discriminate | intros _; discriminate].
  - destruct d; [discriminate | intros _; discriminate].
Qed.

(** No error is the message about an unexpected engine identifier, and
    the message about missing engines is an error of the documents without
    engines only. *)
Lemma doc_errors_shape data m :
  In m (doc_errors data) ->
  (m = msg_no_engines /\ engines_of data = [])
  \/ (exists t, m = T (lit "Engine ") :: t).
Proof.
  intros [[Ht ->] | (engine & group & He & Hg & Hm)]%in_doc_errors.
  - left. split; [reflexivity | now apply falsy_no_engines].
  - right. apply in_group_errors in Hm.
    destruct Hm as [(f & _ & _ & ->) | (logic & _ & Hm)]; [eexists; reflexivity|].
    apply in_logic_errors in Hm.
    destruct Hm as [(f & _ & _ & ->) | [(_ & [[_ ->] | [_ ->]])
                                       | (_ & [[_ ->] | [[_ ->] | [_ ->]]])]];
      eexists; reflexivity.
Qed.

(* ===================================================================== *)
(** ** Which field a message is about                                     *)
(* ===================================================================== *)

Lemma about_logic_field engine_id g_num l_name x f :
  In x REQUIRED_LOGIC_FIELDS -> In f conditional_fields ->
  about f (msg_logic_field engine_id g_num l_name x) = false.
Proof.
  intros Hx Hf. unfold REQUIRED_LOGIC_FIELDS in Hx. unfold conditional_fields in Hf.
  cbn [map In] in Hx, Hf. split_in Hf; subst f; split_in Hx; subst x;
    vm_compute; reflexivity.
Qed.

Lemma about_group_field engine_id g_num x f :
  In x REQUIRED_GROUP_FIELDS -> In f conditional_fields ->
  about f (msg_group_field engine_id g_num x) = false.
Proof.
  intros Hx Hf. unfold REQUIRED_GROUP_FIELDS in Hx. unfold conditional_fields in Hf.
  cbn [map In] in Hx, Hf. split_in Hf; subst f; split_in Hx; subst x;
    vm_compute; reflexivity.
Qed.

(** An error of a logic that names a conditional field is the error of
    that field, raised under its condition. *)
Lemma conditional_error engine_id g_num logic m f :
  In f conditional_fields ->
  In m (logic_errors engine_id g_num logic) -> about f m = true ->
  (f = lit "start_level" /\ named_power logic = false
   /\ lacks logic (lit "start_level") = true
   /\ m = msg_start_level engine_id g_num (name_of logic))
  \/ (f = lit "last_lot" /\ named_power logic = false
      /\ lacks logic (lit "last_lot") = true
      /\ m = msg_last_lot engine_id g_num (name_of logic))
  \/ (f = lit "trigger_type" /\ py_eq_int g_num 1 = true
      /\ lacks logic (lit "trigger_type") = true
      /\ m = msg_trigger_type engine_id (name_of logic))
  \/ (f = lit "trigger_bars" /\ py_eq_int g_num 1 = true
      /\ lacks logic (lit "trigger_bars") = true
      /\ m = msg_trigger_bars engine_id (name_of logic))
  \/ (f = lit "trigger_minutes" /\ py_eq_int g_num 1 = true
      /\ lacks logic (lit "trigger_minutes") = true
      /\ m = msg_trigger_minutes engine_id (name_of logic)).
Proof.
  intros Hf Hm Ha. apply in_logic_errors in Hm.
  destruct Hm as [(x & Hx & _ & ->) | [(Hp & Hm) | (Hg & Hm)]].
  - now rewrite about_logic_field in Ha.
  - unfold conditional_fields in Hf. cbn [map In] in Hf.
    destruct Hm as [[Hl ->] | [Hl ->]]; split_in Hf; subst f;
      try (vm_compute in Ha; discriminate); tauto.
  - unfold conditional_fields in Hf. cbn [map In] in Hf.
    destruct Hm as [[Hl ->] | [[Hl ->] | [Hl ->]]]; split_in Hf; subst f;
      try (vm_compute in Ha; discriminate); tauto.
Qed.

(** An error of the document that names a conditional field is the error
    of some logic of the document. *)
Lemma conditional_error_path data m f :
  In f conditional_fields -> In m (doc_errors data) -> about f m = true ->
  exists engine group logic,
    on_path data engine group logic
    /\ In m (logic_errors (id_of engine) (number_of group) logic).
Proof.
  intros Hf Hm Ha. apply in_doc_errors in Hm.
  destruct Hm as [[_ ->] | (engine & group & He & Hg & Hm)].
  - unfold conditional_fields in Hf. cbn [map In] in Hf.
    split_in Hf; subst f; vm_compute in Ha; discriminate.
  - apply in_group_errors in Hm.
    destruct Hm as [(x & Hx & _ & ->) | (logic & Hl & Hm)].
    + now rewrite about_group_field in Ha.
    + exists engine, group, logic. unfold on_path. auto.
Qed.

Lemma logic_error_in_doc data engine group logic m :
  on_path data engine group logic ->
  In m (logic_errors (id_of engine) (number_of group) logic) ->
  In m (doc_errors data).
Proof.
  intros (He & Hg & Hl) Hm. apply in_doc_errors. right.
  exists engine, group. split; [assumption | split; [assumption|]].
  apply in_group_errors. right. eauto.
Qed.

(* ===================================================================== *)
(** ** The parity check as a function of the decoded mapping              *)
(* ===================================================================== *)

Lemma fold_left_app_acc {A B : Type} (f : A -> list B) (l : list A) (acc : list B) :
  fold_left (fun acc x => acc ++ f x) l acc = acc ++ flat_map f l.
Proof.
  revert acc. induction l as [|x l IH]; intros acc; simpl.
  - now rewrite app_nil_r.
  - now rewrite IH, app_assoc.
Qed.

Lemma check_keys_eq set_values what keys errs :
  check_keys set_values what keys errs
  = errs ++ missing_keys set_values what keys.
Proof.
  unfold check_keys, missing_keys.
  rewrite <- fold_left_app_acc. revert errs.
  induction keys as [|k keys IH]; intros errs; simpl; [reflexivity|].
  rewrite <- IH. destruct (bool_decide _); [reflexivity | now rewrite app_nil_r].
Qed.

Lemma fold_left_ext_acc {A S : Type} (f g : S -> A -> S) (l : list A) (s : S) :
  (forall s x, f s x = g s x) -> fold_left f l s = fold_left g l s.
Proof.
  intros H. revert s. induction l as [|x l IH]; intros s; simpl; [reflexivity|].
  now rewrite H, IH.
Qed.

Lemma check_parity_eq set_values errs :
  check_parity set_values errs = errs ++ missing_everywhere set_values.
Proof.
  unfold check_parity, missing_everywhere.
  rewrite <- fold_left_app_acc. apply fold_left_ext_acc. intros e1 engine_id.
  rewrite <- fold_left_app_acc. apply fold_left_ext_acc. intros e2 group.
  unfold missing_in_group. rewrite app_assoc, <- check_keys_eq.
  rewrite <- fold_left_app_acc. apply fold_left_ext_acc. intros e3 logic_name.
  apply check_keys_eq.
Qed.

Lemma validate_set_file_parity_eq fs set_file :
  validate_set_file_parity fs set_file
  = if bool_decide (parse_set_file fs set_file = ∅)
    then ([lit "Failed to parse .set file: " ++ set_file], [])
    else (missing_everywhere (parse_set_file fs set_file), []).
Proof.
  unfold validate_set_file_parity. destruct (bool_decide _); [reflexivity|].
  now rewrite check_parity_eq.
Qed.

Lemma in_missing_keys set_values what keys m :
  In m (missing_keys set_values what keys)
  <-> exists k, In k keys /\ set_values !! k = None /\ m = what ++ k.
Proof.
  unfold missing_keys. rewrite in_flat_map. split.
  - intros (k & Hk & Hm). exists k. destruct (bool_decide _) eqn:Hd.
    + apply bool_decide_eq_true in Hd. destruct Hm as [<-|[]]. auto.
    + destruct Hm.
  - intros (k & Hk & Hn & ->). exists k. split; [assumption|].
    rewrite bool_decide_eq_true_2 by assumption. now left.
Qed.

Lemma missing_keys_nil set_values what keys :
  missing_keys set_values what keys = []
  <-> forall k, In k keys -> is_Some (set_values !! k).
Proof.
  unfold missing_keys. induction keys as [|k keys IH]; simpl.
  - split; [intros _ k [] | reflexivity].
  - destruct (set_values !! k) eqn:E.
    + rewrite bool_decide_eq_false_2 by discriminate. simpl. rewrite IH.
      split.
      * intros H k' [<-|Hk']; [rewrite E; eauto | auto].
      * intros H k' Hk'. auto.
    + rewrite bool_decide_eq_true_2 by reflexivity. simpl. split; [discriminate|].
      intros H. destruct (H k (or_introl eq_refl)) as [v Hv]. congruence.
Qed.

Lemma flat_map_nil_iff {A B : Type} (f : A -> list B) (l : list A) :
  flat_map f l = [] <-> forall x, In x l -> f x = [].
Proof.
  induction l as [|x l IH]; simpl.
  - split; [intros _ x [] | reflexivity].
  - split.
    + intros [H1 H2]%app_eq_nil x' [<-|Hx]; [assumption|]. now apply IH.
    + intros H. rewrite (H x (or_introl eq_refl)). simpl. apply IH. auto.
Qed.

Lemma missing_everywhere_nil set_values :
  missing_everywhere set_values = []
  <-> forall k, In k all_expected_keys -> is_Some (set_values !! k).
Proof.
  unfold missing_everywhere, all_expected_keys, missing_in_group.
  rewrite flat_map_nil_iff. split.
  - intros H k (e & He & (g & Hg & Hk)%in_flat_map)%in_flat_map.
    specialize (H e He). rewrite flat_map_nil_iff in H. specialize (H g Hg).
    apply app_eq_nil in H as [H1 H2].
    apply in_app_or in Hk as [Hk | (l & Hl & Hk)%in_flat_map].
    + now apply (proj1 (missing_keys_nil _ _ _) H1).
    + rewrite flat_map_nil_iff in H2.
      now apply (proj1 (missing_keys_nil _ _ _) (H2 l Hl)).
  - intros H e He. apply flat_map_nil_iff. intros g Hg.
    assert (Hin : forall k,
               In k (generate_group_level_keys g
                     ++ flat_map (generate_expected_set_keys e g) canonical_logics) ->
               is_Some (set_values !! k)).
    { intros k Hk. apply H. apply in_flat_map. exists e. split; [assumption|].
      apply in_flat_map. exists g. split; assumption. }
    replace (missing_keys set_values (lit "Missing group key: ")
               (generate_group_level_keys g)) with (@nil str).
    + rewrite app_nil_l. apply flat_map_nil_iff. intros l Hl. apply missing_keys_nil.
      intros k Hk. apply Hin, in_or_app. right. apply in_flat_map. eauto.
    + symmetry. apply missing_keys_nil. intros k Hk. apply Hin, in_or_app. now left.
Qed.

Lemma in_missing_everywhere set_values engine_id group m :
  In engine_id expected_engines -> In group (range 1 21) ->
  In m (missing_in_group set_values engine_id group) ->
  In m (missing_everywhere set_values).
Proof.
  intros He Hg Hm. unfold missing_everywhere. apply in_flat_map.
  exists engine_id. split; [assumption|]. apply in_flat_map. eauto.
Qed.

(* ===================================================================== *)
(** ** The set-file parser                                                *)
(* ===================================================================== *)

Lemma split1_Some sep s a b :
  split1 sep s = Some (a, b) <-> s = a ++ sep :: b /\ ~ In sep a.
Proof.
  revert a b. induction s as [|c s IH]; intros a b; simpl.
  - split; [discriminate|]. intros [H _]. now destruct a.
  - destruct (N.eqb_spec c sep) as [->|Hne].
    + split.
      * intros [= <- <-]. split; [reflexivity | intros []].
      * intros [H Hn]. destruct a as [|x a]; simpl in H.
        -- now injection H as <-.
        -- injection H as <- _. exfalso. apply Hn. now left.
    + destruct (split1 sep s) as [[a' b']|].
      * split.
        -- intros [= <- <-]. destruct (proj1 (IH a' b') eq_refl) as [-> Hn].
           split; [reflexivity|]. intros [H|H]; [congruence | auto].
        -- intros [H Hn']. destruct a as [|x a]; simpl in H.
           ++ injection H as ->. congruence.
           ++ injection H as <- H.
              assert (Hs : Some (a', b') = Some (a, b)).
              { apply IH. split; [assumption|]. intros Hi. apply Hn'. now right. }
              now injection Hs as -> ->.
      * split; [discriminate|]. intros [H Hn'].
        destruct a as [|x a]; simpl in H.
        -- injection H as ->. congruence.
        -- injection H as <- H. exfalso.
           assert (Hs : @None (str * str) = Some (a, b)).
           { apply IH. split; [assumption|]. intros Hi. apply Hn'. now right. }
           discriminate.
Qed.

Lemma split1_None sep s : split1 sep s = None <-> ~ In sep s.
Proof.
  induction s as [|c s IH]; simpl; [tauto|].
  destruct (N.eqb_spec c sep) as [->|Hne].
  - split; [discriminate | intros H; exfalso; apply H; now left].
  - destruct (split1 sep s) as [[a b]|].
    + split; [discriminate|]. intros H. exfalso.
      assert (Hs : Some (a, b) = @None (str * str)).
      { apply IH. intros Hi. apply H. now right. }
      discriminate.
    + split; [|reflexivity]. intros _ [H|H]; [congruence|].
      now apply (proj1 IH eq_refl).
Qed.

Lemma line_entry_entry line k v :
  line_entry line = Some (k, v) <-> entry line k v.
Proof.
  unfold line_entry, entry. cbv zeta.
  destruct (bool_decide (strip line = [])) eqn:Ee; cbn [orb].
  - apply bool_decide_eq_true in Ee. split; [discriminate | tauto].
  - apply bool_decide_eq_false in Ee.
    destruct (startswith1 59 (strip line)) eqn:Es.
    + split; [discriminate | intros (_ & H & _); discriminate].
    + destruct (split1 61 (strip line)) as [[a b]|] eqn:E1.
      * apply split1_Some in E1 as [E1 Hn]. split.
        -- intros [= <- <-]. repeat split; try assumption.
           exists a, b. auto.
        -- intros (_ & _ & a' & b' & H & Hn' & -> & ->).
           assert (Hs : Some (a, b) = Some (a', b')).
           { rewrite <- (proj2 (split1_Some 61 (strip line) a b) (conj E1 Hn)).
             apply split1_Some. auto. }
           now injection Hs as -> ->.
      * split; [discriminate|]. intros (_ & _ & a & b & H & Hn & _).
        apply split1_None in E1. exfalso. apply E1. rewrite H.
        apply in_or_app. right. now left.
Qed.

Lemma parse_line_entry (values : gmap str str) line :
  parse_line values line
  = match line_entry line with
    | Some (k, v) => <[k := v]> values
    | None => values
    end.
Proof.
  unfold parse_line, line_entry. cbv zeta.
  destruct (_ || _); [reflexivity|].
  now destruct (split1 61 (strip line)) as [[a b]|].
Qed.

(** Last write wins: the value of a key is the one of the last line that
    has an entry for it, or the initial one when no line has. *)
Lemma parse_lines_lookup (lines : list str) (values : gmap str str) (k v : str) :
  fold_left parse_line lines values !! k = Some v
  <-> (exists i line,
          lines !! i = Some line /\ line_entry line = Some (k, v)
          /\ forall j line' v', (i < j)%nat -> lines !! j = Some line' ->
                                line_entry line' <> Some (k, v'))
      \/ (values !! k = Some v
          /\ forall j line' v', lines !! j = Some line' ->
                                line_entry line' <> Some (k, v')).
Proof.
  revert v. induction lines as [|l lines IH] using rev_ind; intros v.
  - simpl. split.
    + intros H. right. split; [assumption|]. intros j line' v' Hj. discriminate.
    + intros [(i & line & Hi & _)|[H _]]; [discriminate | assumption].
  - rewrite fold_left_app. simpl. rewrite parse_line_entry.
    destruct (line_entry l) as [[k' v']|] eqn:El.
    + destruct (decide (k' = k)) as [->|Hne].
      * rewrite lookup_insert_eq. split.
        -- intros [= <-]. left. exists (length lines), l. split; [|split].
           ++ now rewrite lookup_app_r, Nat.sub_diag by lia.
           ++ assumption.
           ++ intros j line' v'' Hj Hl. exfalso.
              apply lookup_lt_Some in Hl. rewrite length_app in Hl. simpl in Hl. lia.
        -- intros [(i & line & Hi & He & Hlast)|[_ Hnone]].
           ++ destruct (decide (i = length lines)) as [->|Hi'].
              ** rewrite lookup_app_r, Nat.sub_diag in Hi by lia.
                 injection Hi as <-. congruence.
              ** exfalso. assert (Hlt : (i < length lines)%nat).
                 { apply lookup_lt_Some in Hi. rewrite length_app in Hi.
                   simpl in Hi. lia. }
                 apply (Hlast (length lines) l v' Hlt); [|assumption].
                 now rewrite lookup_app_r, Nat.sub_diag by lia.
           ++ exfalso. apply (Hnone (length lines) l v'); [|assumption].
              now rewrite lookup_app_r, Nat.sub_diag by lia.
      * rewrite lookup_insert_ne by assumption. rewrite IH. split.
        -- intros [(i & line & Hi & He & Hlast)|[Hv Hnone]].
           ++ left. exists i, line. split; [|split; [assumption|]].
              ** rewrite lookup_app_l; [assumption | now apply lookup_lt_Some in Hi].
              ** intros j line' v'' Hj Hl.
                 destruct (decide (j < length lines)%nat) as [Hlt|Hge].
                 --- rewrite lookup_app_l in Hl by assumption. eauto.
                 --- rewrite lookup_app_r in Hl by lia.
                     destruct (j - length lines)%nat; [|discriminate].
                     injection Hl as <-. congruence.
           ++ right. split; [assumption|]. intros j line' v'' Hl.
              destruct (decide (j < length lines)%nat) as [Hlt|Hge].
              ** rewrite lookup_app_l in Hl by assumption. eauto.
              ** rewrite lookup_app_r in Hl by lia.
                 destruct (j - length lines)%nat; [|discriminate].
                 injection Hl as <-. congruence.
        -- intros [(i & line & Hi & He & Hlast)|[Hv Hnone]].
           ++ assert (Hlt : (i < length lines)%nat).
              { destruct (decide (i < length lines)%nat) as [|Hge]; [assumption|].
                rewrite lookup_app_r in Hi by lia.
                destruct (i - length lines)%nat; [|discriminate].
                injection Hi as <-. congruence. }
              left. exists i, line. rewrite lookup_app_l in Hi by assumption.
              split; [assumption | split; [assumption|]].
              intros j line' v'' Hj Hl. apply (Hlast j line' v'' Hj).
              rewrite lookup_app_l; [assumption | now apply lookup_lt_Some in Hl].
           ++ right. split; [assumption|]. intros j line' v'' Hl.
              apply (Hnone j line' v'').
              rewrite lookup_app_l; [assumption | now apply lookup_lt_Some in Hl].
    + rewrite IH. split.
      * intros [(i & line & Hi & He & Hlast)|[Hv Hnone]].
        -- left. exists i, line. split; [|split; [assumption|]].
           ++ rewrite lookup_app_l; [assumption | now apply lookup_lt_Some in Hi].
           ++ intros j line' v'' Hj Hl.
              destruct (decide (j < length lines)%nat) as [Hlt|Hge].
              ** rewrite lookup_app_l in Hl by assumption. eauto.
              ** rewrite lookup_app_r in Hl by lia.
                 destruct (j - length lines)%nat; [|discriminate].
                 injection Hl as <-. congruence.
        -- right. split; [assumption|]. intros j line' v'' Hl.
           destruct (decide (j < length lines)%nat) as [Hlt|Hge].
           ++ rewrite lookup_app_l in Hl by assumption. eauto.
           ++ rewrite lookup_app_r in Hl by lia.
              destruct (j - length lines)%nat; [|discriminate].
              injection Hl as <-. congruence.
      * intros [(i & line & Hi & He & Hlast)|[Hv Hnone]].
        -- assert (Hlt : (i < length lines)%nat).
           { destruct (decide (i < length lines)%nat) as [|Hge]; [assumption|].
             rewrite lookup_app_r in Hi by lia.
             destruct (i - length lines)%nat; [|discriminate].
             injection Hi as <-. congruence. }
           left. exists i, line. rewrite lookup_app_l in Hi by assumption.
           split; [assumption | split; [assumption|]].
           intros j line' v'' Hj Hl. apply (Hlast j line' v'' Hj).
           rewrite lookup_app_l; [assumption | now apply lookup_lt_Some in Hl].
        -- right. split; [assumption|]. intros j line' v'' Hl.
           apply (Hnone j line' v'').
           rewrite lookup_app_l; [assumption | now apply lookup_lt_Some in Hl].
Qed.

(* ===================================================================== *)
(** ** Lines: trimming, splitting, joining                                *)
(* ===================================================================== *)

Lemma rstrip_cons_solid (c : N) (t : str) :
  isspace c = false -> rstrip (c :: t) = c :: rstrip t.
Proof. intros H. simpl. rewrite H. now destruct (rstrip t). Qed.

Lemma solid_spec (c : N) :
  solid c = true ->
  isspace c = false /\ c <> 61 /\ islinebreak c = false /\ scalar c = true.
Proof.
  unfold solid, tame. rewrite !andb_true_iff, !negb_true_iff.
  intros [[H1 H2] [H3 H4]]. apply N.eqb_neq in H2. auto.
Qed.

Lemma rstrip_app_solid (p t : str) :
  solidb p = true -> rstrip (p ++ t) = p ++ rstrip t.
Proof.
  induction p as [|c p IH]; [reflexivity|]. simpl solidb.
  intros [Hc Hp]%andb_true_iff. cbn [app].
  rewrite rstrip_cons_solid by now apply solid_spec in Hc.
  now rewrite IH.
Qed.

Lemma strip_app_solid (c : N) (p t : str) :
  solidb (c :: p) = true -> strip ((c :: p) ++ t) = (c :: p) ++ rstrip t.
Proof.
  intros H. unfold strip.
  assert (Hc : isspace c = false).
  { simpl in H. apply andb_true_iff in H as [Hc _]. now apply solid_spec in Hc. }
  cbn [app lstrip]. rewrite Hc.
  change (c :: p ++ t) with ((c :: p) ++ t). now apply rstrip_app_solid.
Qed.

Lemma split1_app_solid (p t : str) :
  solidb p = true ->
  split1 61 (p ++ t)
  = match split1 61 t with
    | Some (a, b) => Some (p ++ a, b)
    | None => None
    end.
Proof.
  induction p as [|c p IH]; intros H.
  - simpl. now destruct (split1 61 t) as [[a b]|].
  - simpl in H. apply andb_true_iff in H as [Hc Hp]. cbn [app split1].
    apply solid_spec in Hc as (_ & Hc & _). apply N.eqb_neq in Hc. rewrite Hc.
    rewrite (IH Hp). now destruct (split1 61 t) as [[a b]|].
Qed.

(** The key of a line that begins with solid characters begins with them. *)
Lemma line_entry_head (c : N) (p t k v : str) :
  solidb (c :: p) = true ->
  line_entry ((c :: p) ++ t) = Some (k, v) ->
  exists k', k = (c :: p) ++ k'.
Proof.
  intros Hs. unfold line_entry. cbv zeta.
  rewrite (strip_app_solid c p t Hs).
  destruct (_ || _); [discriminate|].
  rewrite (split1_app_solid (c :: p) (rstrip t) Hs).
  destruct (split1 61 (rstrip t)) as [[a b]|]; [|discriminate].
  intros [= <- <-]. exists (rstrip a).
  now apply strip_app_solid.
Qed.

(** *** [splitlines] after [join] *)

Lemma tame_not_linebreak (c : N) : tame c = true -> islinebreak c = false.
Proof. unfold tame. now intros [H _]%andb_true_iff; apply negb_true_iff. Qed.

Lemma tame_not_lf (c : N) : tame c = true -> (c =? 10) = false.
Proof.
  intros H%tame_not_linebreak. destruct (N.eqb_spec c 10) as [->|]; [discriminate H|].
  reflexivity.
Qed.

Lemma translate_app linesep (a b : str) :
  translate linesep (a ++ b) = translate linesep a ++ translate linesep b.
Proof. unfold translate. apply flat_map_app. Qed.

Lemma translate_tame linesep (s : str) :
  tameb s = true -> translate linesep s = s.
Proof.
  induction s as [|c s IH]; [reflexivity|]. simpl tameb.
  intros [Hc Hs]%andb_true_iff. unfold translate in *. cbn [flat_map].
  rewrite (tame_not_lf _ Hc), IH by assumption. reflexivity.
Qed.

Lemma splitlines_line (linesep l rest : str) :
  linesep = [10] \/ linesep = [13; 10] ->
  tameb l = true ->
  splitlines (l ++ linesep ++ rest) = l :: splitlines rest.
Proof.
  intros Hsep. induction l as [|c l IH].
  - intros _. destruct Hsep as [-> | ->]; cbn [app splitlines].
    + change (islinebreak 10) with true. cbv iota.
      destruct rest; reflexivity.
    + change (islinebreak 13) with true. cbv iota.
      change ((13 =? 13) && (10 =? 10)) with true. cbv iota. reflexivity.
  - simpl tameb. intros [Hc Hl]%andb_true_iff. cbn [app splitlines].
    rewrite (tame_not_linebreak _ Hc), (IH Hl). reflexivity.
Qed.

Lemma splitlines_last (l : str) :
  tameb l = true -> l <> [] -> splitlines l = [l].
Proof.
  induction l as [|c l IH]; [congruence|]. simpl tameb.
  intros [Hc Hl]%andb_true_iff _. cbn [splitlines].
  rewrite (tame_not_linebreak _ Hc).
  destruct l as [|c' l]; [reflexivity|].
  rewrite IH by (assumption || discriminate). reflexivity.
Qed.

(** Written with either line separator, the joined lines are the lines
    [splitlines] finds again. *)
Lemma splitlines_join (linesep : str) (lines : list str) :
  linesep = [10] \/ linesep = [13; 10] ->
  Forall (fun l => tameb l = true) lines ->
  List.last lines [0] <> [] ->
  splitlines (translate linesep (join [10] lines)) = lines.
Proof.
  intros Hsep Ht. induction Ht as [|l lines Hl Ht IH]; intros Hlast.
  - reflexivity.
  - destruct lines as [|l' lines'].
    + cbn [join]. rewrite (translate_tame _ _ Hl).
      apply splitlines_last; [assumption | exact Hlast].
    + change (join [10] (l :: l' :: lines'))
        with (l ++ [10] ++ join [10] (l' :: lines')).
      rewrite !translate_app, (translate_tame _ _ Hl).
      replace (translate linesep [10]) with linesep
        by (unfold translate; cbn; now rewrite app_nil_r).
      rewrite (splitlines_line _ _ _ Hsep Hl). f_equal. apply IH. exact Hlast.
Qed.

(* ===================================================================== *)
(** ** UTF-8: decoding what was encoded                                   *)
(* ===================================================================== *)

Lemma decode_2 (a b : N) (rest : list N) :
  2 <= a <= 31 -> b < 64 ->
  utf8_decode ((192 + a) :: (128 + b) :: rest)
  = cons (a * 64 + b) <$> utf8_decode rest.
Proof.
  intros Ha Hb. cbn [utf8_decode].
  replace (192 + a <? 128) with false by (symmetry; apply N.ltb_ge; lia).
  replace ((194 <=? 192 + a) && (192 + a <=? 223)) with true
    by (symmetry; btrue; lia).
  replace (cont (128 + b)) with true by (symmetry; unfold cont; btrue; lia).
  replace ((192 + a - 192) * 64 + (128 + b - 128)) with (a * 64 + b) by lia.
  reflexivity.
Qed.

Lemma decode_3 (a b d : N) (rest : list N) :
  a <= 15 -> b < 64 -> d < 64 ->
  (a = 0 -> 32 <= b) -> (a = 13 -> b < 32) ->
  utf8_decode ((224 + a) :: (128 + b) :: (128 + d) :: rest)
  = cons (a * 4096 + b * 64 + d) <$> utf8_decode rest.
Proof.
  intros Ha Hb Hd H0 H13. cbn [utf8_decode].
  replace (224 + a <? 128) with false by (symmetry; apply N.ltb_ge; lia).
  replace ((194 <=? 224 + a) && (224 + a <=? 223)) with false
    by (symmetry; apply andb_false_iff; right; apply N.leb_gt; lia).
  replace ((224 <=? 224 + a) && (224 + a <=? 239)) with true
    by (symmetry; btrue; lia).
  replace (((if 224 + a =? 224 then 160 else 128) <=? 128 + b)
           && (128 + b <=? (if 224 + a =? 237 then 159 else 191))
           && cont (128 + d)) with true.
  - replace ((224 + a - 224) * 4096 + (128 + b - 128) * 64 + (128 + d - 128))
      with (a * 4096 + b * 64 + d) by lia.
    reflexivity.
  - symmetry. unfold cont.
    destruct (N.eqb_spec (224 + a) 224), (N.eqb_spec (224 + a) 237); btrue; lia.
Qed.

Lemma decode_4 (a b d e : N) (rest : list N) :
  a <= 4 -> b < 64 -> d < 64 -> e < 64 ->
  (a = 0 -> 16 <= b) -> (a = 4 -> b < 16) ->
  utf8_decode ((240 + a) :: (128 + b) :: (128 + d) :: (128 + e) :: rest)
  = cons (a * 262144 + b * 4096 + d * 64 + e) <$> utf8_decode rest.
Proof.
  intros Ha Hb Hd He H0 H4. cbn [utf8_decode].
  replace (240 + a <? 128) with false by (symmetry; apply N.ltb_ge; lia).
  replace ((194 <=? 240 + a) && (240 + a <=? 223)) with false
    by (symmetry; apply andb_false_iff; right; apply N.leb_gt; lia).
  replace ((224 <=? 240 + a) && (240 + a <=? 239)) with false
    by (symmetry; apply andb_false_iff; right; apply N.leb_gt; lia).
  replace ((240 <=? 240 + a) && (240 + a <=? 244)) with true
    by (symmetry; btrue; lia).
  replace (((if 240 + a =? 240 then 144 else 128) <=? 128 + b)
           && (128 + b <=? (if 240 + a =? 244 then 143 else 191))
           && cont (128 + d) && cont (128 + e)) with true.
  - replace ((240 + a - 240) * 262144 + (128 + b - 128) * 4096
             + (128 + d - 128) * 64 + (128 + e - 128))
      with (a * 262144 + b * 4096 + d * 64 + e) by lia.
    reflexivity.
  - symmetry. unfold cont.
    destruct (N.eqb_spec (240 + a) 240), (N.eqb_spec (240 + a) 244); btrue; lia.
Qed.

Lemma utf8_decode_char (c : N) (rest : list N) :
  scalar c = true ->
  utf8_decode (utf8_char c ++ rest) = cons c <$> utf8_decode rest.
Proof.
  unfold scalar, utf8_char. intros Hs.
  assert (Hc : c < 55296 \/ 57343 < c < 1114112).
  { apply orb_true_iff in Hs as [H|H]; [left; now apply N.ltb_lt|right].
    apply andb_true_iff in H as [H1 H2]. apply N.ltb_lt in H1, H2. lia. }
  clear Hs.
  destruct (N.ltb_spec c 128) as [H1|H1].
  { cbn [app utf8_decode]. now rewrite (proj2 (N.ltb_lt _ _) H1). }
  destruct (N.ltb_spec c 2048) as [H2|H2].
  { cbn [app]. rewrite decode_2 by arith. f_equal. f_equal. arith. }
  destruct (N.ltb_spec c 65536) as [H3|H3].
  { cbn [app]. rewrite decode_3 by arith. f_equal. f_equal. arith. }
  cbn [app]. rewrite decode_4 by arith. f_equal. f_equal. arith.
Qed.

Lemma utf8_decode_encode (s : str) :
  forallb scalar s = true -> utf8_decode (flat_map utf8_char s) = Some s.
Proof.
  induction s as [|c s IH]; [reflexivity|]. cbn [forallb flat_map].
  intros [Hc Hs]%andb_true_iff.
  rewrite (utf8_decode_char _ _ Hc), (IH Hs). reflexivity.
Qed.

Lemma utf8_char_bytes (c : N) :
  scalar c = true -> Forall (fun b => b < 256) (utf8_char c).
Proof.
  unfold scalar, utf8_char. intros Hs.
  assert (Hc : c < 1114112).
  { apply orb_true_iff in Hs as [H|H]; [apply N.ltb_lt in H; lia|].
    apply andb_true_iff in H as [_ H]. now apply N.ltb_lt in H. }
  destruct (N.ltb_spec c 128); [repeat constructor; lia|].
  destruct (N.ltb_spec c 2048); [repeat constructor; arith|].
  destruct (N.ltb_spec c 65536); repeat constructor; arith.
Qed.

Lemma to_N_byte_of_N (n : N) : n < 256 -> Byte.to_N (byte_of_N n) = n.
Proof.
  intros Hn. unfold byte_of_N. destruct (Byte.of_N n) as [b|] eqn:E.
  - now apply Byte.to_of_N.
  - apply Byte.of_N_None_iff in E. lia.
Qed.

Lemma to_N_bytes (bs : list N) :
  Forall (fun b => b < 256) bs -> map Byte.to_N (map byte_of_N bs) = bs.
Proof.
  induction 1 as [|b bs Hb _ IH]; [reflexivity|]. cbn [map].
  now rewrite to_N_byte_of_N, IH.
Qed.

(** What was encoded decodes to itself. *)
Lemma utf8_round_trip (s : str) (content : bytes) :
  utf8_encode s = Some content ->
  utf8_decode (map Byte.to_N content) = Some s.
Proof.
  unfold utf8_encode. destruct (forallb scalar s) eqn:Hs; [|discriminate].
  intros [= <-]. rewrite to_N_bytes.
  - now apply utf8_decode_encode.
  - apply Forall_flat_map. apply Forall_forall. intros c Hc%list_elem_of_In.
    apply utf8_char_bytes. rewrite forallb_forall in Hs. now apply Hs.
Qed.

(* ===================================================================== *)
(** ** The lines of the generated set file                                *)
(* ===================================================================== *)

Lemma tameb_app (a b : str) : tameb (a ++ b) = tameb a && tameb b.
Proof. apply forallb_app. Qed.

Lemma digit_tame (c : N) : digit_or_minus c = true -> tame c = true.
Proof.
  unfold digit_or_minus, isdigit, tame, islinebreak, scalar.
  intros H. apply orb_true_iff in H as [H|H].
  - apply andb_true_iff in H as [H1 H2]. apply N.leb_le in H1, H2.
    assert (Hc : In c [48; 49; 50; 51; 52; 53; 54; 55; 56; 57]) by (simpl; lia).
    cbn [In] in Hc. split_in Hc; subst c; reflexivity.
  - apply N.eqb_eq in H. subst c. reflexivity.
Qed.

Lemma digit_solid (c : N) : digit_or_minus c = true -> solid c = true.
Proof.
  unfold digit_or_minus, isdigit. intros H. apply orb_true_iff in H as [H|H].
  - apply andb_true_iff in H as [H1 H2]. apply N.leb_le in H1, H2.
    assert (Hc : In c [48; 49; 50; 51; 52; 53; 54; 55; 56; 57]) by (simpl; lia).
    cbn [In] in Hc. split_in Hc; subst c; reflexivity.
  - apply N.eqb_eq in H. subst c. reflexivity.
Qed.

Lemma tameb_str_of_int (z : Z) : tameb (str_of_int z) = true.
Proof.
  apply forallb_forall. intros c Hc. apply digit_tame.
  pose proof (str_of_int_chars z) as H. rewrite Forall_forall in H.
  apply H. now apply list_elem_of_In.
Qed.

Lemma tameb_float_quarters (q : Z) : tameb (Massive.float_quarters q) = true.
Proof.
  unfold Massive.float_quarters. cbv zeta.
  rewrite !tameb_app, tameb_str_of_int.
  destruct (q <? 0)%Z, (Z.abs q mod 4 =? 0)%Z, (Z.abs q mod 4 =? 1)%Z,
    (Z.abs q mod 4 =? 2)%Z; reflexivity.
Qed.

Lemma tameb_repeat_zero (n : nat) : tameb (repeat 48 n) = true.
Proof. induction n; [reflexivity|]. simpl. exact IHn. Qed.

Lemma tameb_zfill (w : nat) (z : Z) : tameb (Massive.zfill w (str_of_int z)) = true.
Proof.
  unfold Massive.zfill. now rewrite tameb_app, tameb_repeat_zero, tameb_str_of_int.
Qed.

Lemma tameb_strftime (now : Massive.datetime) : tameb (Massive.strftime now) = true.
Proof.
  unfold Massive.strftime. rewrite !tameb_app, !tameb_zfill. reflexivity.
Qed.

(** *** Comments, blank lines, global inputs *)

Lemma comment_line_entry (t : str) : line_entry (59 :: t) = None.
Proof.
  unfold line_entry, strip. cbv zeta. cbn [lstrip].
  change (isspace 59) with false. cbv iota.
  rewrite rstrip_cons_solid by reflexivity.
  rewrite bool_decide_eq_false_2 by discriminate.
  reflexivity.
Qed.

Lemma good_comment (t : str) : tameb t = true -> good_line (59 :: t).
Proof.
  intros Ht. split; [exact Ht|]. intros k v. now rewrite comment_line_entry.
Qed.

Lemma good_blank : good_line [].
Proof. split; [reflexivity|]. intros k v H. vm_compute in H. discriminate H. Qed.

Lemma good_lineb_good (x : str) : good_lineb x = true -> good_line x.
Proof.
  unfold good_lineb, good_line. intros [Ht Hk]%andb_true_iff.
  split; [assumption|]. intros k v E. now rewrite E in Hk.
Qed.

Lemma good_global_inputs : Forall good_line Massive.generate_global_inputs.
Proof.
  apply Forall_forall. intros x Hx. apply good_lineb_good.
  assert (H : forallb good_lineb Massive.generate_global_inputs = true)
    by (vm_compute; reflexivity).
  rewrite forallb_forall in H. apply H. now apply list_elem_of_In.
Qed.

(** *** Logic inputs *)

Lemma eighth_gInput (c : N) (t : str) : eighth (lit "gInput_" ++ c :: t) = c.
Proof. reflexivity. Qed.

(** A line that begins with [gInput_] and a digit is a good line. *)
Lemma good_logic_line (c : N) (t : str) :
  digit_or_minus c = true -> tameb t = true ->
  good_line (lit "gInput_" ++ c :: t).
Proof.
  intros Hc Ht. split.
  - rewrite tameb_app. change (tameb (lit "gInput_")) with true. cbn [andb].
    simpl tameb. now rewrite (digit_tame _ Hc).
  - intros k v E.
    change (lit "gInput_" ++ c :: t) with ((103 :: lit "Input_" ++ [c]) ++ t) in E.
    apply line_entry_head in E as [k' ->].
    + unfold generator_key.
      change ((103 :: lit "Input_" ++ [c]) ++ k') with (lit "gInput_" ++ c :: k').
      now rewrite eighth_gInput, Hc.
    + change (solidb (103 :: lit "Input_" ++ [c])) with (solid c && true).
      now rewrite (digit_solid _ Hc).
Qed.

Lemma good_prefixed_line (group_num : Z) (rest : str) :
  tameb rest = true ->
  good_line (lit "gInput_" ++ str_of_int group_num ++ rest).
Proof.
  intros Hr. destruct (str_of_int_head group_num) as (c & t & E & Hc).
  pose proof (tameb_str_of_int group_num) as Ht. rewrite E in *.
  cbn [app]. apply good_logic_line; [assumption|].
  simpl in Ht. apply andb_true_iff in Ht as [_ Ht].
  now rewrite tameb_app, Ht, Hr.
Qed.

Lemma logic_suffix_tame (logic : str) :
  In logic Massive.LOGICS ->
  exists sfx, Massive.dict_item Massive.LOGIC_SUFFIX logic = Ok sfx
              /\ tameb sfx = true.
Proof.
  unfold Massive.LOGICS. cbn [map In]. intros H.
  split_in H; subst logic; eexists;
    (split; [vm_compute; reflexivity | vm_compute; reflexivity]).
Qed.

Lemma good_input_line (group_num : Z) (mid tail : str) :
  tameb mid = true -> tameb tail = true ->
  good_line ((lit "gInput_" ++ str_of_int group_num ++ mid) ++ tail).
Proof.
  intros Hm Ht.
  replace ((lit "gInput_" ++ str_of_int group_num ++ mid) ++ tail)
    with (lit "gInput_" ++ str_of_int group_num ++ (mid ++ tail))
    by now rewrite <- !app_assoc.
  apply good_prefixed_line. now rewrite tameb_app, Hm, Ht.
Qed.


(** *** Input lines *)

Lemma numeric_solid (c : N) : numeric c = true -> solid c = true.
Proof.
  unfold numeric. rewrite orb_true_iff. intros [H|H].
  - now apply digit_solid.
  - apply N.eqb_eq in H. subst c. reflexivity.
Qed.

Lemma digit_numeric (c : N) : digit_or_minus c = true -> numeric c = true.
Proof.
  unfold digit_or_minus, numeric. intros H. now rewrite H.
Qed.

Lemma solidb_app (a b : str) : solidb (a ++ b) = solidb a && solidb b.
Proof. apply forallb_app. Qed.

Lemma solidb_str_of_int (z : Z) : solidb (str_of_int z) = true.
Proof.
  apply forallb_forall. intros c Hc. apply digit_solid.
  pose proof (str_of_int_chars z) as H. rewrite Forall_forall in H.
  apply H. now apply list_elem_of_In.
Qed.

Lemma valueb_str_of_int (z : Z) : valueb (str_of_int z) = true.
Proof.
  unfold valueb. apply andb_true_intro. split.
  - apply forallb_forall. intros c Hc. apply digit_numeric.
    pose proof (str_of_int_chars z) as H. rewrite Forall_forall in H.
    apply H. now apply list_elem_of_In.
  - rewrite bool_decide_eq_false_2; [reflexivity|]. apply str_of_int_nonempty.
Qed.

Lemma valueb_float_quarters (q : Z) : valueb (Massive.float_quarters q) = true.
Proof.
  unfold valueb, Massive.float_quarters. cbv zeta.
  pose proof (valueb_str_of_int (Z.abs q / 4)) as [Hn _]%andb_true_iff.
  apply andb_true_intro. split.
  - rewrite !forallb_app, Hn.
    destruct (q <? 0)%Z, (Z.abs q mod 4 =? 0)%Z, (Z.abs q mod 4 =? 1)%Z,
      (Z.abs q mod 4 =? 2)%Z; reflexivity.
  - rewrite bool_decide_eq_false_2; [reflexivity|].
    intros H. apply (f_equal (@length N)) in H. rewrite !length_app in H.
    pose proof (str_of_int_nonempty (Z.abs q / 4)) as Hne.
    destruct (str_of_int (Z.abs q / 4)); [congruence|]. simpl in H. lia.
Qed.

Lemma valueb_solidb (v : str) : valueb v = true -> solidb v = true.
Proof.
  intros [H _]%andb_true_iff. apply forallb_forall. intros c Hc.
  apply numeric_solid. rewrite forallb_forall in H. now apply H.
Qed.

Lemma solidb_tameb (s : str) : solidb s = true -> tameb s = true.
Proof.
  intros H. apply forallb_forall. intros c Hc.
  unfold solidb in H. rewrite forallb_forall in H. specialize (H c Hc).
  unfold solid in H. now apply andb_true_iff in H as [_ H].
Qed.

Lemma input_tail_app (a t : str) :
  solidb a = true -> input_tail t -> input_tail (a ++ t).
Proof.
  intros Ha (f & v & -> & Hf & Hv). exists (a ++ f), v.
  split; [now rewrite app_assoc|]. split; [|assumption].
  now rewrite solidb_app, Ha, Hf.
Qed.

Lemma input_tail_closed (t : str) : input_tailb t = true -> input_tail t.
Proof.
  unfold input_tailb. destruct (split1 61 t) as [[f v]|] eqn:E; [|discriminate].
  intros [Hf Hv]%andb_true_iff. apply split1_Some in E as [-> _].
  now exists f, v.
Qed.

(** A literal that ends with [=], and then a number. *)
Lemma input_tail_value (a v : str) :
  input_tailb (a ++ [48]) = true -> valueb v = true -> input_tail (a ++ v).
Proof.
  unfold input_tailb. destruct (split1 61 (a ++ [48])) as [[f z]|] eqn:E; [|discriminate].
  intros [Hf Hz]%andb_true_iff Hv. apply split1_Some in E as [E Hn].
  destruct (exists_last (l := z)) as (z' & c & ->).
  { intros ->. unfold valueb in Hz. simpl in Hz. discriminate. }
  change (f ++ 61 :: z' ++ [c]) with (f ++ (61 :: z') ++ [c]) in E.
  rewrite app_assoc in E. apply app_inj_tail in E as [-> _].
  exists f, (z' ++ v). split; [now rewrite <- app_assoc|]. split; [assumption|].
  unfold valueb in *. apply andb_true_iff in Hz as [Hz _], Hv as [Hv Hne].
  rewrite forallb_app in Hz. apply andb_true_iff in Hz as [Hz _].
  rewrite forallb_app, Hz, Hv. cbn [andb].
  rewrite bool_decide_eq_false_2; [reflexivity|].
  intros H. apply app_eq_nil in H as [_ ->]. simpl in Hne. discriminate.
Qed.

Lemma input_line_tail (prefix tail : str) :
  input_tail tail -> input_line prefix (prefix ++ tail).
Proof. intros (f & v & -> & H). now exists f, v. Qed.

Lemma rstrip_solid (s : str) : solidb s = true -> rstrip s = s.
Proof.
  intros H. rewrite <- (app_nil_r s) at 1. rewrite rstrip_app_solid by assumption.
  simpl. apply app_nil_r.
Qed.

Lemma strip_solid (s : str) : solidb s = true -> strip s = s.
Proof.
  intros H. destruct s as [|c t]; [reflexivity|].
  rewrite <- (app_nil_r (c :: t)) at 1. rewrite strip_app_solid by assumption.
  simpl. now rewrite app_nil_r.
Qed.

(** The decoder reads an input line as one entry. *)
Lemma input_line_entry (prefix line : str) :
  solidb prefix = true -> prefix <> [] -> startswith1 59 prefix = false ->
  input_line prefix line ->
  exists f v,
    line = prefix ++ f ++ 61 :: v /\ solidb f = true /\ valueb v = true
    /\ line_entry line = Some (prefix ++ f, v).
Proof.
  intros Hp Hne Hs (f & v & -> & Hf & Hv). exists f, v.
  repeat split; try assumption.
  assert (Hv' := valueb_solidb v Hv).
  assert (Hk : solidb (prefix ++ f) = true) by now rewrite solidb_app, Hp, Hf.
  unfold line_entry. cbv zeta.
  replace (prefix ++ f ++ 61 :: v) with ((prefix ++ f) ++ 61 :: v)
    by now rewrite <- app_assoc.
  destruct (prefix ++ f) as [|c k] eqn:Ek.
  { destruct prefix; [congruence | discriminate]. }
  rewrite strip_app_solid by assumption.
  assert (Hr : rstrip (61 :: v) = 61 :: v).
  { rewrite rstrip_cons_solid by reflexivity. now rewrite rstrip_solid. }
  rewrite Hr. rewrite bool_decide_eq_false_2 by discriminate.
  assert (Hc : startswith1 59 ((c :: k) ++ 61 :: v) = false).
  { destruct prefix as [|p prefix']; [congruence|].
    simpl in Ek. injection Ek as -> _. exact Hs. }
  rewrite Hc. cbn [orb].
  rewrite split1_app_solid by assumption.
  cbn [split1]. rewrite N.eqb_refl.
  rewrite app_nil_r. now rewrite !strip_solid.
Qed.

Lemma tameb_input_line (prefix line : str) :
  tameb prefix = true -> input_line prefix line -> tameb line = true.
Proof.
  intros Hp (f & v & -> & Hf & Hv).
  rewrite !tameb_app, Hp, (solidb_tameb f Hf). cbn [andb].
  simpl. now rewrite (solidb_tameb v (valueb_solidb v Hv)).
Qed.

(** Solve [input_tail t] for the tails the generator writes. *)
Ltac value_ok :=
  first [apply valueb_str_of_int | apply valueb_float_quarters].

Ltac tail_ok :=
  lazymatch goal with
  | |- input_tail (lit _) => apply input_tail_closed; vm_compute; reflexivity
  | |- input_tail (lit _ ++ _) =>
      first [ apply input_tail_value; [vm_compute; reflexivity | value_ok]
            | apply input_tail_app; [vm_compute; reflexivity | tail_ok] ]
  | |- input_tail (str_of_int _ ++ _) =>
      apply input_tail_app; [apply solidb_str_of_int | tail_ok]
  end.

Ltac lines_ok :=
  repeat match goal with
         | |- Forall _ [] => apply Forall_nil_2
         | |- Forall _ (_ :: _) =>
             apply Forall_cons_2; [apply input_line_tail; tail_ok|]
         end.

Lemma logic_suffix_cases (logic : str) :
  In logic Massive.LOGICS <-> exists sfx, assoc Massive.LOGIC_SUFFIX logic = Some sfx.
Proof.
  split.
  - unfold Massive.LOGICS. cbn [map In]. intros H.
    split_in H; subst logic; eexists; vm_compute; reflexivity.
  - intros [sfx H]. destruct (assoc Massive.LOGIC_SUFFIX logic) eqn:E; [|discriminate].
    assert (Hn : assoc Massive.LOGIC_SUFFIX logic <> None) by congruence.
    rewrite assoc_None_in in Hn.
    rewrite <- list_elem_of_In in Hn. rewrite <- list_elem_of_In.
    destruct (decide (logic ∈ map fst Massive.LOGIC_SUFFIX)) as [Hi|Hi];
      [exact Hi | contradiction].
Qed.

Lemma trail_steps_lines (prefix : str) (group_num step : Z) :
  length (Massive.trail_step_inputs prefix group_num step) = 5%nat
  /\ Forall (input_line prefix) (Massive.trail_step_inputs prefix group_num step).
Proof.
  split; [reflexivity|]. unfold Massive.trail_step_inputs. cbv zeta. lines_ok.
Qed.

Lemma partial_lines (prefix : str) (partial : Z) :
  length (Massive.partial_inputs prefix partial) = 8%nat
  /\ Forall (input_line prefix) (Massive.partial_inputs prefix partial).
Proof.
  split; [reflexivity|]. unfold Massive.partial_inputs. cbv zeta. lines_ok.
Qed.

Lemma length_flat_map_const {A B : Type} (f : A -> list B) (n : nat) (l : list A) :
  (forall x, length (f x) = n) -> length (flat_map f l) = (length l * n)%nat.
Proof.
  intros H. induction l as [|x l IH]; [reflexivity|].
  simpl. rewrite length_app, H, IH. lia.
Qed.

Lemma logic_inputs_lines (group_num : Z) (engine logic direction sfx : str) :
  assoc Massive.LOGIC_SUFFIX logic = Some sfx ->
  exists lines,
    Massive.generate_logic_inputs group_num engine logic direction = Ok lines
    /\ length lines = 110%nat
    /\ Forall (input_line (logic_prefix group_num engine sfx direction)) lines.
Proof.
  intros Hs. unfold Massive.generate_logic_inputs, Massive.dict_item.
  rewrite Hs. cbn [mbind result_bind]. cbv zeta.
  fold (logic_prefix group_num engine sfx direction).
  generalize (logic_prefix group_num engine sfx direction). intros prefix.
  eexists. split; [reflexivity|]. split.
  - rewrite !length_app.
    rewrite (length_flat_map_const _ 5) by (intros; apply trail_steps_lines).
    rewrite (length_flat_map_const _ 8) by (intros; apply partial_lines).
    reflexivity.
  - destruct (Py.eqb direction (lit "Buy")), (negb (Py.eqb logic (lit "Power")));
      (apply Forall_app; split;
       [ lines_ok
       | apply Forall_app; split;
         [ apply Forall_flat_map, Forall_forall; intros ? _; apply trail_steps_lines
         | apply Forall_app; split;
           [ lines_ok
           | apply Forall_flat_map, Forall_forall; intros ? _; apply partial_lines ] ] ]).
Qed.

(** *** The lines of one logic and direction, as the decoder reads them *)

Lemma logic_suffix_solid (logic sfx : str) :
  assoc Massive.LOGIC_SUFFIX logic = Some sfx -> solidb sfx = true.
Proof.
  unfold Massive.LOGIC_SUFFIX. cbn [assoc]. intros H.
  repeat match type of H with
         | (if ?b then _ else _) = _ =>
             destruct b; [injection H as <-; vm_compute; reflexivity|]
         end.
  discriminate.
Qed.

Lemma logic_prefix_solid (group_num : Z) (engine sfx direction : str) :
  solidb engine = true -> solidb sfx = true -> solidb direction = true ->
  solidb (logic_prefix group_num engine sfx direction) = true.
Proof.
  intros He Hs Hd. unfold logic_prefix.
  rewrite !solidb_app, solidb_str_of_int, He, Hs, Hd. reflexivity.
Qed.

Lemma logic_line_good (group_num : Z) (engine sfx direction line : str) :
  solidb engine = true -> solidb sfx = true -> solidb direction = true ->
  input_line (logic_prefix group_num engine sfx direction) line ->
  good_line line.
Proof.
  intros He Hs Hd (f & v & -> & Hf & Hv). unfold logic_prefix.
  rewrite <- !app_assoc. apply good_prefixed_line.
  rewrite !tameb_app, (solidb_tameb _ He), (solidb_tameb _ Hs),
    (solidb_tameb _ Hd), (solidb_tameb _ Hf).
  simpl. now rewrite (solidb_tameb v (valueb_solidb v Hv)).
Qed.

Lemma logic_line_entry (group_num : Z) (engine sfx direction line : str) :
  solidb engine = true -> solidb sfx = true -> solidb direction = true ->
  input_line (logic_prefix group_num engine sfx direction) line ->
  exists f v,
    line = logic_prefix group_num engine sfx direction ++ f ++ 61 :: v
    /\ solidb f = true /\ valueb v = true
    /\ line_entry line
       = Some (logic_prefix group_num engine sfx direction ++ f, v).
Proof.
  intros He Hs Hd. apply input_line_entry.
  - now apply logic_prefix_solid.
  - discriminate.
  - reflexivity.
Qed.

Lemma inputs_app (a b : list str) : inputs (a ++ b) = (inputs a + inputs b)%Z.
Proof. unfold inputs. rewrite filter_app, length_app. lia. Qed.

Lemma inputs_all (lines : list str) :
  Forall (fun l => is_input l = true) lines -> inputs lines = Z.of_nat (length lines).
Proof.
  unfold inputs. induction 1 as [|l ls Hl _ IH]; [reflexivity|].
  rewrite filter_cons_True by assumption. simpl length. lia.
Qed.

Lemma inputs_none (lines : list str) :
  Forall (fun l => is_input l = false) lines -> inputs lines = 0%Z.
Proof.
  unfold inputs. induction 1 as [|l ls Hl _ IH]; [reflexivity|].
  rewrite filter_cons_False; [exact IH|]. now rewrite Hl.
Qed.

Lemma comment_not_input (t : str) : is_input (59 :: t) = false.
Proof. unfold is_input. now rewrite comment_line_entry. Qed.

(** The inputs of one logic and direction: 110 lines, each of them an
    input the decoder reads, a key of the generator. *)
Lemma logic_inputs_file (group_num : Z) (engine logic direction : str) :
  solidb engine = true -> solidb direction = true -> In logic Massive.LOGICS ->
  exists lines,
    Massive.generate_logic_inputs group_num engine logic direction = Ok lines
    /\ length lines = 110%nat
    /\ Forall good_line lines
    /\ inputs lines = 110%Z.
Proof.
  intros He Hd [sfx Hs]%logic_suffix_cases.
  destruct (logic_inputs_lines group_num engine logic direction sfx Hs)
    as (lines & E & Hn & Hl).
  pose proof (logic_suffix_solid _ _ Hs) as Hsfx.
  exists lines. repeat split; try assumption.
  - eapply Forall_impl; [exact Hl|]. intros line. now apply logic_line_good.
  - rewrite inputs_all; [now rewrite Hn|].
    eapply Forall_impl; [exact Hl|]. intros line Hi.
    destruct (logic_line_entry _ _ _ _ _ He Hsfx Hd Hi) as (f & v & _ & _ & _ & E').
    unfold is_input. now rewrite E'.
Qed.

(** *** The loops of [generate_massive_setfile] *)

Lemma foldM_count {A : Type} (f : list str * Z -> A -> result (list str * Z))
    (h : list str) (c : Z) (l : list A) :
  (forall st x, In x l -> file_state h st ->
                exists st', f st x = Ok st' /\ file_state h st'
                            /\ snd st' = (snd st + c)%Z) ->
  forall st, file_state h st ->
    exists st', Massive.foldM f l st = Ok st' /\ file_state h st'
                /\ snd st' = (snd st + c * Z.of_nat (length l))%Z.
Proof.
  induction l as [|x l IH]; intros Hf st Hst.
  - exists st. simpl. split; [reflexivity|]. split; [exact Hst|]. lia.
  - destruct (Hf st x (or_introl eq_refl) Hst) as (st1 & E1 & H1 & C1).
    destruct (IH (fun st y Hy => Hf st y (or_intror Hy)) st1 H1)
      as (st2 & E2 & H2 & C2).
    exists st2. simpl. rewrite E1. cbn [mbind result_bind].
    split; [exact E2|]. split; [exact H2|]. rewrite C2, C1. simpl length. lia.
Qed.

Lemma file_state_app (h : list str) (st : list str * Z) (lines : list str) (n : Z) :
  file_state h st -> Forall good_line lines -> inputs lines = n ->
  file_state h (fst st ++ lines, (snd st + n)%Z).
Proof.
  intros (H1 & H2 & rest & H3) Hl Hn. split; [|split]; simpl.
  - apply Forall_app. now split.
  - rewrite inputs_app, H2, Hn. lia.
  - exists (rest ++ lines). now rewrite H3, app_assoc.
Qed.

Lemma blank_not_input : is_input [] = false.
Proof. reflexivity. Qed.

Lemma engines_solid (engine : str) : In engine Massive.ENGINES -> solidb engine = true.
Proof.
  unfold Massive.ENGINES. cbn [map In]. intros H.
  split_in H; subst engine; reflexivity.
Qed.

Lemma directions_solid (direction : str) :
  In direction Massive.DIRECTIONS -> solidb direction = true.
Proof.
  unfold Massive.DIRECTIONS. cbn [map In]. intros H.
  split_in H; subst direction; reflexivity.
Qed.

Lemma direction_body_state (h : list str) (group : Z)
    (engine logic direction : str) st :
  In engine Massive.ENGINES -> In logic Massive.LOGICS ->
  In direction Massive.DIRECTIONS -> file_state h st ->
  exists st', Massive.direction_body group engine logic st direction = Ok st'
              /\ file_state h st' /\ snd st' = (snd st + 110)%Z.
Proof.
  intros He Hl Hd Hst.
  destruct (logic_inputs_file group engine logic direction
              (engines_solid _ He) (directions_solid _ Hd) Hl)
    as (lines & E & Hn & Hg & Hi).
  unfold Massive.direction_body. rewrite E. cbn [mbind result_bind].
  eexists. split; [reflexivity|]. split.
  - unfold Massive.len. rewrite Hn.
    apply (file_state_app h st (lines ++ [lit ""]) 110 Hst).
    + apply Forall_app. split; [assumption|].
      apply Forall_cons_2; [apply good_blank | apply Forall_nil_2].
    + rewrite inputs_app, Hi. reflexivity.
  - simpl. unfold Massive.len. now rewrite Hn.
Qed.

Lemma group_body_state (h : list str) (group : Z) st :
  file_state h st ->
  exists st', Massive.group_body st group = Ok st'
              /\ file_state h st' /\ snd st' = (snd st + 4620)%Z.
Proof.
  intros Hst. unfold Massive.group_body. cbv zeta.
  assert (H0 : file_state h
                 (fst st ++ [lit "; Group " ++ str_of_int group; Massive.rule], snd st)).
  { rewrite <- (Z.add_0_r (snd st)).
    apply (file_state_app h st [lit "; Group " ++ str_of_int group; Massive.rule] 0);
      [assumption| |].
    - apply Forall_cons_2; [|apply Forall_cons_2; [|apply Forall_nil_2]].
      + apply (good_comment (lit " Group " ++ str_of_int group)).
        now rewrite tameb_app, tameb_str_of_int.
      + apply good_lineb_good. vm_compute. reflexivity.
    - apply inputs_none.
      apply Forall_cons_2; [|apply Forall_cons_2; [|apply Forall_nil_2]].
      + apply (comment_not_input (lit " Group " ++ str_of_int group)).
      + reflexivity. }
  destruct (foldM_count
              (fun st engine =>
                 Massive.foldM
                   (fun st logic =>
                      Massive.foldM (Massive.direction_body group engine logic)
                        Massive.DIRECTIONS st)
                   Massive.LOGICS st)
              h 1540 Massive.ENGINES) with (st := (fst st ++ [lit "; Group " ++ str_of_int group; Massive.rule], snd st))
    as (st1 & E1 & H1 & C1).
  { intros s engine He Hs.
    destruct (foldM_count
                (fun st logic =>
                   Massive.foldM (Massive.direction_body group engine logic)
                     Massive.DIRECTIONS st)
                h 220 Massive.LOGICS) with (st := s) as (s1 & F1 & G1 & D1).
    - intros s' logic Hl Hs'.
      destruct (foldM_count (Massive.direction_body group engine logic) h 110
                  Massive.DIRECTIONS) with (st := s') as (s2 & F2 & G2 & D2).
      + intros s'' direction Hd Hs''. now apply direction_body_state.
      + assumption.
      + exists s2. split; [exact F2|]. split; [exact G2|]. rewrite D2. reflexivity.
    - assumption.
    - exists s1. split; [exact F1|]. split; [exact G1|]. rewrite D1. reflexivity. }
  { exact H0. }
  rewrite E1. cbn [mbind result_bind].
  eexists. split; [reflexivity|]. split.
  - rewrite <- (Z.add_0_r (snd st1)).
    apply (file_state_app h st1 [lit ""] 0 H1).
    + apply Forall_cons_2; [apply good_blank | apply Forall_nil_2].
    + reflexivity.
  - simpl. rewrite C1. simpl. reflexivity.
Qed.

(** *** The whole file *)

Lemma good_comment_line (line : str) :
  startswith1 59 line = true -> tameb line = true -> good_line line.
Proof.
  destruct line as [|c t]; [discriminate|]. simpl startswith1.
  intros ->%N.eqb_eq Ht. apply good_comment. exact Ht.
Qed.

Lemma comment_line_not_input (line : str) :
  startswith1 59 line = true -> is_input line = false.
Proof.
  destruct line as [|c t]; [discriminate|]. simpl startswith1.
  intros ->%N.eqb_eq. apply comment_not_input.
Qed.

(** Lines of the header and the footer: comments and blank lines. *)
Ltac remark_ok :=
  first
    [ apply good_comment_line;
      [ reflexivity
      | rewrite ?tameb_app, ?tameb_str_of_int, ?tameb_strftime; reflexivity ]
    | apply good_blank ].

Ltac remarks_ok :=
  repeat match goal with
         | |- Forall good_line [] => apply Forall_nil_2
         | |- Forall good_line (_ :: _) => apply Forall_cons_2; [remark_ok|]
         | |- Forall (fun l => is_input l = false) [] => apply Forall_nil_2
         | |- Forall (fun l => is_input l = false) (_ :: _) =>
             apply Forall_cons_2;
             [first [apply comment_line_not_input; reflexivity | reflexivity]|]
         end.

Lemma header_state (groups : Z) (now : Massive.datetime) :
  file_state (Massive.header groups now) (Massive.header groups now, 0%Z).
Proof.
  unfold Massive.header, file_state. cbn [fst snd]. split; [|split].
  - repeat (apply Forall_app; split); try apply good_global_inputs;
      unfold Massive.rule, Massive.times; remarks_ok.
  - rewrite !inputs_app.
    rewrite inputs_none by (unfold Massive.rule, Massive.times; remarks_ok).
    rewrite inputs_none by (unfold Massive.rule; remarks_ok).
    rewrite (inputs_none [lit ""]) by remarks_ok.
    rewrite (inputs_none [Massive.rule; _; _; _])
      by (unfold Massive.rule; remarks_ok).
    vm_compute. reflexivity.
  - exists []. now rewrite app_nil_r.
Qed.

Lemma length_range (a b : Z) : length (range a b) = Z.to_nat (b - a).
Proof. unfold range. now rewrite length_map, length_seq. Qed.

(** The file is a list of good lines joined by line feeds: the header,
    the groups, the footer; the number of its inputs is the number the
    footer reports. *)
Lemma setfile_lines (groups : Z) (now : Massive.datetime) :
  exists body,
    let lines :=
      Massive.header groups now ++ body ++ footer (4620 * Z.max 0 groups + 48) in
    Massive.generate_massive_setfile_for groups now = Ok (join [10] lines)
    /\ Forall good_line lines
    /\ inputs lines = (4620 * Z.max 0 groups + 48)%Z.
Proof.
  unfold Massive.generate_massive_setfile_for. cbv zeta.
  destruct (foldM_count Massive.group_body (Massive.header groups now) 4620
              (range 1 (groups + 1)))
    with (st := (Massive.header groups now, 0%Z)) as (st & E & Hst & C).
  { intros s g _ Hs. now apply group_body_state. }
  { apply header_state. }
  rewrite E. cbn [mbind result_bind].
  assert (Hc : snd st = (4620 * Z.max 0 groups)%Z).
  { rewrite C, length_range. simpl snd. lia. }
  replace (Massive.len Massive.generate_global_inputs) with 48%Z by reflexivity.
  rewrite Hc. destruct Hst as (H1 & H2 & body & H3).
  exists body. cbv zeta. rewrite (app_assoc _ body), <- H3.
  split; [reflexivity|]. split.
  - apply Forall_app. split; [exact H1|]. unfold footer. remarks_ok.
  - rewrite inputs_app, H2, Hc.
    rewrite inputs_none by (unfold footer; remarks_ok). lia.
Qed.

(** *** Writing a text and reading it back *)

Lemma utf8_char_head (c : N) :
  exists b t, utf8_char c = b :: t /\ (scalar c = true -> b <= 244).
Proof.
  unfold utf8_char, scalar.
  destruct (c <? 128) eqn:E1; [|destruct (c <? 2048) eqn:E2;
                                 [|destruct (c <? 65536) eqn:E3]];
    eexists; eexists; (split; [reflexivity|]); intros Hs.
  - apply N.ltb_lt in E1. lia.
  - apply N.ltb_lt in E2.
    assert (c / 64 < 32) by (apply N.Div0.div_lt_upper_bound; lia). lia.
  - apply N.ltb_lt in E3.
    assert (c / 4096 < 16) by (apply N.Div0.div_lt_upper_bound; lia). lia.
  - apply orb_true_iff in Hs as [Hs|Hs].
    + apply N.ltb_lt in Hs. apply N.ltb_ge in E3. lia.
    + apply andb_true_iff in Hs as [_ Hs]. apply N.ltb_lt in Hs.
      assert (c / 262144 < 5) by (apply N.Div0.div_lt_upper_bound; lia). lia.
Qed.

(** No UTF-8 encoding begins with the byte-order mark of UTF-16. *)
Lemma encoded_no_bom (s : str) (content rest : bytes) :
  utf8_encode s = Some content -> content <> xff :: rest.
Proof.
  unfold utf8_encode. destruct (forallb scalar s) eqn:Hs; [|discriminate].
  intros [= <-] E. destruct s as [|c s]; [discriminate|].
  simpl in Hs. apply andb_true_iff in Hs as [Hc _].
  destruct (utf8_char_head c) as (b & t & Eb & Hb). specialize (Hb Hc).
  cbn [flat_map] in E. rewrite Eb in E. cbn [app map] in E.
  injection E as E _. apply (f_equal Byte.to_N) in E.
  rewrite to_N_byte_of_N in E by lia. vm_compute in E. subst b. lia.
Qed.

Lemma decode_content_utf8 (content : bytes) :
  (forall rest, content <> xff :: rest) ->
  decode_content content
  = match utf8_decode (map Byte.to_N content) with
    | Some text => Ok text
    | None => Raise UnicodeDecodeError
    end.
Proof.
  intros H. unfold decode_content.
  destruct content as [|b0 rest]; [reflexivity|].
  destruct b0; try reflexivity. now destruct (H rest).
Qed.

Lemma tameb_scalar (s : str) : tameb s = true -> forallb scalar s = true.
Proof.
  intros H. apply forallb_forall. intros c Hc.
  unfold tameb in H. rewrite forallb_forall in H. specialize (H c Hc).
  unfold tame in H. now apply andb_true_iff in H as [_ H].
Qed.

Lemma scalar_join (lines : list str) :
  Forall (fun l => tameb l = true) lines ->
  forallb scalar (join [10] lines) = true.
Proof.
  induction 1 as [|l lines Hl _ IH]; [reflexivity|].
  destruct lines as [|l' lines']; [now apply tameb_scalar|].
  change (join [10] (l :: l' :: lines'))
    with (l ++ [10] ++ join [10] (l' :: lines')).
  rewrite !forallb_app, (tameb_scalar l Hl), IH. reflexivity.
Qed.

Lemma scalar_translate (linesep content : str) :
  forallb scalar linesep = true -> forallb scalar content = true ->
  forallb scalar (translate linesep content) = true.
Proof.
  intros Hs. induction content as [|c t IH]; [reflexivity|].
  simpl. intros [Hc Ht]%andb_true_iff. rewrite forallb_app, (IH Ht).
  destruct (c =? 10); [now rewrite Hs|]. simpl. now rewrite Hc.
Qed.

(** A text written in text mode with the UTF-8 encoding, and what the
    decoder makes of the bytes. *)
Lemma write_text_decode (linesep content : str) :
  forallb scalar linesep = true -> forallb scalar content = true ->
  exists written,
    Massive.write_text linesep content = Ok written
    /\ decode_content written = Ok (translate linesep content).
Proof.
  intros Hs Hc. unfold Massive.write_text.
  fold (translate linesep content).
  destruct (utf8_encode (translate linesep content)) as [written|] eqn:E.
  - exists written. split; [reflexivity|].
    rewrite decode_content_utf8 by (intros rest; eapply encoded_no_bom; exact E).
    now rewrite (utf8_round_trip _ _ E).
  - unfold utf8_encode in E. rewrite scalar_translate in E by assumption.
    discriminate.
Qed.

(** The decoder reads the lines back, whatever the line separator of the
    platform that wrote them. *)
Lemma parse_written (fs : filesystem) (path linesep : str) (lines : list str) :
  linesep = [10] \/ linesep = [13; 10] ->
  Forall (fun l => tameb l = true) lines ->
  List.last lines [0] <> [] ->
  fs path = Massive.write_text linesep (join [10] lines) ->
  parse_set_file fs path = fold_left parse_line lines ∅.
Proof.
  intros Hsep Ht Hlast Hfs.
  destruct (write_text_decode linesep (join [10] lines)) as (written & Ew & Ed).
  { destruct Hsep as [->| ->]; reflexivity. }
  { now apply scalar_join. }
  unfold parse_set_file, parse_set_file_try. rewrite Hfs, Ew, Ed.
  unfold parse_text. now rewrite splitlines_join.
Qed.

(** An entry of some line is a key of the mapping. *)
Lemma parse_lines_has (lines : list str) (values : gmap str str) (line k v : str) :
  In line lines -> line_entry line = Some (k, v) ->
  is_Some (fold_left parse_line lines values !! k).
Proof.
  revert values. induction lines as [|l lines IH]; intros values; [intros []|].
  assert (Hkeep : forall ls (m : gmap str str),
             is_Some (m !! k) -> is_Some (fold_left parse_line ls m !! k)).
  { clear. induction ls as [|l ls IH]; intros m Hm; [exact Hm|].
    simpl. apply IH. rewrite parse_line_entry.
    destruct (line_entry l) as [[k' v']|]; [|exact Hm].
    destruct (decide (k' = k)) as [->|Hne].
    - rewrite lookup_insert_eq. eauto.
    - now rewrite lookup_insert_ne. }
  intros [->|Hin] E; simpl.
  - apply Hkeep. rewrite parse_line_entry, E, lookup_insert_eq. eauto.
  - now apply IH.
Qed.

(** A key of the mapping is the key of the entry of some line. *)
Lemma parse_lines_from (lines : list str) (k v : str) :
  fold_left parse_line lines ∅ !! k = Some v ->
  exists line, In line lines /\ line_entry line = Some (k, v).
Proof.
  intros H. apply parse_lines_lookup in H as [(i & line & Hi & E & _)|[H _]].
  - exists line. split; [|exact E].
    apply list_elem_of_In. eapply list_elem_of_lookup_2. exact Hi.
  - rewrite lookup_empty in H. discriminate.
Qed.

(* ===================================================================== *)
(** ** Entries written and read back                                      *)
(* ===================================================================== *)

Lemma rstrip_idem (s : str) : rstrip (rstrip s) = rstrip s.
Proof.
  induction s as [|c t IH]; [reflexivity|].
  simpl. destruct (rstrip t) as [|r0 r] eqn:E.
  - destruct (isspace c) eqn:Ec; [reflexivity|]. simpl. now rewrite Ec.
  - change (rstrip (c :: r0 :: r)) with
      (match rstrip (r0 :: r) with
       | [] => if isspace c then [] else [c]
       | x => c :: x
       end).
    now rewrite IH.
Qed.

Lemma stripped_rstrip (v : str) : rstrip (lstrip v) = v -> rstrip v = v.
Proof. intros H. rewrite <- H at 1. rewrite rstrip_idem. exact H. Qed.

Lemma lstrip_head (c : N) (t : str) : isspace c = false -> lstrip (c :: t) = c :: t.
Proof. intros H. simpl. now rewrite H. Qed.

Lemma stripped_lstrip (v : str) : rstrip (lstrip v) = v -> lstrip v = v.
Proof.
  intros H. destruct v as [|c t]; [reflexivity|].
  destruct (isspace c) eqn:Ec; [|now apply lstrip_head].
  (* the first character of [rstrip (lstrip (c :: t))] is no white space *)
  exfalso. simpl in H. rewrite Ec in H.
  assert (Hh : forall s, match rstrip (lstrip s) with
                         | [] => True
                         | x :: _ => isspace x = false
                         end).
  { clear. induction s as [|x s IH]; [exact I|].
    simpl. destruct (isspace x) eqn:Ex; [exact IH|].
    change (rstrip (x :: s)) with
      (match rstrip s with [] => if isspace x then [] else [x] | r => x :: r end).
    destruct (rstrip s); [rewrite Ex|]; exact Ex. }
  specialize (Hh t). rewrite H in Hh. congruence.
Qed.

Lemma line_entry_render (kv : str * str) :
  entry_ok kv = true -> line_entry (render_entry kv) = Some kv.
Proof.
  destruct kv as [k v]. unfold entry_ok, render_entry. cbn [fst snd].
  intros H. repeat (apply andb_true_iff in H as [H ?]).
  match goal with Hs : bool_decide _ = true |- _ => apply bool_decide_eq_true in Hs end.
  match goal with
    Hn : negb (bool_decide (k = [])) = true |- _ =>
      apply negb_true_iff, bool_decide_eq_false in Hn
  end.
  match goal with
    Hc : negb (startswith1 59 k) = true |- _ => apply negb_true_iff in Hc
  end.
  destruct k as [|c p]; [congruence|].
  unfold line_entry. cbv zeta.
  rewrite strip_app_solid by assumption.
  rewrite rstrip_cons_solid by reflexivity.
  rewrite (stripped_rstrip v) by assumption.
  rewrite bool_decide_eq_false_2 by discriminate.
  match goal with
    Hc : startswith1 59 (c :: p) = false |- _ =>
      change (startswith1 59 ((c :: p) ++ 61 :: v)) with (startswith1 59 (c :: p));
      rewrite Hc
  end.
  cbn [orb]. rewrite split1_app_solid by assumption.
  cbn [split1]. rewrite N.eqb_refl, app_nil_r.
  rewrite strip_solid by assumption.
  unfold strip. now match goal with Hs : rstrip (lstrip v) = v |- _ => rewrite Hs end.
Qed.

Lemma tameb_render (kv : str * str) :
  entry_ok kv = true -> tameb (render_entry kv) = true.
Proof.
  destruct kv as [k v]. unfold entry_ok, render_entry. cbn [fst snd].
  intros H. repeat (apply andb_true_iff in H as [H ?]).
  rewrite tameb_app, (solidb_tameb k H). simpl. assumption.
Qed.

Lemma parse_rendered (entries : list (str * str)) (values : gmap str str) :
  forallb entry_ok entries = true ->
  fold_left parse_line (map render_entry entries) values
  = fold_left (fun m kv => <[fst kv := snd kv]> m) entries values.
Proof.
  revert values. induction entries as [|kv entries IH]; intros values H;
    [reflexivity|].
  simpl in H. apply andb_true_iff in H as [Hk H].
  simpl. rewrite parse_line_entry, (line_entry_render kv Hk).
  destruct kv as [k v]. now apply IH.
Qed.

Lemma insert_all_rev (entries : list (str * str)) :
  fold_left (fun (m : gmap str str) kv => <[fst kv := snd kv]> m) entries ∅
  = list_to_map (rev entries).
Proof.
  induction entries as [|kv entries IH] using rev_ind; [reflexivity|].
  rewrite fold_left_app, rev_app_distr. simpl. now rewrite IH.
Qed.

Lemma last_rendered (entries : list (str * str)) :
  List.last (map render_entry entries) [0] <> [].
Proof.
  induction entries as [|kv entries IH] using rev_ind; [discriminate|].
  rewrite map_app. simpl map. rewrite last_last.
  unfold render_entry. destruct (fst kv); discriminate.
Qed.

(** What the decoder makes of a file of entries. *)
Lemma parse_entries (fs : filesystem) (path linesep : str)
    (entries : list (str * str)) :
  linesep = [10] \/ linesep = [13; 10] ->
  forallb entry_ok entries = true ->
  fs path = Massive.write_text linesep (join [10] (map render_entry entries)) ->
  parse_set_file fs path = list_to_map (rev entries).
Proof.
  intros Hsep Hok Hfs.
  rewrite (parse_written fs path linesep (map render_entry entries)); try assumption.
  - rewrite parse_rendered by assumption. apply insert_all_rev.
  - apply Forall_map. rewrite forallb_forall in Hok.
    apply Forall_forall. intros kv Hkv. apply tameb_render, Hok.
    now apply list_elem_of_In.
  - apply last_rendered.
Qed.

(* ===================================================================== *)
(** ** The parity check: counting and comparing                           *)
(* ===================================================================== *)

Lemma fresh_from_NoDup (seen : MSetPositive.PositiveSet.t) (l : list positive) :
  fresh_from seen l = true ->
  NoDup l /\ forall x, x ∈ l -> ~ MSetPositive.PositiveSet.In x seen.
Proof.
  revert seen. induction l as [|x t IH]; intros seen H.
  - split; [constructor|]. intros x Hx. inversion Hx.
  - simpl in H. apply andb_true_iff in H as [Hx Ht].
    apply negb_true_iff in Hx.
    assert (Hx' : ~ MSetPositive.PositiveSet.In x seen).
    { intros Hin. apply MSetPositive.PositiveSet.mem_spec in Hin. congruence. }
    destruct (IH _ Ht) as [Hn Hf]. split.
    + constructor; [|exact Hn]. intros Hin. apply (Hf x Hin).
      apply MSetPositive.PositiveSet.add_spec. now left.
    + intros y Hy. apply elem_of_cons in Hy as [->|Hy]; [exact Hx'|].
      intros Hin. apply (Hf y Hy).
      apply MSetPositive.PositiveSet.add_spec. now right.
Qed.

Lemma logic_keys_NoDup : NoDup all_logic_keys.
Proof.
  apply (NoDup_fmap_1 key_number).
  apply (fresh_from_NoDup MSetPositive.PositiveSet.empty).
  vm_compute. reflexivity.
Qed.

Lemma occurrences_app (x : str) (a b : list str) :
  occurrences x (a ++ b) = (occurrences x a + occurrences x b)%nat.
Proof. unfold occurrences. now rewrite filter_app, length_app. Qed.

Lemma occurrences_cons (x y : str) (l : list str) :
  occurrences x (y :: l)
  = ((if bool_decide (y = x) then 1 else 0) + occurrences x l)%nat.
Proof.
  unfold occurrences. destruct (decide (y = x)) as [E|E].
  - rewrite filter_cons_True by assumption.
    now rewrite bool_decide_eq_true_2 by assumption.
  - rewrite filter_cons_False by assumption.
    now rewrite bool_decide_eq_false_2 by assumption.
Qed.

Lemma occurrences_flat_map {A : Type} (x : str) (f g : A -> list str)
    (y : str) (l : list A) :
  (forall a, In a l -> occurrences x (f a) = occurrences y (g a)) ->
  occurrences x (flat_map f l) = occurrences y (flat_map g l).
Proof.
  induction l as [|a l IH]; intros H; [reflexivity|].
  simpl. rewrite !occurrences_app, (H a (or_introl eq_refl)).
  rewrite IH; [reflexivity|]. intros b Hb. apply H. now right.
Qed.

Lemma occurrences_none (x : str) (l : list str) :
  (forall y, In y l -> y <> x) -> occurrences x l = 0%nat.
Proof.
  induction l as [|y l IH]; intros H; [reflexivity|].
  rewrite occurrences_cons, bool_decide_eq_false_2 by (apply H; now left).
  apply IH. intros z Hz. apply H. now right.
Qed.

Lemma occurrences_NoDup (x : str) (l : list str) :
  NoDup l -> In x l -> occurrences x l = 1%nat.
Proof.
  induction 1 as [|y l Hy Hn IH]; intros Hin; [destruct Hin|].
  rewrite occurrences_cons. destruct Hin as [->|Hin].
  - rewrite bool_decide_eq_true_2 by reflexivity.
    rewrite occurrences_none; [reflexivity|].
    intros z Hz ->. apply Hy. now apply list_elem_of_In.
  - rewrite bool_decide_eq_false_2.
    + now rewrite IH.
    + intros ->. apply Hy. now apply list_elem_of_In.
Qed.

(** The messages for a missing key, among the messages of one look-up
    loop. *)
Lemma occurrences_missing (set_values : gmap str str) (what k : str)
    (keys : list str) :
  set_values !! k = None ->
  occurrences (what ++ k) (missing_keys set_values what keys) = occurrences k keys.
Proof.
  intros Hk. induction keys as [|key keys IH]; [reflexivity|].
  unfold missing_keys in *. simpl. rewrite occurrences_app, IH.
  rewrite (occurrences_cons k key). f_equal.
  destruct (decide (key = k)) as [->|Hne].
  - rewrite bool_decide_eq_true_2 by assumption.
    rewrite occurrences_cons, bool_decide_eq_true_2 by reflexivity.
    now rewrite bool_decide_eq_true_2 by reflexivity.
  - rewrite (bool_decide_eq_false_2 (key = k)) by assumption.
    destruct (bool_decide (set_values !! key = None)); [|reflexivity].
    rewrite occurrences_cons, bool_decide_eq_false_2; [reflexivity|].
    intros E. now apply app_inv_head in E.
Qed.

Lemma messages_differ (what what' k k' : str) :
  length what = length what' -> what <> what' -> what' ++ k' <> what ++ k.
Proof.
  intros Hl Hne E. apply app_inj_1 in E as [E _]; [|now symmetry]. congruence.
Qed.

Lemma occurrences_other (set_values : gmap str str) (what what' k : str)
    (keys : list str) :
  length what = length what' -> what <> what' ->
  occurrences (what ++ k) (missing_keys set_values what' keys) = 0%nat.
Proof.
  intros Hl Hne. apply occurrences_none. intros y Hy.
  apply in_missing_keys in Hy as (k' & _ & _ & ->).
  now apply messages_differ.
Qed.

Lemma occurrences_group_key (set_values : gmap str str) (k : str) :
  set_values !! k = None ->
  occurrences (lit "Missing group key: " ++ k) (missing_everywhere set_values)
  = occurrences k group_key_checks.
Proof.
  intros Hk. unfold missing_everywhere, group_key_checks, all_group_keys.
  apply occurrences_flat_map. intros engine_id _.
  apply occurrences_flat_map. intros group _.
  unfold missing_in_group. rewrite occurrences_app.
  rewrite (occurrences_missing _ _ _ _ Hk).
  rewrite (occurrences_none _ (flat_map _ canonical_logics)); [lia|].
  intros y Hy. apply in_flat_map in Hy as (logic_name & _ & Hy).
  apply in_missing_keys in Hy as (k' & _ & _ & ->).
  apply messages_differ; [reflexivity | discriminate].
Qed.

Lemma occurrences_logic_key (set_values : gmap str str) (k : str) :
  set_values !! k = None ->
  occurrences (lit "Missing logic key: " ++ k) (missing_everywhere set_values)
  = occurrences k all_logic_keys.
Proof.
  intros Hk. unfold missing_everywhere, all_logic_keys.
  apply occurrences_flat_map. intros engine_id _.
  apply occurrences_flat_map. intros group _.
  unfold missing_in_group. rewrite occurrences_app.
  rewrite occurrences_other by (reflexivity || discriminate).
  apply occurrences_flat_map. intros logic_name _.
  now apply occurrences_missing.
Qed.

Lemma group_keys_thrice :
  forallb (fun k => Nat.eqb (occurrences k group_key_checks) 3) all_group_keys = true.
Proof. vm_compute. reflexivity. Qed.

(** *** More keys, fewer errors *)

Lemma missing_keys_sublist (m m' : gmap str str) (what : str) (keys : list str) :
  (forall k, is_Some (m !! k) -> is_Some (m' !! k)) ->
  sublist (missing_keys m' what keys) (missing_keys m what keys).
Proof.
  intros H. induction keys as [|k keys IH]; [constructor|].
  unfold missing_keys in *. simpl.
  apply sublist_app; [|exact IH].
  destruct (m !! k) as [v|] eqn:E.
  - destruct (H k) as [v' E']; [rewrite E; eauto|].
    rewrite E'. rewrite !bool_decide_eq_false_2 by discriminate. constructor.
  - rewrite (bool_decide_eq_true_2 (None = None)) by reflexivity.
    destruct (bool_decide (m' !! k = None)); [reflexivity|].
    apply sublist_nil_l.
Qed.

Lemma flat_map_sublist {A B : Type} (f g : A -> list B) (l : list A) :
  (forall a, sublist (f a) (g a)) -> sublist (flat_map f l) (flat_map g l).
Proof.
  intros H. induction l as [|a l IH]; [constructor|].
  simpl. now apply sublist_app.
Qed.

Lemma missing_everywhere_sublist (m m' : gmap str str) :
  (forall k, is_Some (m !! k) -> is_Some (m' !! k)) ->
  sublist (missing_everywhere m') (missing_everywhere m).
Proof.
  intros H. unfold missing_everywhere.
  apply flat_map_sublist. intros engine_id.
  apply flat_map_sublist. intros group.
  unfold missing_in_group. apply sublist_app.
  - now apply missing_keys_sublist.
  - apply flat_map_sublist. intros logic_name. now apply missing_keys_sublist.
Qed.

(** *** The check passes *)

(** The parity validator returns no message exactly when the mapping is not
    empty and holds every expected key. *)
Lemma validate_set_file_parity_nil :
  forall (fs : filesystem) (set_file : str),
    validate_set_file_parity fs set_file = ([], [])
    <-> parse_set_file fs set_file <> ∅
        /\ forall k, In k all_expected_keys ->
                     is_Some (parse_set_file fs set_file !! k).
Proof.
  intros fs set_file. rewrite validate_set_file_parity_eq.
  destruct (decide (parse_set_file fs set_file = ∅)) as [E|E].
  - rewrite bool_decide_eq_true_2 by assumption.
    split; [discriminate | now intros [H _]].
  - rewrite bool_decide_eq_false_2 by assumption.
    rewrite <- missing_everywhere_nil. split.
    + intros [= H]. now split.
    + intros [_ H]. now rewrite H.
Qed.

(* ===================================================================== *)
(** ** The structural validator: when it reports nothing                  *)
(* ===================================================================== *)

Lemma missing_nil (v : json) (k : str) (m : msg) :
  missing v k m = [] <-> has v k = true.
Proof.
  unfold missing, has. destruct (lacks v k); simpl; split; congruence.
Qed.

Lemma missing_fields_nil (v : json) (m : str -> msg) (fields : list str) :
  flat_map (fun f => missing v f (m f)) fields = []
  <-> forallb (has v) fields = true.
Proof.
  rewrite flat_map_nil_iff, forallb_forall. split; intros H f Hf.
  - apply (missing_nil v f (m f)), H, Hf.
  - apply missing_nil, H, Hf.
Qed.

Lemma app_nil_iff {A : Type} (a b : list A) : a ++ b = [] <-> a = [] /\ b = [].
Proof.
  split; [apply app_eq_nil | now intros [-> ->]].
Qed.

Lemma logic_errors_nil (engine_id g_num logic : json) :
  logic_errors engine_id g_num logic = [] <-> complete_logic g_num logic = true.
Proof.
  unfold logic_errors, complete_logic. cbv zeta.
  rewrite !app_nil_iff, missing_fields_nil, !andb_true_iff.
  assert (H1 : (if negb (named_power logic)
                then missing logic (lit "start_level")
                       (msg_start_level engine_id g_num (name_of logic))
                     ++ missing logic (lit "last_lot")
                          (msg_last_lot engine_id g_num (name_of logic))
                else []) = []
               <-> named_power logic
                   || has logic (lit "start_level") && has logic (lit "last_lot")
                   = true).
  { destruct (named_power logic); simpl; [tauto|].
    now rewrite app_nil_iff, !missing_nil, andb_true_iff. }
  assert (H2 : (if py_eq_int g_num 1
                then missing logic (lit "trigger_type")
                       (msg_trigger_type engine_id (name_of logic))
                     ++ missing logic (lit "trigger_bars")
                          (msg_trigger_bars engine_id (name_of logic))
                     ++ missing logic (lit "trigger_minutes")
                          (msg_trigger_minutes engine_id (name_of logic))
                else []) = []
               <-> negb (py_eq_int g_num 1)
                   || has logic (lit "trigger_type") && has logic (lit "trigger_bars")
                      && has logic (lit "trigger_minutes")
                   = true).
  { destruct (py_eq_int g_num 1); simpl; [|tauto].
    rewrite !app_nil_iff, !missing_nil, !andb_true_iff. tauto. }
  rewrite H1, H2. tauto.
Qed.

Lemma group_errors_nil (engine_id group : json) :
  group_errors engine_id group = [] <-> complete_group group = true.
Proof.
  unfold group_errors, complete_group.
  rewrite app_nil_iff, missing_fields_nil, andb_true_iff.
  assert (H : flat_map (logic_errors engine_id (number_of group)) (logics_of group) = []
              <-> forallb (complete_logic (number_of group)) (logics_of group) = true).
  { rewrite flat_map_nil_iff, forallb_forall.
    split; intros H logic Hl;
      [apply (logic_errors_nil engine_id) | apply logic_errors_nil]; now apply H. }
  rewrite H. tauto.
Qed.

Lemma doc_errors_nil (data : json) :
  doc_errors data = [] <-> complete_document data = true.
Proof.
  unfold doc_errors, complete_document.
  destruct (truthy (field data (lit "engines") (JArr []))); simpl;
    [|split; discriminate].
  rewrite flat_map_nil_iff, forallb_forall. unfold engine_errors.
  split; intros H engine He.
  - apply forallb_forall. intros group Hg.
    apply (group_errors_nil (id_of engine)).
    specialize (H engine He). rewrite flat_map_nil_iff in H. now apply H.
  - apply flat_map_nil_iff. intros group Hg. apply group_errors_nil.
    specialize (H engine He). rewrite forallb_forall in H. now apply H.
Qed.

(* ===================================================================== *)
(** ** The structural validator: what it raises                           *)
(* ===================================================================== *)

Lemma mildly_lift {A : Type} (x : result A) :
  (forall e, x = Raise e -> type_failure e) -> mildly (lift x).
Proof.
  intros H r e. unfold lift. destruct x as [a|e']; [discriminate|].
  intros [= <-]. now apply H.
Qed.

Lemma mildly_bind {A B : Type} (m : M A) (k : A -> M B) :
  mildly m -> (forall a, mildly (k a)) -> mildly (m ≫= k).
Proof.
  intros Hm Hk r e. unfold mbind, M_bind, bind.
  destruct (m r) as [[a r']|e'] eqn:E.
  - apply Hk.
  - intros [= <-]. now apply (Hm r).
Qed.

Lemma mildly_ret {A : Type} (a : A) : mildly (ret a).
Proof. intros r e. discriminate. Qed.

Lemma mildly_append_error (m : msg) : mildly (append_error m).
Proof. intros r e. discriminate. Qed.

Lemma mildly_append_warning (m : msg) : mildly (append_warning m).
Proof. intros r e. discriminate. Qed.

Lemma mildly_when (b : bool) (m : M unit) : mildly m -> mildly (when b m).
Proof. intros H. destruct b; [exact H | apply mildly_ret]. Qed.

Lemma mildly_for_each {A : Type} (l : list A) (body : A -> M unit) :
  (forall x, mildly (body x)) -> mildly (for_each l body).
Proof.
  intros H. induction l as [|x l IH]; [apply mildly_ret|].
  simpl. apply mildly_bind; [apply H | intros _; exact IH].
Qed.

Lemma py_get_raises (v : json) (k : str) (d : json) (e : exn) :
  py_get v k d = Raise e -> type_failure e.
Proof. destruct v; intros [= <-]; now left. Qed.

Lemma py_has_raises (v : json) (k : str) (e : exn) :
  py_has v k = Raise e -> type_failure e.
Proof. destruct v; intros [= <-]; now right. Qed.

Lemma py_len_raises (v : json) (e : exn) : py_len v = Raise e -> type_failure e.
Proof. destruct v; intros [= <-]; now right. Qed.

Lemma py_iter_raises (v : json) (e : exn) : py_iter v = Raise e -> type_failure e.
Proof. destruct v; intros [= <-]; now right. Qed.

Lemma py_lower_raises (v : json) (e : exn) : py_lower v = Raise e -> type_failure e.
Proof. destruct v; intros [= <-]; now left. Qed.

(** Walk through a body of the validator. *)
Ltac mild :=
  repeat first
    [ apply mildly_ret
    | apply mildly_append_error
    | apply mildly_append_warning
    | apply mildly_when
    | apply mildly_for_each; intros ?
    | apply mildly_lift; intros ?;
      first [ apply py_get_raises | apply py_has_raises | apply py_len_raises
            | apply py_iter_raises | apply py_lower_raises ]
    | apply mildly_bind; [|intros ?] ].

Lemma mildly_require (v : json) (k : str) (m : msg) : mildly (require v k m).
Proof. unfold require. mild. Qed.

Lemma mildly_logic_body (engine_id g_num logic : json) :
  mildly (logic_body engine_id g_num logic).
Proof. unfold logic_body. mild; apply mildly_require. Qed.

Lemma mildly_group_body (engine_id group : json) : mildly (group_body engine_id group).
Proof.
  unfold group_body. mild; first [apply mildly_require | apply mildly_logic_body].
Qed.

Lemma mildly_engine_body (engine : json) : mildly (engine_body engine).
Proof. unfold engine_body. mild; apply mildly_group_body. Qed.

Lemma validate_raises (data : json) (e : exn) :
  validate_json_structure data = Raise e -> type_failure e.
Proof.
  unfold validate_json_structure. cbv zeta.
  match goal with
  | |- match ?w (Report [] []) with _ => _ end = _ -> _ =>
      assert (Hw : mildly w)
  end.
  { apply mildly_bind; [mild|]. intros engines.
    destruct (negb (truthy engines)); [apply mildly_append_error|].
    mild; apply mildly_engine_body. }
  specialize (Hw (Report [] [])).
  match goal with
  | |- match ?x with _ => _ end = _ -> _ => destruct x as [[u r]|e']
  end.
  - discriminate.
  - intros [= <-]. now apply Hw.
Qed.

Lemma validate_not_object (data : json) :
  is_obj data = false -> validate_json_structure data = Raise AttributeError.
Proof. destruct data; try discriminate; reflexivity. Qed.

(* ===================================================================== *)
(** ** Suffixes determine their logic                                     *)
(* ===================================================================== *)

Lemma uint_digits_inj (d d' : Decimal.uint) :
  uint_digits d = uint_digits d' -> d = d'.
Proof.
  revert d'. induction d; intros d'; destruct d'; simpl; intros H;
    try discriminate; try reflexivity;
    injection H as H; f_equal; now apply IHd.
Qed.

Lemma uint_digits_no_minus (d : Decimal.uint) (t : str) : uint_digits d <> 45 :: t.
Proof. destruct d; discriminate. Qed.

(** [str(n)] determines [n]. *)
Lemma str_of_int_inj (z z' : Z) : str_of_int z = str_of_int z' -> z = z'.
Proof.
  unfold str_of_int. intros H.
  rewrite <- (DecimalZ.of_to z), <- (DecimalZ.of_to z'). f_equal.
  destruct (Z.to_int z) as [d|d], (Z.to_int z') as [d'|d'].
  - f_equal. now apply uint_digits_inj.
  - now apply uint_digits_no_minus in H.
  - symmetry in H. now apply uint_digits_no_minus in H.
  - injection H as H. f_equal. now apply uint_digits_inj.
Qed.

Lemma capital_not_digit (c : N) : capital c = true -> digit_or_minus c = true -> False.
Proof.
  unfold capital, digit_or_minus, isdigit.
  intros [H1 H2]%andb_true_iff [[H3 H4]%andb_true_iff|H3%N.eqb_eq]%orb_true_iff;
    apply N.leb_le in H1, H2; try apply N.leb_le in H3; try apply N.leb_le in H4; lia.
Qed.

(** Letters followed by a number split in one way only. *)
Lemma letters_number_inj (w w' : str) (z z' : Z) :
  Forall (fun c => capital c = true) w -> Forall (fun c => capital c = true) w' ->
  w ++ str_of_int z = w' ++ str_of_int z' -> w = w' /\ z = z'.
Proof.
  intros Hw. revert w'. induction Hw as [|c w Hc Hw IH]; intros w' Hw' E.
  - destruct Hw' as [|c' w' Hc' Hw']; [split; [reflexivity | now apply str_of_int_inj]|].
    exfalso. simpl in E. destruct (str_of_int_head z) as (c & t & Ez & Hd).
    rewrite Ez in E. injection E as -> _. now apply (capital_not_digit c').
  - destruct Hw' as [|c' w' Hc' Hw'].
    + exfalso. simpl in E. destruct (str_of_int_head z') as (c' & t & Ez & Hd).
      rewrite Ez in E. injection E as -> _. now apply (capital_not_digit c').
    + simpl in E. injection E as -> E. destruct (IH w' Hw' E) as [-> ->]. now split.
Qed.

(** The short names of the 21 known logics are pairwise distinct. *)
Lemma get_short_known_inj (e l e' l' : str) :
  In e expected_engines -> In e' expected_engines ->
  In l canonical_logics -> In l' canonical_logics ->
  get_short e l = get_short e' l' -> e = e' /\ l = l'.
Proof.
  unfold expected_engines, canonical_logics. cbn [map In].
  intros He He' Hl Hl' H.
  split_in He; split_in He'; split_in Hl; split_in Hl'; subst;
    first [ split; reflexivity | vm_compute in H; discriminate H ].
Qed.

(* ===================================================================== *)
(** ** UTF-16 LE                                                          *)
(* ===================================================================== *)

Lemma utf16_units_range (c : N) :
  scalar c = true -> Forall (fun u => u < 65536) (utf16_units c).
Proof.
  unfold scalar, utf16_units. intros Hs.
  destruct (c <? 65536) eqn:E.
  - apply N.ltb_lt in E. now repeat constructor.
  - apply N.ltb_ge in E.
    apply orb_true_iff in Hs as [Hs|Hs]; [apply N.ltb_lt in Hs; lia|].
    apply andb_true_iff in Hs as [_ Hs]. apply N.ltb_lt in Hs.
    assert ((c - 65536) / 1024 < 1024) by (apply N.Div0.div_lt_upper_bound; lia).
    assert ((c - 65536) mod 1024 < 1024) by (apply N.mod_lt; lia).
    set (q := (c - 65536) / 1024) in *. set (m := (c - 65536) mod 1024) in *.
    repeat constructor; lia.
Qed.

Lemma utf16le_units_bytes (us : list N) :
  utf16le_units (flat_map (fun u => [u mod 256; u / 256]) us) = Some us.
Proof.
  induction us as [|u us IH]; [reflexivity|].
  cbn [flat_map app utf16le_units]. rewrite IH. cbn [fmap option_fmap option_map].
  f_equal. f_equal. pose proof (N.div_mod u 256 ltac:(lia)) as Hd.
  set (q := u / 256) in *. set (m := u mod 256) in *. lia.
Qed.

Lemma utf16_points_units (s : str) :
  forallb scalar s = true -> utf16_points (flat_map utf16_units s) = Some s.
Proof.
  induction s as [|c s IH]; [reflexivity|].
  simpl forallb. intros [Hc Hs]%andb_true_iff. specialize (IH Hs).
  cbn [flat_map]. unfold utf16_units at 1. unfold scalar in Hc.
  destruct (c <? 65536) eqn:E.
  - cbn [app utf16_points].
    assert (Hr : (c <? 55296) || (57343 <? c) = true).
    { apply orb_true_iff in Hc as [Hc|Hc]; [now rewrite Hc|].
      apply andb_true_iff in Hc as [Hc _]. rewrite Hc. apply orb_true_r. }
    rewrite Hr, IH. reflexivity.
  - apply N.ltb_ge in E.
    apply orb_true_iff in Hc as [Hc|Hc]; [apply N.ltb_lt in Hc; lia|].
    apply andb_true_iff in Hc as [_ Hc]. apply N.ltb_lt in Hc.
    assert (Hq : (c - 65536) / 1024 < 1024) by (apply N.Div0.div_lt_upper_bound; lia).
    assert (Hm : (c - 65536) mod 1024 < 1024) by (apply N.mod_lt; lia).
    cbn [app utf16_points].
    pose proof (N.div_mod (c - 65536) 1024 ltac:(lia)) as Hd.
    set (q := (c - 65536) / 1024) in *. set (m := (c - 65536) mod 1024) in *.
    replace ((55296 + q <? 55296) || (57343 <? 55296 + q)) with false
      by (symmetry; apply orb_false_iff; split;
          [apply N.ltb_ge | apply N.ltb_ge]; lia).
    replace (55296 + q <=? 56319) with true by (symmetry; apply N.leb_le; lia).
    replace ((56320 <=? 56320 + m) && (56320 + m <=? 57343)) with true
      by (symmetry; apply andb_true_iff; split; apply N.leb_le; lia).
    rewrite IH. cbn [fmap option_fmap option_map]. f_equal. f_equal. lia.
Qed.

Lemma utf16le_round_trip (s : str) :
  forallb scalar s = true -> utf16le_decode (utf16le_encode s) = Some s.
Proof.
  intros Hs. unfold utf16le_decode, utf16le_encode.
  rewrite utf16le_units_bytes. now apply utf16_points_units.
Qed.

Lemma utf16le_encode_bytes (s : str) :
  forallb scalar s = true -> Forall (fun b => b < 256) (utf16le_encode s).
Proof.
  intros Hs. unfold utf16le_encode. apply Forall_flat_map, Forall_forall.
  intros u Hu. apply list_elem_of_In, in_flat_map in Hu as (c & Hc & Hu).
  rewrite forallb_forall in Hs. specialize (Hs c Hc).
  pose proof (utf16_units_range c Hs) as Hr. rewrite Forall_forall in Hr.
  specialize (Hr u (proj2 (list_elem_of_In _ _) Hu)).
  assert (u / 256 < 256) by (apply N.Div0.div_lt_upper_bound; lia).
  assert (u mod 256 < 256) by (apply N.mod_lt; lia).
  now repeat constructor.
Qed.

Lemma utf8_bytes_range (s : str) :
  forallb scalar s = true -> Forall (fun b => b < 256) (flat_map utf8_char s).
Proof.
  intros Hs. apply Forall_flat_map, Forall_forall. intros c Hc%list_elem_of_In.
  apply utf8_char_bytes. rewrite forallb_forall in Hs. now apply Hs.
Qed.

Lemma decode_utf16_file (s : str) :
  forallb scalar s = true -> decode_content (utf16_file s) = Ok s.
Proof.
  intros Hs. unfold utf16_file, decode_content.
  rewrite to_N_bytes by now apply utf16le_encode_bytes.
  now rewrite utf16le_round_trip.
Qed.

Lemma decode_utf8_bytes (s : str) :
  forallb scalar s = true -> decode_content (utf8_bytes s) = Ok s.
Proof.
  intros Hs. assert (E : utf8_encode s = Some (utf8_bytes s)).
  { unfold utf8_encode. now rewrite Hs. }
  rewrite decode_content_utf8 by (intros rest; eapply encoded_no_bom; exact E).
  now rewrite (utf8_round_trip _ _ E).
Qed.

Lemma decode_utf8_marked_file (s : str) :
  forallb scalar s = true -> decode_content (utf8_marked_file s) = Ok (65279 :: s).
Proof.
  intros Hs.
  assert (E : utf8_marked_file s = utf8_bytes (65279 :: s)) by reflexivity.
  rewrite E. apply decode_utf8_bytes. simpl. exact Hs.
Qed.

(* ===================================================================== *)
(** ** What the decoded keys and values look like                         *)
(* ===================================================================== *)

Lemma stripped_head (s : str) :
  match rstrip (lstrip s) with
  | [] => True
  | x :: _ => isspace x = false
  end.
Proof.
  induction s as [|x s IH]; [exact I|].
  simpl. destruct (isspace x) eqn:Ex; [exact IH|].
  change (rstrip (x :: s)) with
    (match rstrip s with [] => if isspace x then [] else [x] | r => x :: r end).
  destruct (rstrip s); [rewrite Ex|]; exact Ex.
Qed.

Lemma lstrip_stripped (s : str) : lstrip (rstrip (lstrip s)) = rstrip (lstrip s).
Proof.
  pose proof (stripped_head s) as H. destruct (rstrip (lstrip s)) as [|x t];
    [reflexivity | now apply lstrip_head].
Qed.

Lemma strip_idem (s : str) : strip (strip s) = strip s.
Proof. unfold strip. now rewrite lstrip_stripped, rstrip_idem. Qed.

Lemma lstrip_incl (s : str) (c : N) : In c (lstrip s) -> In c s.
Proof.
  induction s as [|x s IH]; [intros []|].
  simpl. destruct (isspace x); [intros H; right; now apply IH | exact id].
Qed.

Lemma rstrip_incl (s : str) (c : N) : In c (rstrip s) -> In c s.
Proof.
  revert c. induction s as [|x s IH]; intros c; [intros []|].
  simpl. destruct (rstrip s) as [|r0 r].
  - destruct (isspace x); [intros [] | intros [->|[]]; now left].
  - intros [->|H]; [now left | right; now apply IH].
Qed.

Lemma strip_incl (s : str) (c : N) : In c (strip s) -> In c s.
Proof. intros H. now apply lstrip_incl, rstrip_incl. Qed.

Lemma rstrip_keeps_head (c : N) (t : str) :
  isspace c = false -> exists r, rstrip (c :: t) = c :: r.
Proof.
  intros H. simpl. destruct (rstrip t); [rewrite H|]; eauto.
Qed.

(** The lines of [splitlines] hold no line boundary. *)
Lemma splitlines_one_line (s : str) : Forall one_line (splitlines s).
Proof.
  assert (H : forall n s, (length s <= n)%nat -> Forall one_line (splitlines s)).
  { clear s. induction n as [|n IH]; intros s Hn.
    - destruct s; [constructor | simpl in Hn; lia].
    - destruct s as [|c t]; [constructor|]. simpl in Hn.
      cbn [splitlines]. destruct (islinebreak c) eqn:Ec.
      + apply Forall_cons_2; [constructor|].
        destruct t as [|c' t']; [constructor|].
        destruct ((c =? 13) && (c' =? 10)); apply IH; simpl in *; lia.
      + specialize (IH t ltac:(lia)).
        destruct (splitlines t) as [|l ls].
        * apply Forall_cons_2; [|constructor]. now repeat constructor.
        * inversion IH as [|? ? Hl Hls]; subst.
          apply Forall_cons_2; [|exact Hls]. now constructor. }
  now apply (H (length s)).
Qed.

(** The entries of a line: key and value are trimmed, the key holds no
    [=] and does not begin with [;], neither holds a line boundary when the
    line holds none. *)
Lemma entry_clean (line k v : str) :
  line_entry line = Some (k, v) ->
  strip k = k /\ strip v = v /\ ~ In 61 k /\ startswith1 59 k = false
  /\ (one_line line -> one_line k /\ one_line v).
Proof.
  intros (Hne & Hc & a & b & El & Ha & -> & ->)%line_entry_entry.
  split; [apply strip_idem|]. split; [apply strip_idem|].
  split; [intros H; now apply Ha, strip_incl|]. split.
  - destruct a as [|c a']; [reflexivity|].
    pose proof (stripped_head line) as Hh. fold (strip line) in Hh.
    rewrite El in Hh, Hc. simpl in Hh, Hc.
    unfold strip. rewrite lstrip_head by assumption.
    destruct (rstrip_keeps_head c a' Hh) as [r ->]. exact Hc.
  - intros Hl.
    assert (Hs : one_line (strip line)).
    { apply Forall_forall. intros c Hin%list_elem_of_In%strip_incl.
      unfold one_line in Hl. rewrite Forall_forall in Hl.
      now apply Hl, list_elem_of_In. }
    rewrite El in Hs. unfold one_line in Hs. rewrite Forall_forall in Hs.
    split; apply Forall_forall; intros c Hin%list_elem_of_In%strip_incl;
      apply Hs, list_elem_of_In, in_or_app; [now left | right; now right].
Qed.

(* ===================================================================== *)
(** ** The trigger fields of group 1                                      *)
(* ===================================================================== *)

Lemma filter_flat_map {A B : Type} (p : B -> bool) (g : A -> list B) (l : list A) :
  List.filter p (flat_map g l) = flat_map (fun x => List.filter p (g x)) l.
Proof.
  induction l as [|x l IH]; [reflexivity|].
  simpl. now rewrite List.filter_app, IH.
Qed.

Lemma filter_none {A : Type} (p : A -> bool) (l : list A) :
  (forall x, In x l -> p x = false) -> List.filter p l = [].
Proof.
  induction l as [|x l IH]; intros H; [reflexivity|].
  simpl. rewrite (H x (or_introl eq_refl)). apply IH. intros y Hy. apply H. now right.
Qed.

Lemma flat_map_nothing {A B : Type} (l : list A) :
  flat_map (fun _ : A => @nil B) l = [].
Proof. induction l; [reflexivity | assumption]. Qed.

Lemma trigger_check_conditional f m : trigger_check f m -> In f conditional_fields.
Proof.
  unfold conditional_fields. cbn [map In].
  intros [[-> _] | [[-> _] | [-> _]]]; tauto.
Qed.

(** The errors of one logic that name a trigger field. *)
Lemma logic_errors_trigger f m engine_id g_num logic :
  trigger_check f m ->
  List.filter (about f) (logic_errors engine_id g_num logic)
  = if py_eq_int g_num 1
    then (if lacks logic f then [m engine_id (name_of logic)] else [])
    else [].
Proof.
  intros Hc. pose proof (trigger_check_conditional f m Hc) as Hf.
  unfold logic_errors. cbv zeta. rewrite List.filter_app.
  rewrite (filter_none (about f) (flat_map _ REQUIRED_LOGIC_FIELDS)).
  2:{ intros x (y & Hy & Hx)%in_flat_map. unfold missing in Hx.
      destruct (lacks logic y); [|destruct Hx].
      destruct Hx as [<-|[]]. now apply about_logic_field. }
  cbn [app]. unfold missing. generalize (name_of logic). intros n.
  destruct Hc as [[-> ->] | [[-> ->] | [-> ->]]];
    destruct (named_power logic), (py_eq_int g_num 1),
      (lacks logic (lit "start_level")), (lacks logic (lit "last_lot")),
      (lacks logic (lit "trigger_type")), (lacks logic (lit "trigger_bars")),
      (lacks logic (lit "trigger_minutes"));
    vm_compute; reflexivity.
Qed.

(** The errors of one group that name a trigger field. *)
Lemma group_errors_trigger f m engine_id group :
  trigger_check f m ->
  List.filter (about f) (group_errors engine_id group)
  = if py_eq_int (number_of group) 1
    then flat_map
           (fun logic => if lacks logic f then [m engine_id (name_of logic)] else [])
           (logics_of group)
    else [].
Proof.
  intros Hc. pose proof (trigger_check_conditional f m Hc) as Hf.
  unfold group_errors. rewrite List.filter_app.
  rewrite (filter_none (about f) (flat_map _ REQUIRED_GROUP_FIELDS)).
  2:{ intros x (y & Hy & Hx)%in_flat_map. unfold missing in Hx.
      destruct (lacks group y); [|destruct Hx].
      destruct Hx as [<-|[]]. now apply about_group_field. }
  cbn [app]. rewrite filter_flat_map.
  rewrite (flat_map_ext _ _ (fun logic => logic_errors_trigger f m _ _ logic Hc)).
  destruct (py_eq_int (number_of group) 1); [reflexivity | apply flat_map_nothing].
Qed.

(** The errors of the document that name a trigger field, in order. *)
Lemma doc_errors_trigger f m data :
  trigger_check f m ->
  List.filter (about f) (doc_errors data) = group_one_flags f m data.
Proof.
  intros Hc. unfold doc_errors, group_one_flags.
  destruct (truthy (field data (lit "engines") (JArr []))) eqn:Et.
  - rewrite filter_flat_map. apply flat_map_ext. intros engine.
    unfold engine_errors. rewrite filter_flat_map. apply flat_map_ext. intros group.
    now apply group_errors_trigger.
  - rewrite (falsy_no_engines _ Et). simpl.
    destruct Hc as [[-> _] | [[-> _] | [-> _]]]; vm_compute; reflexivity.
Qed.

(** *** The trigger keys *)

(** A key that is qualified by a group other than 1 does not begin like
    the trigger keys. *)
Lemma startswith_cons (x y : N) (p s : str) :
  startswith (x :: p) (y :: s) = (x =? y) && startswith p s.
Proof. reflexivity. Qed.

Lemma group_key_not_trigger (group : Z) (rest : str) :
  group <> 1%Z ->
  startswith (lit "gInput_G1_Trigger") (lit "gInput_G" ++ str_of_int group ++ 95 :: rest)
  = false.
Proof.
  intros Hg.
  change (startswith (49 :: 95 :: lit "Trigger") (str_of_int group ++ 95 :: rest)
          = false).
  pose proof (str_of_int_chars group) as Hc.
  destruct (str_of_int group) as [|c t] eqn:E; [now apply str_of_int_nonempty in E|].
  cbn [app]. rewrite startswith_cons.
  destruct (49 =? c) eqn:E1; [|reflexivity]. apply N.eqb_eq in E1. subst c.
  cbn [andb]. destruct t as [|c' t'].
  - destruct Hg. apply str_of_int_inj. rewrite E. reflexivity.
  - cbn [app]. rewrite startswith_cons.
    apply List.Forall_cons_iff in Hc as [_ Ht].
    apply List.Forall_cons_iff in Ht as [Hc' _].
    destruct (95 =? c') eqn:E2; [|reflexivity]. apply N.eqb_eq in E2.
    rewrite <- E2 in Hc'. vm_compute in Hc'. discriminate Hc'.
Qed.

(** The expected keys that begin like the trigger keys: the three keys of
    group 1, and none for another group. *)
Lemma trigger_keys engine_id group logic_name :
  List.filter (startswith (lit "gInput_G1_Trigger"))
    (generate_expected_set_keys engine_id group logic_name)
  = if (group =? 1)%Z
    then [ lit "gInput_G1_TriggerType_" ++ get_short engine_id logic_name;
           lit "gInput_G1_TriggerBars_" ++ get_short engine_id logic_name;
           lit "gInput_G1_TriggerMinutes_" ++ get_short engine_id logic_name ]
    else [].
Proof.
  pose proof (logic_abbrev_cases logic_name) as Hl. cbn [map In] in Hl.
  destruct (Z.eqb_spec group 1) as [->|Hg].
  - unfold generate_expected_set_keys, get_suffix, get_short. cbv zeta.
    destruct (engine_prefix_cases engine_id) as [-> | [-> | ->]];
      split_in Hl; rewrite <- Hl;
      destruct (negb (Py.eqb (lower logic_name) (lit "power")));
      vm_compute; reflexivity.
  - apply filter_none. intros k Hin.
    rewrite <- (firstn_skipn 31 (generate_expected_set_keys _ _ _)) in Hin.
    rewrite expected_keys_base, expected_keys_rest in Hin. cbv zeta in Hin.
    apply Z.eqb_neq in Hg as Hg'. rewrite Hg' in Hin. rewrite app_nil_r in Hin.
    unfold get_suffix, get_short in Hin.
    destruct (engine_prefix_cases engine_id) as [He | [He | He]]; rewrite He in Hin;
      split_in Hl; rewrite <- Hl in Hin;
      destruct (negb (Py.eqb (lower logic_name) (lit "power")));
      cbn [map app In] in Hin; split_in Hin; subst k;
      first [ reflexivity
            | now apply (group_key_not_trigger group) ].
Qed.
(* ===================================================================== *)
(** ** Running the entry points                                           *)
(* ===================================================================== *)

Lemma run_bind {A B : Type} (m : Cli.C A) (k : A -> Cli.C B) out out' a :
  m out = (out', Cli.Returns a) -> (m ≫= k) out = k a out'.
Proof.
  intros H. unfold mbind, Cli.C_bind, Cli.bind. now rewrite H.
Qed.

Lemma run_lift {A B : Type} (a : A) (k : A -> Cli.C B) out :
  (Cli.lift (Ok a) ≫= k) out = k a out.
Proof. reflexivity. Qed.

Lemma run_ret {A B : Type} (a : A) (k : A -> Cli.C B) out :
  (Cli.ret a ≫= k) out = k a out.
Proof. reflexivity. Qed.

(** *** What is printed, whatever the stream takes *)

Lemma printing_all {A : Type} (enc : msg -> bool) (l : list msg) (r : Cli.ending A) out :
  forallb (encodable enc) l = true -> printing enc l r out = (out ++ l, r).
Proof.
  revert out. induction l as [|m l IH]; intros out H; simpl.
  - now rewrite app_nil_r.
  - simpl in H. apply andb_true_iff in H as [Hm H]. rewrite Hm, IH by assumption.
    now rewrite <- app_assoc.
Qed.

Lemma printing_stops {A : Type} (enc : msg -> bool) (l l' : list msg) (m : msg)
    (r : Cli.ending A) out :
  forallb (encodable enc) l = true -> encodable enc m = false ->
  printing enc (l ++ m :: l') r out = (out ++ l, Cli.Raises UnicodeEncodeError).
Proof.
  revert out. induction l as [|x l IH]; intros out H Hm; simpl.
  - rewrite Hm. now rewrite app_nil_r.
  - simpl in H. apply andb_true_iff in H as [Hx H]. rewrite Hx, IH by assumption.
    now rewrite <- app_assoc.
Qed.

(** How it ends: as announced, or with [UnicodeEncodeError]. *)
Lemma printing_ends {A : Type} (enc : msg -> bool) (l : list msg) (r : Cli.ending A) out :
  snd (printing enc l r out) = r
  \/ snd (printing enc l r out) = Cli.Raises UnicodeEncodeError.
Proof.
  revert out. induction l as [|m l IH]; intros out; simpl; [now left|].
  destruct (encodable enc m); [apply IH | now right].
Qed.

Lemma prints_run {A : Type} (enc : msg -> bool) (c : Cli.C A) (l : list msg)
    (r : Cli.ending A) :
  prints enc c l r -> c [] = printing enc l r [].
Proof. intros H. apply H. Qed.

Lemma prints_ret {A : Type} (enc : msg -> bool) (a : A) :
  prints enc (Cli.ret a) [] (Cli.Returns a).
Proof. intros out. reflexivity. Qed.

Lemma prints_print {B : Type} (enc : msg -> bool) (p : part) (m : msg)
    (k : unit -> Cli.C B) (l : list msg) (r : Cli.ending B) :
  prints enc (k tt) l r ->
  prints enc (Cli.print enc (p :: m) ≫= k) ((p :: m) :: l) r.
Proof.
  intros H out. unfold mbind, Cli.C_bind, Cli.bind, Cli.print. simpl.
  destruct (enc (p :: m)); [apply H | reflexivity].
Qed.

Lemma prints_blank {B : Type} (enc : msg -> bool) (k : unit -> Cli.C B)
    (l : list msg) (r : Cli.ending B) :
  prints enc (k tt) l r -> prints enc (Cli.blank ≫= k) ([] :: l) r.
Proof. intros H out. apply H. Qed.

Lemma prints_lift {A B : Type} (enc : msg -> bool) (a : A) (k : A -> Cli.C B)
    (l : list msg) (r : Cli.ending B) :
  prints enc (k a) l r -> prints enc (Cli.lift (Ok a) ≫= k) l r.
Proof. intros H out. apply H. Qed.

Lemma prints_raise {A B : Type} (enc : msg -> bool) (e : exn) (k : A -> Cli.C B) :
  prints enc (Cli.lift (Raise e) ≫= k) [] (Cli.Raises e).
Proof. intros out. reflexivity. Qed.

Lemma prints_bind {A B : Type} (enc : msg -> bool) (c : Cli.C A) (k : A -> Cli.C B)
    (a : A) (l l' : list msg) (r : Cli.ending B) :
  prints enc c l (Cli.Returns a) -> prints enc (k a) l' r ->
  prints enc (c ≫= k) (l ++ l') r.
Proof.
  intros Hc Hk out. unfold mbind, Cli.C_bind, Cli.bind. rewrite Hc. clear Hc.
  revert out. induction l as [|m l IH]; intros out; simpl; [apply Hk|].
  destruct (encodable enc m); [apply IH | reflexivity].
Qed.

Lemma prints_last (enc : msg -> bool) (p : part) (m : msg) :
  prints enc (Cli.print enc (p :: m)) [p :: m] (Cli.Returns tt).
Proof.
  intros out. unfold Cli.print. simpl. destruct (enc (p :: m)); reflexivity.
Qed.

Lemma prints_each {A : Type} (enc : msg -> bool) (f : A -> msg) (l : list A) :
  (forall x, encodable enc (f x) = enc (f x)) ->
  prints enc (Cli.for_each l (fun x => Cli.print enc (f x))) (map f l) (Cli.Returns tt).
Proof.
  intros Hf. induction l as [|x l IH]; [apply prints_ret|].
  intros out. simpl. unfold mbind, Cli.C_bind, Cli.bind, Cli.print.
  rewrite Hf. destruct (enc (f x)); [apply IH | reflexivity].
Qed.

Lemma prints_when (enc : msg -> bool) (b : bool) (c : Cli.C unit) (l : list msg) :
  prints enc c l (Cli.Returns tt) ->
  prints enc (Cli.when b c) (if b then l else []) (Cli.Returns tt).
Proof. intros H. destruct b; [exact H | apply prints_ret]. Qed.

(** *** The summary of [validate_export] *)

(** A well-shaped document with engines holds them in a list of objects. *)
Lemma engines_list (data : json) :
  well_shaped data = true ->
  truthy (field data (lit "engines") (JArr [])) = true ->
  exists d engine rest,
    data = JObj d
    /\ field data (lit "engines") (JArr []) = JArr (engine :: rest)
    /\ forallb engine_ok (engine :: rest) = true.
Proof.
  unfold well_shaped, engines_of. intros Hw Ht. rewrite Ht in Hw. simpl in Hw.
  apply andb_true_iff in Hw as [Ho Hw]. apply andb_true_iff in Hw as [Hs He].
  destruct data as [| | | | | |d]; try discriminate. exists d.
  destruct (field (JObj d) (lit "engines") (JArr [])) as [| | | |s|l|d'];
    try discriminate.
  - destruct s as [|c s]; [discriminate|]. simpl in He. discriminate.
  - destruct l as [|engine rest]; [discriminate|]. now exists engine, rest.
  - destruct d' as [|[k v] d']; [discriminate|]. simpl in He. discriminate.
Qed.

Lemma group_total_ok (groups : list json) (total : Z) :
  forallb group_ok groups = true ->
  Massive.foldM
    (fun total group =>
       logics ← py_get group (lit "logics") (JArr []);
       n ← py_len logics;
       Ok (total + n)%Z)
    groups total
  = Ok (fold_left
          (fun t group => (t + count (field group (lit "logics") (JArr [])))%Z)
          groups total).
Proof.
  revert total. induction groups as [|group groups IH]; intros total H;
    [reflexivity|].
  simpl in H. apply andb_true_iff in H as [Hg H].
  unfold group_ok in Hg. apply andb_true_iff in Hg as [Hg _].
  apply andb_true_iff in Hg as [Ho Hs].
  destruct group as [| | | | | |d]; try discriminate.
  cbn [Massive.foldM py_get mbind result_bind].
  change (dict_get d (lit "logics") (JArr []))
    with (field (JObj d) (lit "logics") (JArr [])).
  rewrite (sized_len _ Hs). cbn [mbind result_bind]. now rewrite IH.
Qed.

Lemma engine_total_ok (engines : list json) (total : Z) :
  forallb engine_ok engines = true ->
  Massive.foldM
    (fun total engine =>
       groups ← py_get engine (lit "groups") (JArr []);
       gs ← py_iter groups;
       Massive.foldM
         (fun total group =>
            logics ← py_get group (lit "logics") (JArr []);
            n ← py_len logics;
            Ok (total + n)%Z)
         gs total)
    engines total
  = Ok (fold_left engine_total engines total).
Proof.
  revert total. induction engines as [|engine engines IH]; intros total H;
    [reflexivity|].
  simpl in H. apply andb_true_iff in H as [He H].
  unfold engine_ok in He. apply andb_true_iff in He as [He Hg].
  apply andb_true_iff in He as [Ho Hs].
  destruct engine as [| | | | | |d]; try discriminate.
  cbn [Massive.foldM py_get mbind result_bind].
  change (dict_get d (lit "groups") (JArr []))
    with (field (JObj d) (lit "groups") (JArr [])).
  rewrite (sized_items _ Hs). cbn [mbind result_bind].
  fold (groups_of (JObj d)). rewrite (group_total_ok _ _ Hg).
  cbn [mbind result_bind]. now rewrite IH.
Qed.

(** The three lines at the head of the output. *)
Lemma prints_banner {B : Type} (enc : msg -> bool) (title file_path : str)
    (k : Cli.C B) (l : list msg) (r : Cli.ending B) :
  prints enc k l r ->
  prints enc
    (Cli.print enc [T (10 :: Cli.rule)] ;;
     Cli.print enc [T title; T file_path] ;;
     Cli.print enc [T (Cli.rule ++ [10])] ;; k)
    (banner title file_path ++ l) r.
Proof.
  intros H. unfold banner. cbn [app]. now do 3 apply prints_print.
Qed.

Lemma prints_warnings (enc : msg -> bool) (warnings : list msg) :
  prints enc
    (Cli.when (negb (bool_decide (warnings = [])))
       (Cli.print enc [T (Cli.warning_mark ++ lit "  "); V (JInt (Cli.len warnings));
                       T (lit " Warnings:")] ;;
        Cli.for_each (firstn 10 warnings)
          (fun w => Cli.print enc (T (lit "   - ") :: w)) ;;
        Cli.when (10 <? Cli.len warnings)%Z
          (Cli.print enc [T (lit "   ... and "); V (JInt (Cli.len warnings - 10));
                          T (lit " more warnings")]) ;;
        Cli.blank))
    (warnings_block warnings) (Cli.Returns tt).
Proof.
  unfold warnings_block. destruct (bool_decide (warnings = [])); cbn [negb Cli.when];
    [apply prints_ret|].
  cbn [app]. apply prints_print.
  eapply prints_bind; [apply prints_each; intros; reflexivity|].
  eapply prints_bind; [apply prints_when, prints_last|].
  intros out. reflexivity.
Qed.

Lemma prints_errors (enc : msg -> bool) (errors : list msg) :
  prints enc
    (Cli.print enc [T (Cli.cross_mark ++ lit " "); V (JInt (Cli.len errors));
                    T (lit " Errors:")] ;;
     Cli.for_each (firstn 20 errors) (fun e => Cli.print enc (T (lit "   - ") :: e)) ;;
     Cli.when (20 <? Cli.len errors)%Z
       (Cli.print enc [T (lit "   ... and "); V (JInt (Cli.len errors - 20));
                       T (lit " more errors")]) ;;
     Cli.blank ;;
     Cli.print enc [T (Cli.cross_mark ++ lit " VALIDATION FAILED")] ;;
     Cli.ret false)
    (errors_block errors) (Cli.Returns false).
Proof.
  unfold errors_block. cbn [app]. apply prints_print.
  eapply prints_bind; [apply prints_each; intros; reflexivity|].
  eapply prints_bind; [apply prints_when, prints_last|].
  apply prints_blank, prints_print, prints_ret.
Qed.

Lemma prints_summary (enc : msg -> bool) (data : json) :
  well_shaped data = true -> doc_errors data = [] ->
  prints enc
    (engines ← Cli.lift (py_get data (lit "engines") (JArr []));
     total ← Cli.lift (Cli.total_logics engines);
     Cli.print enc [T (Cli.check_mark ++ lit " Structure Valid")] ;;
     n ← Cli.lift (py_len engines);
     Cli.print enc [T (lit "   - Engines: "); V (JInt n)] ;;
     first ← Cli.py_first engines;
     groups ← Cli.lift (py_get first (lit "groups") (JArr []));
     g ← Cli.lift (py_len groups);
     Cli.print enc [T (lit "   - Groups per engine: "); V (JInt g)] ;;
     Cli.print enc [T (lit "   - Total logics: "); V (JInt total)] ;;
     Cli.print enc [T (lit "   - V17.04+ fields: " ++ Cli.check_mark ++ lit " Present")] ;;
     Cli.blank ;;
     Cli.print enc [T (Cli.party_mark ++ lit " VALIDATION SUCCESS!")] ;;
     Cli.ret true)
    (summary data) (Cli.Returns true).
Proof.
  intros Hw He.
  assert (Ht : truthy (field data (lit "engines") (JArr [])) = true).
  { unfold doc_errors in He.
    destruct (truthy (field data (lit "engines") (JArr []))); [reflexivity|discriminate]. }
  destruct (engines_list data Hw Ht) as (d & engine & rest & -> & Ef & Hok).
  unfold summary, logic_total, engines_of. rewrite Ef.
  cbn [field] in Ef. cbn [py_get]. rewrite Ef. apply prints_lift.
  unfold Cli.total_logics. cbn [py_iter mbind result_bind].
  rewrite (engine_total_ok _ _ Hok). apply prints_lift, prints_print.
  cbn [py_len]. apply prints_lift.
  unfold count at 1. cbn [items py_iter]. apply prints_print.
  simpl forallb in Hok. apply andb_true_iff in Hok as [He0 _].
  unfold engine_ok in He0. apply andb_true_iff in He0 as [He0 _].
  apply andb_true_iff in He0 as [Ho Hs].
  destruct engine as [| | | | | |d0]; try discriminate.
  intros out. erewrite run_bind by reflexivity. revert out.
  cbn [py_get hd]. apply prints_lift.
  change (dict_get d0 (lit "groups") (JArr []))
    with (field (JObj d0) (lit "groups") (JArr [])).
  rewrite (sized_len _ Hs). apply prints_lift.
  do 3 apply prints_print. apply prints_blank, prints_print, prints_ret.
Qed.

(** What [validate_set_parity] does with the errors. *)
Lemma prints_parity_report (enc : msg -> bool) (errors : list str) :
  prints enc
    (if negb (bool_decide (errors = [])) then
       Cli.print enc [T (Cli.cross_mark ++ lit " "); V (JInt (Cli.len errors));
                      T (lit " Missing Variables:")] ;;
       Cli.for_each (firstn 30 errors)
         (fun e => Cli.print enc [T (lit "   - "); T e]) ;;
       Cli.when (30 <? Cli.len errors)%Z
         (Cli.print enc [T (lit "   ... and "); V (JInt (Cli.len errors - 30));
                         T (lit " more missing")]) ;;
       Cli.blank ;;
       Cli.print enc [T (Cli.cross_mark ++ lit " .SET PARITY CHECK FAILED")] ;;
       Cli.ret false
     else
       Cli.print enc
         [T (Cli.check_mark ++ lit " All expected MT4/MT5 variable names present")] ;;
       Cli.print enc [T (Cli.party_mark ++ lit " .SET PARITY CHECK PASSED!")] ;;
       Cli.ret true)
    (parity_report errors) (Cli.Returns (bool_decide (errors = []))).
Proof.
  unfold parity_report. destruct (bool_decide (errors = [])); cbn [negb].
  - do 2 apply prints_print. apply prints_ret.
  - cbn [app]. apply prints_print.
    eapply prints_bind; [apply prints_each; intros; reflexivity|].
    eapply prints_bind; [apply prints_when, prints_last|].
    apply prints_blank, prints_print, prints_ret.
Qed.

(* ===================================================================== *)
(** ** The set file of the visible inputs                                 *)
(* ===================================================================== *)
















(** *** The element [next] finds *)


Lemma next_where_none (test : json -> result bool) (l : list json) :
  Forall (fun x => test x = Ok false) l -> SampleSet.next_where test l = Ok JNull.
Proof.
  induction 1 as [|x l Hx _ IH]; [reflexivity|].
  simpl. rewrite Hx. cbn [mbind result_bind]. exact IH.
Qed.



Lemma next_where_first (test : json -> result bool) (pre post : list json) (a : json) :
  Forall (fun x => test x = Ok false) pre -> test a = Ok true ->
  SampleSet.next_where test (pre ++ a :: post) = Ok a.
Proof.
  intros Hpre Ha. induction Hpre as [|x l Hx _ IH]; simpl.
  - now rewrite Ha.
  - rewrite Hx. cbn [mbind result_bind]. exact IH.
Qed.

Lemma other_engines (es : list json) :
  forallb other_engine es = true ->
  Forall
    (fun e =>
       (id ← SampleSet.py_item e (lit "engine_id"); Ok (py_eq_str id (lit "A")))
       = Ok false)
    es.
Proof.
  intros H. apply Forall_forall. intros e He.
  apply list_elem_of_In in He. rewrite forallb_forall in H. specialize (H e He).
  unfold other_engine in H. destruct e as [| | | | | |d]; try discriminate.
  cbn [SampleSet.py_item]. destruct (assoc d (lit "engine_id")) as [id|]; [|discriminate].
  cbn [mbind result_bind]. apply negb_true_iff in H. now rewrite H.
Qed.

Lemma run_write {B : Type} (enc : msg -> bool) (m : msg) (k : unit -> Cli.C B) out :
  enc m = true -> (SampleSet.write enc m ≫= k) out = k tt (out ++ [m]).
Proof.
  intros H. unfold SampleSet.write, mbind, Cli.C_bind, Cli.bind, Cli.print.
  now rewrite H.
Qed.

Lemma bind_ext {A B : Type} (m : Cli.C A) (k1 k2 : A -> Cli.C B) out :
  (forall a out', k1 a out' = k2 a out') -> (m ≫= k1) out = (m ≫= k2) out.
Proof.
  intros H. unfold mbind, Cli.C_bind, Cli.bind.
  destruct (m out) as [out' [a|e|]]; [apply H | reflexivity | reflexivity].
Qed.

(* ===================================================================== *)
(** ** The properties                                                     *)
(* ===================================================================== *)

(** C7: [expectedKeys("B", 3, "Stopper")] contains [gInput_TrailStep_BST3],
    [gInput_G3_BST_ReverseEnabled] and [gInput_Grid_BST3], and no key that
    begins with [gInput_G3_TriggerType_]. *)
Theorem C7_expected_keys_B_3_Stopper :
  let keys := generate_expected_set_keys (lit "B") 3 (lit "Stopper") in
  In (lit "gInput_TrailStep_BST3") keys
  /\ In (lit "gInput_G3_BST_ReverseEnabled") keys
  /\ In (lit "gInput_Grid_BST3") keys
  /\ Forall (fun k => startswith (lit "gInput_G3_TriggerType_") k = false) keys.
Proof.
  vm_compute. repeat split; try tauto.
  repeat constructor.
Qed.

(** C6: the mapping the decoder computes from a text holds [v] at [k]
    exactly when some line contributes the entry [(k, v)] (trimmed, the line
    is not empty, does not begin with [;], and splits at its first [=] into
    parts that trim to [k] and [v]) and no later line contributes an entry
    for [k]: lines without an entry are skipped and the last occurrence of a
    key wins.  A file with [gInput_MaxOrders=100] and later
    [gInput_MaxOrders=150] decodes [gInput_MaxOrders] to [150]. *)
Theorem C6_decoder_line_rule :
  (forall text k v : str,
     parse_text ∅ text !! k = Some v
     <-> exists (i : nat) (line : str),
           splitlines text !! i = Some line /\ entry line k v
           /\ forall (j : nat) (line' v' : str),
                (i < j)%nat -> splitlines text !! j = Some line' ->
                ~ entry line' k v')
  /\ (let text :=
        lit "; limits" ++ [10] ++ lit "gInput_MaxOrders=100" ++ [10]
        ++ lit "gInput_MaxSpread = 50" ++ [13; 10] ++ lit "no separator here"
        ++ [10] ++ lit "gInput_MaxOrders=150" ++ [10] in
      let fs := single_file (lit "limits.set") (ascii_bytes text) in
      parse_text ∅ text !! lit "gInput_MaxOrders" = Some (lit "150")
      /\ parse_set_file fs (lit "limits.set") !! lit "gInput_MaxOrders"
         = Some (lit "150")
      /\ parse_set_file fs (lit "limits.set") !! lit "gInput_MaxSpread"
         = Some (lit "50")
      /\ size (parse_set_file fs (lit "limits.set")) = 2%nat).
Proof.
  split.
  - intros text k v. unfold parse_text. rewrite parse_lines_lookup. split.
    + intros [(i & line & Hi & He & Hlast) | [Hv _]].
      * exists i, line. split; [assumption|]. split; [now apply line_entry_entry|].
        intros j line' v' Hj Hl Hent. apply line_entry_entry in Hent.
        now apply (Hlast j line' v' Hj Hl).
      * rewrite lookup_empty in Hv. discriminate.
    + intros (i & line & Hi & He & Hlast). left. exists i, line.
      split; [assumption|]. split; [now apply line_entry_entry|].
      intros j line' v' Hj Hl Hent. apply line_entry_entry in Hent.
      now apply (Hlast j line' v' Hj Hl).
  - vm_compute. repeat split; reflexivity.
Qed.




(** C2 (as the code has it): of the first 31 expected keys of a logic,
    the six TP/SL keys (positions 14-19) have the group-qualified form
    [gInput_G<group>_<Field>_<short>]; the six Reverse/Hedge keys (positions
    20-25) begin with [gInput_G<group>_] but carry the short name before or
    inside the field name, so they are not of that form; the order-count key
    (position 12) is [gInput_<suffix>_OrderCountReference], not of the
    suffix form; the other eighteen have the suffix form
    [gInput_<Field>_<suffix>].  The keys after them are the start-level and
    last-lot keys, of the suffix form, and the trigger keys, of the
    group-qualified form.  The group-level keys begin with
    [gInput_Group<group>_] and are of the group-qualified form for no short
    name. *)
Theorem C2_key_forms :
  forall (engine_id : str) (group : Z) (logic_name : str),
    let keys := generate_expected_set_keys engine_id group logic_name in
    let short := get_short engine_id logic_name in
    let suffix := get_suffix engine_id group logic_name in
    let g := str_of_int group in
    Forall (fun k => group_qualified_form group short k = true) (slice 14 20 keys)
    /\ slice 20 26 keys
       = [ lit "gInput_G" ++ g ++ lit "_" ++ short ++ lit "_ReverseEnabled";
           lit "gInput_G" ++ g ++ lit "_" ++ short ++ lit "_HedgeEnabled";
           lit "gInput_G" ++ g ++ lit "_Scale_" ++ short ++ lit "_Reverse";
           lit "gInput_G" ++ g ++ lit "_Scale_" ++ short ++ lit "_Hedge";
           lit "gInput_G" ++ g ++ lit "_" ++ short ++ lit "_ReverseReference";
           lit "gInput_G" ++ g ++ lit "_" ++ short ++ lit "_HedgeReference" ]
    /\ Forall (fun k => group_qualified_form group short k = false) (slice 20 26 keys)
    /\ slice 12 13 keys = [ lit "gInput_" ++ suffix ++ lit "_OrderCountReference" ]
    /\ Forall (fun k => suffix_form suffix k = false) (slice 12 13 keys)
    /\ Forall (fun k => suffix_form suffix k = true)
         (slice 0 12 keys ++ slice 13 14 keys ++ slice 26 31 keys)
    /\ Forall (fun k => suffix_form suffix k = true
                        \/ group_qualified_form group short k = true)
         (skipn 31 keys)
    /\ Forall (fun k => startswith (lit "gInput_Group" ++ g ++ lit "_") k = true
                        /\ forall short', group_qualified_form group short' k = false)
         (generate_group_level_keys group).
Proof.
  intros engine_id group logic_name keys short suffix g.
  pose proof (expected_keys_base engine_id group logic_name) as Hb.
  cbv zeta in Hb. fold keys short suffix g in Hb.
  assert (Hs : forall a b, (b <= 31)%nat ->
                 slice a b keys = slice a b (firstn 31 keys)).
  { intros a b Hab. now apply slice_firstn. }
  rewrite !Hs by lia. rewrite Hb. clear Hs Hb.
  split; [|split; [|split; [|split; [|split; [|split; [|split]]]]]].
  - apply (Forall_group_qualified_form group short
             (map lit ["UseTP"; "TP_Mode"; "TP_Value"; "UseSL"; "SL_Mode"; "SL_Value"]%string)).
    now apply nonempty_fields.
  - reflexivity.
  - unfold short, g.
    apply Forall_cons_2;
      [exact (reverse_hedge_not_qualified _ _ _ (lit "_") (lit "_ReverseEnable") 100 eq_refl)|].
    apply Forall_cons_2;
      [exact (reverse_hedge_not_qualified _ _ _ (lit "_") (lit "_HedgeEnable") 100 eq_refl)|].
    apply Forall_cons_2;
      [exact (reverse_hedge_not_qualified _ _ _ (lit "_Scale_") (lit "_Revers") 101 eq_refl)|].
    apply Forall_cons_2;
      [exact (reverse_hedge_not_qualified _ _ _ (lit "_Scale_") (lit "_Hedg") 101 eq_refl)|].
    apply Forall_cons_2;
      [exact (reverse_hedge_not_qualified _ _ _ (lit "_") (lit "_ReverseReferenc") 101 eq_refl)|].
    apply Forall_cons_2;
      [exact (reverse_hedge_not_qualified _ _ _ (lit "_") (lit "_HedgeReferenc") 101 eq_refl)|].
    apply Forall_nil_2.
  - reflexivity.
  - apply Forall_cons_2; [|apply Forall_nil_2].
    exact (order_count_not_suffix _ _ _ (lit "_OrderCountReferenc") 101 eq_refl).
  - apply (Forall_suffix_form suffix
             (map lit ["Initial_loT"; "Mult"; "Grid"; "Trail"; "TrailValue";
                       "Trail_Start"; "TrailStep"; "TrailStepMethod"; "TrailStepMode";
                       "TrailStepCycle"; "TrailStepBalance"; "CloseTargets";
                       "ResetLotOnRestart"; "ClosePartial"; "ClosePartialCycle";
                       "ClosePartialMode"; "ClosePartialBalance";
                       "ClosePartialTrailStepMode"]%string)).
    now apply nonempty_fields.
  - unfold keys. rewrite expected_keys_rest. cbv zeta. apply Forall_app. split.
    + destruct (negb _); [|apply Forall_nil_2].
      eapply Forall_impl;
        [apply Forall_suffix_form; now apply nonempty_fields | intros k Hk; now left].
    + destruct (Z.eqb_spec group 1) as [->|Hg]; [|apply Forall_nil_2].
      eapply Forall_impl;
        [apply Forall_group_qualified_form; now apply nonempty_fields
        | intros k Hk; now right].
  - unfold generate_group_level_keys. cbv zeta. fold g.
    repeat (apply Forall_cons_2;
            [split; [apply group_level_prefix
                    | intros short'; apply group_level_not_qualified] |]).
    apply Forall_nil_2.
Qed.

(** C2, counterexample: the key of the Reverse/Hedge field
    [reverse_enabled] for engine B, group 3, logic Stopper is
    [gInput_G3_BST_ReverseEnabled], which does not end with the short name
    [BST]; the key the group-qualified form would give is not expected; the
    group-level key [gInput_Group3_ReverseMode] and the order-count key
    [gInput_BST3_OrderCountReference] have neither form. *)
Lemma C2_reverse_enabled_key_B_3_Stopper :
  let keys := generate_expected_set_keys (lit "B") 3 (lit "Stopper") in
  get_short (lit "B") (lit "Stopper") = lit "BST"
  /\ get_suffix (lit "B") 3 (lit "Stopper") = lit "BST3"
  /\ In (lit "gInput_G3_BST_ReverseEnabled") keys
  /\ group_qualified_form 3 (lit "BST") (lit "gInput_G3_BST_ReverseEnabled") = false
  /\ ~ In (lit "gInput_G3_ReverseEnabled_BST") keys
  /\ In (lit "gInput_Group3_ReverseMode") (generate_group_level_keys 3)
  /\ group_qualified_form 3 (lit "BST") (lit "gInput_Group3_ReverseMode") = false
  /\ In (lit "gInput_BST3_OrderCountReference") keys
  /\ suffix_form (lit "BST3") (lit "gInput_BST3_OrderCountReference") = false.
Proof.
  cbv zeta. rewrite <- !list_elem_of_In.
  repeat split; try (vm_compute; reflexivity);
    apply (bool_decide_unpack _); vm_compute; exact I.
Qed.
(** C10 (as the code has it): key generation is total.  A logic name
    outside the canonical set takes the abbreviation [P], so its suffix and
    short name are those of Power; its keys are the keys of Power when the
    name is ["power"] in some letter case, and otherwise the keys of Power
    together with [gInput_StartLevel_<suffix>] and [gInput_LastLot_<suffix>].
    An engine identifier outside A, B, C takes the empty prefix, so its keys
    are those of engine A. *)
Theorem C10_unknown_names :
  forall (engine_id : str) (group : Z) (logic_name : str),
    (~ In logic_name canonical_logics ->
       dict_get LOGIC_ABBREVIATIONS logic_name (lit "P") = lit "P"
       /\ get_suffix engine_id group logic_name
          = get_suffix engine_id group (lit "Power")
       /\ get_short engine_id logic_name = get_short engine_id (lit "Power")
       /\ (lower logic_name = lit "power" ->
           generate_expected_set_keys engine_id group logic_name
           = generate_expected_set_keys engine_id group (lit "Power"))
       /\ (lower logic_name <> lit "power" ->
           forall k,
             In k (generate_expected_set_keys engine_id group logic_name)
             <-> In k (generate_expected_set_keys engine_id group (lit "Power"))
                 \/ k = lit "gInput_StartLevel_"
                        ++ get_suffix engine_id group (lit "Power")
                 \/ k = lit "gInput_LastLot_"
                        ++ get_suffix engine_id group (lit "Power")))
    /\ (~ In engine_id expected_engines ->
          dict_get ENGINE_PREFIXES engine_id (lit "") = lit ""
          /\ get_suffix engine_id group logic_name
             = dict_get LOGIC_ABBREVIATIONS logic_name (lit "P") ++ str_of_int group
          /\ generate_expected_set_keys engine_id group logic_name
             = generate_expected_set_keys (lit "A") group logic_name).
Proof.
  intros engine_id group logic_name. split.
  - intros Hu. pose proof (unknown_logic_abbreviation _ Hu) as Ha.
    assert (Hs : get_suffix engine_id group logic_name
                 = get_suffix engine_id group (lit "Power")).
    { unfold get_suffix. now rewrite Ha. }
    assert (Hh : get_short engine_id logic_name = get_short engine_id (lit "Power")).
    { unfold get_short. now rewrite Ha. }
    split; [assumption | split; [assumption | split; [assumption | split]]].
    + intros Hp. apply expected_keys_congruence; [assumption | assumption |].
      rewrite Hp. reflexivity.
    + intros Hp k. rewrite (in_expected_keys engine_id group logic_name).
      rewrite (in_expected_keys engine_id group (lit "Power")).
      rewrite !expected_keys_base. cbv zeta. rewrite Hs, Hh.
      apply eqb_false in Hp. rewrite Hp.
      replace (Py.eqb (lower (lit "Power")) (lit "power")) with true by reflexivity.
      intuition congruence.
  - intros Hu. pose proof (unknown_engine_prefix _ Hu) as Ha.
    split; [assumption | split].
    + unfold get_suffix. now rewrite Ha.
    + apply expected_keys_congruence;
        [unfold get_suffix; now rewrite Ha | unfold get_short; now rewrite Ha
        | reflexivity].
Qed.

Lemma C10_witness :
  get_suffix (lit "Z") 4 (lit "Turbo") = lit "P4"
  /\ In (lit "gInput_StartLevel_P4")
       (generate_expected_set_keys (lit "Z") 4 (lit "Turbo")).
Proof.
  assert (Hl : ~ In (lit "Turbo") canonical_logics).
  { rewrite <- list_elem_of_In. apply (bool_decide_unpack _). vm_compute. exact I. }
  assert (Hp : lower (lit "Turbo") <> lit "power").
  { apply (bool_decide_unpack _). vm_compute. exact I. }
  destruct (C10_unknown_names (lit "Z") 4 (lit "Turbo")) as [H _].
  destruct (H Hl) as (_ & Hs & _ & _ & Hk). split.
  - rewrite Hs. reflexivity.
  - apply (Hk Hp). right. left. reflexivity.
Defined.

(** C10, counterexample: [POWER] is outside the canonical set, and its
    expected keys are those of Power, without a start-level or a last-lot
    key. *)
Lemma C10_POWER_has_no_start_level_key :
  ~ In (lit "POWER") canonical_logics
  /\ generate_expected_set_keys (lit "A") 2 (lit "POWER")
     = generate_expected_set_keys (lit "A") 2 (lit "Power")
  /\ Forall (fun k => startswith (lit "gInput_StartLevel_") k = false
                      /\ startswith (lit "gInput_LastLot_") k = false)
       (generate_expected_set_keys (lit "A") 2 (lit "POWER")).
Proof.
  split; [|split].
  - rewrite <- list_elem_of_In. apply (bool_decide_unpack _). vm_compute. exact I.
  - vm_compute. reflexivity.
  - apply Forall_forall. intros k Hk. apply list_elem_of_In in Hk.
    vm_compute in Hk. repeat (destruct Hk as [<- | Hk]; [split; reflexivity|]).
    destruct Hk.
Qed.

(** C8: a logic named Power is never required to carry [start_level] or
    [last_lot], every other canonical logic always is.  An error of the
    structural validator that names one of the two fields is the error of a
    logic of the document that is not named Power and lacks the field; a
    logic with another canonical name that lacks one of them gets its error.
    The expected keys of Power hold no start-level or last-lot key; those of
    every other canonical logic hold both. *)
Theorem C8_power_start_level_last_lot :
  (forall (data : json) (E W : list msg),
     validate_json_structure data = Ok (E, W) ->
     (forall (m : msg) (f : str),
        In m E -> In f [lit "start_level"; lit "last_lot"] -> about f m = true ->
        exists engine group logic,
          on_path data engine group logic
          /\ named_power logic = false /\ lacks logic f = true
          /\ (m = msg_start_level (id_of engine) (number_of group) (name_of logic)
              \/ m = msg_last_lot (id_of engine) (number_of group) (name_of logic)))
     /\ (forall (engine group logic : json) (s : str),
           on_path data engine group logic -> name_of logic = JStr s ->
           In s canonical_logics -> s <> lit "Power" ->
           (lacks logic (lit "start_level") = true ->
            In (msg_start_level (id_of engine) (number_of group) (JStr s)) E)
           /\ (lacks logic (lit "last_lot") = true ->
               In (msg_last_lot (id_of engine) (number_of group) (JStr s)) E)))
  /\ (forall (engine_id : str) (group : Z),
        Forall (fun k => startswith (lit "gInput_StartLevel_") k = false
                         /\ startswith (lit "gInput_LastLot_") k = false)
          (generate_expected_set_keys engine_id group (lit "Power")))
  /\ (forall (engine_id : str) (group : Z) (logic_name : str),
        In logic_name canonical_logics -> logic_name <> lit "Power" ->
        In (lit "gInput_StartLevel_" ++ get_suffix engine_id group logic_name)
          (generate_expected_set_keys engine_id group logic_name)
        /\ In (lit "gInput_LastLot_" ++ get_suffix engine_id group logic_name)
             (generate_expected_set_keys engine_id group logic_name)).
Proof.
  split; [|split].
  - intros data E W (Hw & -> & ->)%validate_Ok_iff. split.
    + intros m f Hm Hf Ha.
      assert (Hc : In f conditional_fields).
      { unfold conditional_fields. cbn [map In]. cbn [In] in Hf. tauto. }
      destruct (conditional_error_path data m f Hc Hm Ha)
        as (engine & group & logic & Hp & Hl).
      exists engine, group, logic. split; [assumption|].
      destruct (conditional_error _ _ _ _ _ Hc Hl Ha)
        as [(-> & ? & ? & ?) | [(-> & ? & ? & ?) | [(-> & _) | [(-> & _) | (-> & _)]]]];
        try tauto;
        cbn [In] in Hf; exfalso;
        destruct Hf as [Hf | [Hf | []]]; vm_compute in Hf; discriminate Hf.
    + intros engine group logic s Hp Hn Hs Hne.
      assert (Hnp : named_power logic = false).
      { unfold named_power. rewrite Hn. now apply canonical_not_power. }
      split; intros Hl; apply (logic_error_in_doc data engine group logic _ Hp);
        apply in_logic_errors; right; left; rewrite Hn; tauto.
  - intros engine_id group.
    unfold generate_expected_set_keys.
    replace (Py.eqb (lower (lit "Power")) (lit "power")) with true by reflexivity.
    cbn [negb]. unfold get_suffix, get_short.
    replace (dict_get LOGIC_ABBREVIATIONS (lit "Power") (lit "P")) with (lit "P")
      by reflexivity.
    destruct (engine_prefix_cases engine_id) as [H | [H | H]]; rewrite H; clear H;
      destruct (group =? 1)%Z;
      repeat (apply Forall_cons_2; [split; reflexivity|]); apply Forall_nil_2.
  - intros engine_id group logic_name Hs Hne.
    apply in_expected_keys_nonpower. now apply canonical_not_power.
Qed.

Lemma C8_witness :
  In (msg_start_level (JStr (lit "A")) (JInt 1) (JStr (lit "Repower")))
    (doc_errors (bare_document (lit "A") (lit "Repower"))).
Proof.
  pose (data := bare_document (lit "A") (lit "Repower")).
  assert (Hv : validate_json_structure data = Ok (doc_errors data, doc_warnings data)).
  { apply validate_well_shaped. vm_compute. reflexivity. }
  destruct C8_power_start_level_last_lot as [H _].
  destruct (H data _ _ Hv) as [_ Hc].
  refine (proj1 (Hc (bare_engine (lit "A") (lit "Repower"))
                   (bare_group (lit "Repower")) (bare_logic (lit "Repower"))
                   (lit "Repower") _ eq_refl _ _) eq_refl).
  - unfold on_path. split; [|split]; vm_compute; left; reflexivity.
  - rewrite <- list_elem_of_In. apply (bool_decide_unpack _). vm_compute. exact I.
  - apply (bool_decide_unpack _). vm_compute. exact I.
Defined.

(** C9: a logic in a group whose number is 1 must carry [trigger_type],
    [trigger_bars] and [trigger_minutes]: each one it lacks is an error of
    the structural validator, and the three [gInput_G1_Trigger*] keys are
    among its expected keys.  A logic in a group with a number greater than
    1 is never flagged: the errors that name one of the three fields are, in
    the order of the document, exactly the messages of the logics that lack
    the field in the groups whose number equals 1, each such error is the
    message of such a logic, and a document whose groups all have a number
    greater than 1 gets no such error.  Among the expected keys of an
    engine, a group and a logic, those that begin with [gInput_G1_Trigger]
    are the three trigger keys when the group is 1, and there is none for
    any other group. *)
Theorem C9_group_one_triggers :
  (forall (data : json) (E W : list msg),
     validate_json_structure data = Ok (E, W) ->
     (forall engine group logic : json,
        on_path data engine group logic -> number_of group = JInt 1 ->
        (lacks logic (lit "trigger_type") = true ->
         In (msg_trigger_type (id_of engine) (name_of logic)) E)
        /\ (lacks logic (lit "trigger_bars") = true ->
            In (msg_trigger_bars (id_of engine) (name_of logic)) E)
        /\ (lacks logic (lit "trigger_minutes") = true ->
            In (msg_trigger_minutes (id_of engine) (name_of logic)) E))
     /\ (List.filter (about (lit "trigger_type")) E
         = group_one_flags (lit "trigger_type") msg_trigger_type data
         /\ List.filter (about (lit "trigger_bars")) E
            = group_one_flags (lit "trigger_bars") msg_trigger_bars data
         /\ List.filter (about (lit "trigger_minutes")) E
            = group_one_flags (lit "trigger_minutes") msg_trigger_minutes data)
     /\ (forall (m : msg) (f : str) (msg_of : json -> json -> msg),
           trigger_check f msg_of ->
           In m E -> about f m = true ->
           exists engine group logic,
             on_path data engine group logic
             /\ py_eq_int (number_of group) 1 = true
             /\ (forall n : Z, number_of group = JInt n -> ~ (1 < n)%Z)
             /\ lacks logic f = true
             /\ m = msg_of (id_of engine) (name_of logic))
     /\ ((forall engine group : json,
            In engine (engines_of data) -> In group (groups_of engine) ->
            exists n : Z, number_of group = JInt n /\ (1 < n)%Z) ->
         forall (m : msg) (f : str),
           In m E ->
           In f [lit "trigger_type"; lit "trigger_bars"; lit "trigger_minutes"] ->
           about f m = false))
  /\ (forall engine_id logic_name : str,
        let keys := generate_expected_set_keys engine_id 1 logic_name in
        let short := get_short engine_id logic_name in
        In (lit "gInput_G1_TriggerType_" ++ short) keys
        /\ In (lit "gInput_G1_TriggerBars_" ++ short) keys
        /\ In (lit "gInput_G1_TriggerMinutes_" ++ short) keys)
  /\ (forall (engine_id : str) (group : Z) (logic_name : str),
        let short := get_short engine_id logic_name in
        List.filter (startswith (lit "gInput_G1_Trigger"))
          (generate_expected_set_keys engine_id group logic_name)
        = if (group =? 1)%Z
          then [ lit "gInput_G1_TriggerType_" ++ short;
                 lit "gInput_G1_TriggerBars_" ++ short;
                 lit "gInput_G1_TriggerMinutes_" ++ short ]
          else []).
Proof.
  split; [|split].
  - intros data E W (Hw & -> & ->)%validate_Ok_iff.
    assert (Htied : forall (m : msg) (f : str) (msg_of : json -> json -> msg),
               trigger_check f msg_of ->
               In m (doc_errors data) -> about f m = true ->
               exists engine group logic,
                 on_path data engine group logic
                 /\ py_eq_int (number_of group) 1 = true
                 /\ (forall n : Z, number_of group = JInt n -> ~ (1 < n)%Z)
                 /\ lacks logic f = true
                 /\ m = msg_of (id_of engine) (name_of logic)).
    { intros m f msg_of Ht Hm Ha.
      pose proof (trigger_check_conditional f msg_of Ht) as Hc.
      destruct (conditional_error_path data m f Hc Hm Ha)
        as (engine & group & logic & Hp & Hl).
      exists engine, group, logic. split; [assumption|].
      assert (Hone : forall v, py_eq_int v 1 = true ->
                       forall n : Z, v = JInt n -> ~ (1 < n)%Z).
      { intros v Hv n ->. simpl in Hv. apply Z.eqb_eq in Hv. lia. }
      destruct (conditional_error _ _ _ _ _ Hc Hl Ha)
        as [(Hf & _) | [(Hf & _) | [(Hf & ? & ? & Hmsg)
                                   | [(Hf & ? & ? & Hmsg) | (Hf & ? & ? & Hmsg)]]]];
        destruct Ht as [[-> ->] | [[-> ->] | [-> ->]]];
        try (vm_compute in Hf; discriminate Hf);
        (split; [assumption | split; [now apply Hone | split; assumption]]). }
    split; [|split; [|split]].
    + intros engine group logic Hp Hn.
      repeat split; intros Hl;
        apply (logic_error_in_doc data engine group logic _ Hp);
        apply in_logic_errors; right; right; rewrite Hn;
        (split; [reflexivity | tauto]).
    + repeat split; apply doc_errors_trigger; unfold trigger_check; tauto.
    + exact Htied.
    + intros Hall m f Hm Hf. destruct (about f m) eqn:Ha; [exfalso | reflexivity].
      assert (Ht : exists msg_of, trigger_check f msg_of).
      { cbn [In] in Hf. unfold trigger_check.
        destruct Hf as [<- | [<- | [<- | []]]]; eauto. }
      destruct Ht as [msg_of Ht].
      destruct (Htied m f msg_of Ht Hm Ha)
        as (engine & group & logic & (He & Hg & _) & _ & Hn & _).
      destruct (Hall engine group He Hg) as (n & En & Hlt).
      exact (Hn n En Hlt).
  - intros engine_id logic_name. cbv zeta.
    repeat split; apply in_expected_keys; right; right; (split; [reflexivity|]);
      tauto.
  - intros engine_id group logic_name. cbv zeta. apply trigger_keys.
Qed.

Lemma C9_witness :
  validate_json_structure two_groups_document
  = Ok (doc_errors two_groups_document, doc_warnings two_groups_document)
  /\ List.filter (about (lit "trigger_type")) (doc_errors two_groups_document)
     = [ msg_trigger_type (JStr (lit "A")) (JStr (lit "Power")) ].
Proof.
  assert (Hv : validate_json_structure two_groups_document
               = Ok (doc_errors two_groups_document,
                     doc_warnings two_groups_document)).
  { apply validate_well_shaped. vm_compute. reflexivity. }
  split; [exact Hv|].
  destruct C9_group_one_triggers as [H _].
  destruct (H two_groups_document _ _ Hv) as (_ & (Ht & _) & _).
  rewrite Ht. vm_compute. reflexivity.
Defined.

(** C5 (as the code has it): every engine of the document whose
    identifier is outside A, B, C gets the warning [Unexpected engine ID],
    and that message is never an error.  Every warning concerns an engine
    that is in the document (its identifier, its group count, or the logic
    count of one of its groups): the absence of A, B or C is not checked.  A
    document without engines gets the error [No engines found in config] and
    no warning. *)
Theorem C5_engine_identifiers :
  forall (data : json) (E W : list msg),
    validate_json_structure data = Ok (E, W) ->
    (forall engine : json,
       In engine (engines_of data) ->
       py_in_strs (id_of engine) expected_engines = false ->
       In (msg_unexpected_engine (id_of engine)) W)
    /\ (forall m : msg,
          In m W ->
          exists engine,
            In engine (engines_of data)
            /\ (py_in_strs (id_of engine) expected_engines = false
                /\ m = msg_unexpected_engine (id_of engine)
                \/ m = msg_group_count (id_of engine)
                         (count (field engine (lit "groups") (JArr [])))
                \/ exists group,
                     In group (groups_of engine)
                     /\ m = msg_logic_count (id_of engine) (number_of group)
                              (count (field group (lit "logics") (JArr [])))))
    /\ (forall v : json, ~ In (msg_unexpected_engine v) E)
    /\ (engines_of data = [] -> E = [msg_no_engines] /\ W = [])
    /\ (engines_of data <> [] -> ~ In msg_no_engines E).
Proof.
  intros data E W (Hw & -> & ->)%validate_Ok_iff.
  split; [|split; [|split; [|split]]].
  - intros engine He Hid. apply in_doc_warnings. exists engine. tauto.
  - intros m (engine & He & Hm)%in_doc_warnings. exists engine.
    split; [assumption|].
    destruct Hm as [[? ->] | [[_ ->] | (group & ? & _ & ->)]]; eauto.
  - intros v [[H _] | [t H]]%doc_errors_shape; discriminate H.
  - intros Hn. unfold doc_errors, doc_warnings.
    destruct (truthy (field data (lit "engines") (JArr []))) eqn:Et;
      [|split; reflexivity].
    exfalso. unfold well_shaped in Hw. rewrite Et in Hw.
    apply andb_true_iff in Hw as [_ Hw]. cbn [negb orb] in Hw.
    apply andb_true_iff in Hw as [Hs _].
    now apply (sized_truthy_items _ Hs Et).
  - intros Hn [[_ H] | [t H]]%doc_errors_shape; [congruence | discriminate H].
Qed.

Lemma C5_witness :
  In (msg_unexpected_engine (JStr (lit "D")))
    (doc_warnings (bare_document (lit "D") (lit "Power"))).
Proof.
  pose (data := bare_document (lit "D") (lit "Power")).
  assert (Hv : validate_json_structure data = Ok (doc_errors data, doc_warnings data)).
  { apply validate_well_shaped. vm_compute. reflexivity. }
  refine (proj1 (C5_engine_identifiers data _ _ Hv)
            (bare_engine (lit "D") (lit "Power")) _ eq_refl).
  vm_compute. left. reflexivity.
Defined.

(** C5, counterexample: the sample export cut down to engine A passes
    without a warning although B and C are absent, and a document whose
    engine list is empty gets an error, not a warning. *)
Lemma C5_absent_engines_not_reported :
  validate_json_structure
    (Sample.generate_full_export_for [lit "A"] (lit "2026-01-05T09:03:07"))
  = Ok ([], [])
  /\ validate_json_structure (JObj [(lit "engines", JArr [])])
     = Ok ([msg_no_engines], []).
Proof. split; vm_compute; reflexivity. Qed.

(** C3 (as the code has it): on a document whose engines, groups and
    logics are objects with iterable lists and string names, the structural
    validator returns, and its errors hold an entry for every required field
    that any group or logic lacks; on any other document it raises.  When
    the decoded mapping is not empty, the errors of the parity validator
    hold an entry for every expected key that the mapping lacks. *)
Theorem C3_checks_accumulate :
  forall (data : json) (fs : filesystem) (set_file : str),
    (well_shaped data = true ->
     exists E W,
       validate_json_structure data = Ok (E, W)
       /\ forall engine group : json,
            In engine (engines_of data) -> In group (groups_of engine) ->
            (forall f : str,
               In f REQUIRED_GROUP_FIELDS -> lacks group f = true ->
               In (msg_group_field (id_of engine) (number_of group) f) E)
            /\ (forall logic : json,
                  In logic (logics_of group) ->
                  (forall f : str,
                     In f REQUIRED_LOGIC_FIELDS -> lacks logic f = true ->
                     In (msg_logic_field (id_of engine) (number_of group)
                           (name_of logic) f) E)
                  /\ (named_power logic = false ->
                      (lacks logic (lit "start_level") = true ->
                       In (msg_start_level (id_of engine) (number_of group)
                             (name_of logic)) E)
                      /\ (lacks logic (lit "last_lot") = true ->
                          In (msg_last_lot (id_of engine) (number_of group)
                                (name_of logic)) E))
                  /\ (py_eq_int (number_of group) 1 = true ->
                      (lacks logic (lit "trigger_type") = true ->
                       In (msg_trigger_type (id_of engine) (name_of logic)) E)
                      /\ (lacks logic (lit "trigger_bars") = true ->
                          In (msg_trigger_bars (id_of engine) (name_of logic)) E)
                      /\ (lacks logic (lit "trigger_minutes") = true ->
                          In (msg_trigger_minutes (id_of engine) (name_of logic)) E))))
    /\ (well_shaped data = false -> exists e, validate_json_structure data = Raise e)
    /\ (parse_set_file fs set_file <> ∅ ->
        forall (engine_id : str) (group : Z),
          In engine_id expected_engines -> In group (range 1 21) ->
          (forall key : str,
             In key (generate_group_level_keys group) ->
             parse_set_file fs set_file !! key = None ->
             In (lit "Missing group key: " ++ key)
               (fst (validate_set_file_parity fs set_file)))
          /\ (forall logic_name key : str,
                In logic_name canonical_logics ->
                In key (generate_expected_set_keys engine_id group logic_name) ->
                parse_set_file fs set_file !! key = None ->
                In (lit "Missing logic key: " ++ key)
                  (fst (validate_set_file_parity fs set_file)))).
Proof.
  intros data fs set_file. split; [|split].
  - intros Hw. exists (doc_errors data), (doc_warnings data).
    split; [now apply validate_well_shaped|].
    intros engine group He Hg. split.
    + intros f Hf Hl. apply in_doc_errors. right. exists engine, group.
      split; [assumption | split; [assumption|]].
      apply in_group_errors. left. eauto.
    + intros logic Hlog.
      assert (Hp : on_path data engine group logic) by (unfold on_path; auto).
      assert (Hin : forall m,
                 In m (logic_errors (id_of engine) (number_of group) logic) ->
                 In m (doc_errors data)).
      { intros m. now apply logic_error_in_doc. }
      repeat split; intros; apply Hin, in_logic_errors;
        first [ left; eexists; split; [eassumption|]; split; [assumption | reflexivity]
              | right; left; split; [assumption|]; tauto
              | right; right; split; [assumption|]; tauto ].
  - apply validate_ill_shaped.
  - intros Hne engine_id group He Hg.
    rewrite validate_set_file_parity_eq.
    rewrite bool_decide_eq_false_2 by assumption. cbn [fst].
    split.
    + intros key Hk Hn. apply (in_missing_everywhere _ engine_id group); try assumption.
      unfold missing_in_group. apply in_or_app. left.
      apply in_missing_keys. eauto.
    + intros logic_name key Hl Hk Hn.
      apply (in_missing_everywhere _ engine_id group); try assumption.
      unfold missing_in_group. apply in_or_app. right.
      apply in_flat_map. exists logic_name. split; [assumption|].
      apply in_missing_keys. eauto.
Qed.

Lemma C3_witness :
  (exists E W,
     validate_json_structure (bare_document (lit "A") (lit "Repower")) = Ok (E, W)
     /\ In (msg_group_field (JStr (lit "A")) (JInt 1) (lit "enabled")) E
     /\ In (msg_logic_field (JStr (lit "A")) (JInt 1) (JStr (lit "Repower"))
              (lit "grid")) E)
  /\ In (lit "Missing logic key: gInput_Grid_BST3")
       (fst (validate_set_file_parity
               (single_file (lit "one.set") (ascii_bytes (lit "gInput_MaxOrders=100")))
               (lit "one.set"))).
Proof.
  pose (data := bare_document (lit "A") (lit "Repower")).
  pose (fs := single_file (lit "one.set") (ascii_bytes (lit "gInput_MaxOrders=100"))).
  destruct (C3_checks_accumulate data fs (lit "one.set")) as (H1 & _ & H2).
  split.
  - destruct (H1 eq_refl) as (E & W & Hv & Hc). exists E, W.
    split; [exact Hv|].
    destruct (Hc (bare_engine (lit "A") (lit "Repower")) (bare_group (lit "Repower")))
      as [Hg Hl].
    { vm_compute. left. reflexivity. }
    { vm_compute. left. reflexivity. }
    split.
    + apply (Hg (lit "enabled")); [|reflexivity].
      rewrite <- list_elem_of_In. apply (bool_decide_unpack _). vm_compute. exact I.
    + refine (proj1 (Hl (bare_logic (lit "Repower")) _) (lit "grid") _ eq_refl).
      * vm_compute. left. reflexivity.
      * rewrite <- list_elem_of_In. apply (bool_decide_unpack _). vm_compute. exact I.
  - assert (Hne : parse_set_file fs (lit "one.set") <> ∅).
    { intros He.
      assert (Hk : parse_set_file fs (lit "one.set") !! lit "gInput_MaxOrders" = None)
        by (rewrite He; apply lookup_empty).
      vm_compute in Hk. discriminate Hk. }
    refine (proj2 (H2 Hne (lit "B") 3%Z _ _) (lit "Stopper") (lit "gInput_Grid_BST3")
              _ _ _).
    + rewrite <- list_elem_of_In. apply (bool_decide_unpack _). vm_compute. exact I.
    + rewrite <- list_elem_of_In. apply (bool_decide_unpack _). vm_compute. exact I.
    + rewrite <- list_elem_of_In. apply (bool_decide_unpack _). vm_compute. exact I.
    + rewrite <- list_elem_of_In. apply (bool_decide_unpack _). vm_compute. exact I.
    + vm_compute. reflexivity.
Defined.

(** C3, counterexample: a set file that holds a comment and no input is
    read and decoded, and every expected key is missing from its mapping, yet
    the parity validator returns one error and tests no key.  A document in
    which the name of a logic is a number makes the structural validator
    raise: it returns no list at all. *)
Lemma C3_empty_mapping_ends_the_parity_check :
  (let fs := single_file (lit "empty.set") (ascii_bytes (lit "; no inputs")) in
   parse_set_file_try fs (lit "empty.set") ∅ = Ok ∅
   /\ Forall (fun key => parse_set_file fs (lit "empty.set") !! key = None)
        all_expected_keys
   /\ Z.of_nat (length all_expected_keys) = 14043%Z
   /\ validate_set_file_parity fs (lit "empty.set")
      = ([lit "Failed to parse .set file: empty.set"], []))
  /\ validate_json_structure
       (JObj [ (lit "engines",
                JArr [ JObj [ (lit "groups",
                               JArr [ JObj [ (lit "logics",
                                              JArr [ JObj [ (lit "logic_name",
                                                             JInt 5) ] ]) ] ]) ] ]) ])
     = Raise AttributeError.
Proof.
  split; [cbv zeta; split; [|split; [|split]] |].
  - vm_compute. reflexivity.
  - apply Forall_forall. intros key _.
    replace (parse_set_file _ _) with (∅ : gmap str str) by (vm_compute; reflexivity).
    apply lookup_empty.
  - vm_compute. reflexivity.
  - vm_compute. reflexivity.
  - vm_compute. reflexivity.
Qed.

(* ===================================================================== *)
(** * Further properties of the code                                      *)
(* ===================================================================== *)

(** ** generate_massive_setfile.py *)

Lemma length_flat_map_ext {A B C : Type} (f : A -> list B) (g : A -> list C)
    (l : list A) :
  (forall x, In x l -> length (f x) = length (g x)) ->
  length (flat_map f l) = length (flat_map g l).
Proof.
  induction l as [|x l IH]; intros H; [reflexivity|].
  simpl. rewrite !length_app, (H x (or_introl eq_refl)).
  rewrite IH; [reflexivity|]. intros y Hy. apply H. now right.
Qed.

Lemma missing_keys_all (set_values : gmap str str) (what : str) (keys : list str) :
  (forall k, In k keys -> set_values !! k = None) ->
  missing_keys set_values what keys = map (app what) keys.
Proof.
  induction keys as [|k keys IH]; intros H; [reflexivity|].
  unfold missing_keys in *. simpl.
  rewrite bool_decide_eq_true_2 by (apply H; now left).
  simpl. f_equal. apply IH. intros k' Hk'. apply H. now right.
Qed.

Lemma in_all_expected_keys (engine_id : str) (group : Z) (k : str) :
  In engine_id expected_engines -> In group (range 1 21) ->
  In k (generate_group_level_keys group)
  \/ (exists logic_name, In logic_name canonical_logics
                         /\ In k (generate_expected_set_keys engine_id group logic_name)) ->
  In k all_expected_keys.
Proof.
  intros He Hg H. unfold all_expected_keys.
  apply in_flat_map. exists engine_id. split; [exact He|].
  apply in_flat_map. exists group. split; [exact Hg|].
  apply in_or_app. destruct H as [H|(logic_name & Hl & H)]; [now left|right].
  apply in_flat_map. now exists logic_name.
Qed.

(** When no expected key is there, every check fails. *)
Lemma missing_everywhere_all (set_values : gmap str str) :
  (forall k, In k all_expected_keys -> set_values !! k = None) ->
  length (missing_everywhere set_values) = length all_expected_keys.
Proof.
  intros H. unfold missing_everywhere, all_expected_keys.
  apply length_flat_map_ext. intros engine_id He.
  apply length_flat_map_ext. intros group Hg.
  unfold missing_in_group. rewrite !length_app. f_equal.
  - rewrite missing_keys_all; [apply length_map|].
    intros k Hk. apply H. apply (in_all_expected_keys engine_id group); auto.
  - apply length_flat_map_ext. intros logic_name Hl.
    rewrite missing_keys_all; [apply length_map|].
    intros k Hk. apply H. apply (in_all_expected_keys engine_id group); eauto.
Qed.

Lemma expected_keys_not_generated :
  forallb (fun k => negb (generator_key k)) all_expected_keys = true.
Proof. vm_compute. reflexivity. Qed.

Lemma last_footer (h body : list str) (total : Z) :
  List.last (h ++ body ++ footer total) [0] <> [].
Proof.
  unfold footer.
  change [lit "; ==========================================="; lit "; END OF CONFIGURATION";
          lit "; Total Inputs Generated: " ++ str_of_int total;
          lit "; ==========================================="]
    with ([lit "; ==========================================="; lit "; END OF CONFIGURATION";
           lit "; Total Inputs Generated: " ++ str_of_int total]
          ++ [lit "; ==========================================="]).
  rewrite !app_assoc, last_last. discriminate.
Qed.

(** The mapping the decoder computes from the file [main] writes. *)
Lemma generated_mapping (groups : Z) (linesep : str) (now : Massive.datetime)
    (fs : filesystem) (path : str) :
  linesep = [10] \/ linesep = [13; 10] ->
  fs path = Massive.main_writes_for groups linesep now ->
  exists body,
    let lines :=
      Massive.header groups now ++ body ++ footer (4620 * Z.max 0 groups + 48) in
    Massive.generate_massive_setfile_for groups now = Ok (join [10] lines)
    /\ Forall good_line lines
    /\ inputs lines = (4620 * Z.max 0 groups + 48)%Z
    /\ parse_set_file fs path = fold_left parse_line lines ∅.
Proof.
  intros Hsep Hfs. destruct (setfile_lines groups now) as (body & E & Hg & Hi).
  exists body. cbv zeta in *. repeat split; try assumption.
  unfold Massive.main_writes_for in Hfs. rewrite E in Hfs. cbn [mbind result_bind] in Hfs.
  apply (parse_written fs path linesep); try assumption.
  - eapply Forall_impl; [exact Hg|]. now intros line [Ht _].
  - apply last_footer.
Qed.

(** X1: for a group number of absolute value at most 10^12,
    [generate_logic_inputs] raises [KeyError] exactly when the logic is none
    of the seven names of [LOGICS], and it raises nothing else.  So it
    raises for [Scalper], the name the validator and the sample export use
    for the logic the generator calls [Scalp]. *)
Theorem logic_inputs_key_error :
  forall (group_num : Z) (engine logic direction : str),
    (Z.abs group_num <= 1000000000000)%Z ->
    (Massive.generate_logic_inputs group_num engine logic direction = Raise KeyError
     <-> ~ In logic Massive.LOGICS)
    /\ (forall e : exn,
          Massive.generate_logic_inputs group_num engine logic direction = Raise e ->
          e = KeyError)
    /\ In (lit "Scalper") canonical_logics
    /\ Massive.generate_logic_inputs group_num engine (lit "Scalper") direction
       = Raise KeyError.
Proof.
  intros group_num engine logic direction _. split; [split|split; [|split]].
  - intros H Hin. apply logic_suffix_cases in Hin as [sfx Hs].
    destruct (logic_inputs_lines group_num engine logic direction sfx Hs)
      as (lines & E & _). rewrite E in H. discriminate.
  - intros Hn. unfold Massive.generate_logic_inputs, Massive.dict_item.
    destruct (assoc Massive.LOGIC_SUFFIX logic) as [sfx|] eqn:E; [|reflexivity].
    destruct Hn. apply logic_suffix_cases. now exists sfx.
  - intros e. unfold Massive.generate_logic_inputs, Massive.dict_item.
    destruct (assoc Massive.LOGIC_SUFFIX logic) as [sfx|]; [discriminate|].
    now intros [= <-].
  - vm_compute. tauto.
  - reflexivity.
Qed.

Lemma logic_inputs_key_error_witness :
  Massive.generate_logic_inputs 3 (lit "A") (lit "Scalper") (lit "Buy") = Raise KeyError.
Proof.
  apply (proj1 (logic_inputs_key_error 3 (lit "A") (lit "Scalper") (lit "Buy")
                  ltac:(vm_compute; discriminate))).
  vm_compute. intros H. split_in H; discriminate H.
Defined.

(** X2: for a logic of [LOGIC_SUFFIX], [generate_logic_inputs] returns 110
    lines (its docstring says 88), and the set-file decoder reads each of
    them as one entry: the key begins with
    [gInput_<group>_<engine><suffix>_<direction>] and holds no white space,
    the value is a number. *)
Theorem logic_inputs_are_entries :
  forall (group_num : Z) (engine logic direction sfx : str),
    (Z.abs group_num <= 1000000000000)%Z ->
    solidb engine = true -> solidb direction = true ->
    assoc Massive.LOGIC_SUFFIX logic = Some sfx ->
    exists lines,
      Massive.generate_logic_inputs group_num engine logic direction = Ok lines
      /\ length lines = 110%nat
      /\ forall line, In line lines ->
           exists field value,
             line_entry line
             = Some (logic_prefix group_num engine sfx direction ++ field, value)
             /\ solidb field = true /\ valueb value = true.
Proof.
  intros group_num engine logic direction sfx _ He Hd Hs.
  destruct (logic_inputs_lines group_num engine logic direction sfx Hs)
    as (lines & E & Hn & Hl).
  exists lines. split; [exact E|]. split; [exact Hn|].
  intros line Hin. rewrite Forall_forall in Hl.
  specialize (Hl line (proj2 (list_elem_of_In _ _) Hin)).
  destruct (logic_line_entry _ _ _ _ _ He (logic_suffix_solid _ _ Hs) Hd Hl)
    as (f & v & _ & Hf & Hv & E').
  now exists f, v.
Qed.

Lemma logic_inputs_are_entries_witness :
  exists lines,
    Massive.generate_logic_inputs 3 (lit "B") (lit "Stopper") (lit "Sell") = Ok lines
    /\ length lines = 110%nat
    /\ forall line, In line lines ->
         exists field value,
           line_entry line
           = Some (logic_prefix 3 (lit "B") (lit "T") (lit "Sell") ++ field, value)
           /\ solidb field = true /\ valueb value = true.
Proof.
  apply (logic_inputs_are_entries 3 (lit "B") (lit "Stopper") (lit "Sell") (lit "T"));
    [simpl; lia | reflexivity | reflexivity | reflexivity].
Defined.

(** X3: [generate_massive_setfile] never raises, and the total its footer
    reports is the number of lines of the file the decoder reads as
    entries: 4620 for each group and 48 global ones (69348 for the 15
    groups), although the header of the same file announces 88 fields per
    logic, that is 3696 logic inputs for each group. *)
Theorem setfile_reports_its_inputs :
  forall (groups : Z) (now : Massive.datetime),
    (0 <= groups <= 1000000000000)%Z ->
    exists lines,
      Massive.generate_massive_setfile_for groups now = Ok (join [10] lines)
      /\ inputs lines = (4620 * groups + 48)%Z
      /\ In (lit "; Total Inputs Generated: " ++ str_of_int (4620 * groups + 48)) lines
      /\ In (lit "; Fields per Logic: 88") lines
      /\ In (lit "; Total Logic Inputs: " ++ str_of_int (3696 * groups)) lines.
Proof.
  intros groups now Hg. destruct (setfile_lines groups now) as (body & E & _ & Hi).
  cbv zeta in *. replace (Z.max 0 groups) with groups in * by lia.
  eexists. split; [exact E|]. split; [exact Hi|]. split; [|split].
  - apply in_or_app. right. apply in_or_app. right.
    right. right. left. reflexivity.
  - apply in_or_app. left. unfold Massive.header. apply in_or_app. left.
    do 7 right. left. reflexivity.
  - apply in_or_app. left. unfold Massive.header. apply in_or_app. left.
    do 8 right. left. f_equal. f_equal. unfold Massive.len. simpl length. lia.
Qed.

Lemma setfile_reports_its_inputs_witness :
  exists lines,
    Massive.generate_massive_setfile_for 15 (Massive.Datetime 2024 1 1 0 0 0)
    = Ok (join [10] lines)
    /\ inputs lines = (4620 * 15 + 48)%Z
    /\ In (lit "; Total Inputs Generated: " ++ str_of_int (4620 * 15 + 48)) lines
    /\ In (lit "; Fields per Logic: 88") lines
    /\ In (lit "; Total Logic Inputs: " ++ str_of_int (3696 * 15)) lines.
Proof.
  apply (setfile_reports_its_inputs 15 (Massive.Datetime 2024 1 1 0 0 0)). lia.
Defined.

(** X4: the set file [main] writes fails every check of the parity
    validator, whatever the clock and the line separator of the platform
    (LF or CRLF): the decoder reads the file back (its mapping is not
    empty), the mapping holds none of the keys the validator expects, and
    [validate_set_file_parity] returns an error for each of its 14043
    checks and no warning. *)
Theorem generated_setfile_fails_parity :
  forall (groups : Z) (linesep : str) (now : Massive.datetime)
         (fs : filesystem) (path : str),
    (groups <= 1000000000000)%Z ->
    linesep = [10] \/ linesep = [13; 10] ->
    fs path = Massive.main_writes_for groups linesep now ->
    parse_set_file fs path <> ∅
    /\ (forall k, In k all_expected_keys -> parse_set_file fs path !! k = None)
    /\ Z.of_nat (length (fst (validate_set_file_parity fs path))) = 14043%Z
    /\ snd (validate_set_file_parity fs path) = [].
Proof.
  intros groups linesep now fs path _ Hsep Hfs.
  destruct (generated_mapping groups linesep now fs path Hsep Hfs)
    as (body & _ & Hg & _ & Hp).
  cbv zeta in *.
  set (lines := Massive.header groups now ++ body
                ++ footer (4620 * Z.max 0 groups + 48)) in *.
  assert (Hne : parse_set_file fs path <> ∅).
  { intros He.
    assert (Hs : is_Some (parse_set_file fs path !! lit "gInput_MagicNumber")).
    { rewrite Hp.
      apply (parse_lines_has lines ∅ (lit "gInput_MagicNumber=777") _ (lit "777")).
      - unfold lines, Massive.header. apply in_or_app. left.
        apply in_or_app. right. apply in_or_app. right. apply in_or_app. left.
        left. reflexivity.
      - vm_compute. reflexivity. }
    rewrite He, lookup_empty in Hs. now destruct Hs. }
  assert (Hnone : forall k, In k all_expected_keys -> parse_set_file fs path !! k = None).
  { intros k Hk. destruct (parse_set_file fs path !! k) as [v|] eqn:Ev; [|reflexivity].
    rewrite Hp in Ev. apply parse_lines_from in Ev as (line & Hin & El).
    rewrite Forall_forall in Hg.
    destruct (Hg line (proj2 (list_elem_of_In _ _) Hin)) as [_ Hkey].
    specialize (Hkey k v El).
    pose proof expected_keys_not_generated as Hall.
    rewrite forallb_forall in Hall. specialize (Hall k Hk).
    rewrite Hkey in Hall. discriminate. }
  split; [exact Hne|]. split; [exact Hnone|].
  rewrite validate_set_file_parity_eq.
  rewrite bool_decide_eq_false_2 by exact Hne. cbn [fst snd].
  split; [|reflexivity].
  rewrite (missing_everywhere_all _ Hnone). vm_compute. reflexivity.
Qed.

Lemma generated_setfile_fails_parity_witness :
  parse_set_file written_by_main (lit "MASSIVE.set") <> ∅
  /\ (forall k, In k all_expected_keys ->
                parse_set_file written_by_main (lit "MASSIVE.set") !! k = None)
  /\ Z.of_nat (length (fst (validate_set_file_parity written_by_main
                              (lit "MASSIVE.set")))) = 14043%Z
  /\ snd (validate_set_file_parity written_by_main (lit "MASSIVE.set")) = [].
Proof.
  apply (generated_setfile_fails_parity 15 [10] (Massive.Datetime 2024 1 1 0 0 0)
           written_by_main (lit "MASSIVE.set"));
    [lia | left; reflexivity | reflexivity].
Defined.

(** ** validate_export.py: the set-file parser and the parity validator *)

Lemma lookup_entries (entries : list (str * str)) (k : str) :
  In k (map fst entries) ->
  is_Some ((list_to_map (rev entries) : gmap str str) !! k).
Proof.
  intros Hin. destruct (list_to_map (rev entries) !! k) as [v|] eqn:E; [eauto|].
  apply not_elem_of_list_to_map in E. destruct E.
  apply list_elem_of_In. change ((rev entries).*1) with (map fst (rev entries)).
  rewrite map_rev. now apply -> in_rev.
Qed.

Lemma expected_keys_nonempty : In (lit "gInput_Group1_ReverseMode") all_expected_keys.
Proof. apply list_elem_of_In, (bool_decide_unpack _). vm_compute. exact I. Qed.

(** X5: a set file written as lines [key=value], in text mode with the
    UTF-8 encoding on a platform whose line separator is LF or CRLF, is read
    back by [parse_set_file] as the mapping of its entries, the last entry
    of a key winning: nothing is lost or altered when the keys hold no
    white space or [=] and do not begin with [;], and the values have no white
    space at their ends. *)
Theorem parse_reads_back_entries :
  forall (fs : filesystem) (path linesep : str) (entries : list (str * str)),
    linesep = [10] \/ linesep = [13; 10] ->
    forallb entry_ok entries = true ->
    fs path = Massive.write_text linesep (join [10] (map render_entry entries)) ->
    parse_set_file fs path = list_to_map (rev entries).
Proof. apply parse_entries. Qed.

Lemma parse_reads_back_entries_witness :
  parse_set_file
    (fun _ =>
       Massive.write_text [13; 10]
         (join [10]
            (map render_entry
               [ (lit "gInput_MaxOrders", lit "100");
                 (lit "gInput_OrderComment", lit "DAAVILEFX v18");
                 (lit "gInput_MaxOrders", lit "150") ])))
    (lit "limits.set")
  = list_to_map
      (rev [ (lit "gInput_MaxOrders", lit "100");
             (lit "gInput_OrderComment", lit "DAAVILEFX v18");
             (lit "gInput_MaxOrders", lit "150") ]).
Proof.
  apply (parse_reads_back_entries _ (lit "limits.set") [13; 10]);
    [right; reflexivity | vm_compute; reflexivity | reflexivity].
Defined.

(** X6: [validate_set_file_parity] returns no error and no warning exactly
    when the decoded mapping is not empty and holds every key of the 3
    engines x 20 groups x 7 logics; the values are never looked at. *)
Theorem parity_passes_iff :
  forall (fs : filesystem) (set_file : str),
    validate_set_file_parity fs set_file = ([], [])
    <-> parse_set_file fs set_file <> ∅
        /\ forall k, In k all_expected_keys ->
                     is_Some (parse_set_file fs set_file !! k).
Proof.
  intros fs set_file. split.
  - intros H. now apply validate_set_file_parity_nil.
  - intros [Hne Hall]. now apply validate_set_file_parity_nil.
Qed.

(** X7: a set file that lists every expected key passes the parity check,
    whatever values it gives them and whatever else it holds; such a file
    exists (the one that sets every expected key to 0). *)
Theorem complete_file_passes_parity :
  forall (fs : filesystem) (path linesep : str) (entries : list (str * str)),
    linesep = [10] \/ linesep = [13; 10] ->
    forallb entry_ok entries = true ->
    (forall k, In k all_expected_keys -> In k (map fst entries)) ->
    fs path = Massive.write_text linesep (join [10] (map render_entry entries)) ->
    validate_set_file_parity fs path = ([], []).
Proof.
  intros fs path linesep entries Hsep Hok Hall Hfs.
  apply validate_set_file_parity_nil.
  rewrite (parse_entries fs path linesep entries Hsep Hok Hfs).
  assert (Hs : forall k, In k all_expected_keys ->
                         is_Some ((list_to_map (rev entries) : gmap str str) !! k)).
  { intros k Hk. now apply lookup_entries, Hall. }
  split; [|exact Hs].
  intros He. specialize (Hs _ expected_keys_nonempty).
  rewrite He, lookup_empty in Hs. now destruct Hs.
Qed.

Lemma complete_file_passes_parity_witness :
  validate_set_file_parity
    (fun _ => Massive.write_text [10] (join [10] (map render_entry complete_entries)))
    (lit "complete.set")
  = ([], []).
Proof.
  apply (complete_file_passes_parity _ (lit "complete.set") [10] complete_entries);
    [ left; reflexivity
    | vm_compute; reflexivity
    | intros k Hk; apply in_map_iff; exists (k, lit "0");
      split; [reflexivity | now apply (in_map (fun k => (k, lit "0")))]
    | reflexivity ].
Defined.

(** X8: the parity validator looks up the group-level keys inside its loop
    over the engines, so a missing group-level key is reported three times,
    with the same message, while a missing logic-level key is reported
    once. *)
Theorem parity_reports_group_keys_thrice :
  forall (fs : filesystem) (set_file k : str),
    parse_set_file fs set_file <> ∅ ->
    parse_set_file fs set_file !! k = None ->
    (In k all_group_keys ->
     occurrences (lit "Missing group key: " ++ k)
       (fst (validate_set_file_parity fs set_file)) = 3%nat)
    /\ (In k all_logic_keys ->
        occurrences (lit "Missing logic key: " ++ k)
          (fst (validate_set_file_parity fs set_file)) = 1%nat).
Proof.
  intros fs set_file k Hne Hk. rewrite validate_set_file_parity_eq.
  rewrite bool_decide_eq_false_2 by assumption. cbn [fst]. split; intros Hin.
  - rewrite (occurrences_group_key _ _ Hk).
    pose proof group_keys_thrice as H. rewrite forallb_forall in H.
    apply Nat.eqb_eq, H. exact Hin.
  - rewrite (occurrences_logic_key _ _ Hk).
    apply occurrences_NoDup; [apply logic_keys_NoDup | assumption].
Qed.

Lemma parity_reports_group_keys_thrice_witness :
  occurrences (lit "Missing group key: gInput_Group7_HedgeMode")
    (fst (validate_set_file_parity
            (single_file (lit "one.set") (ascii_bytes (lit "gInput_MaxOrders=100")))
            (lit "one.set")))
  = 3%nat.
Proof.
  refine (proj1 (parity_reports_group_keys_thrice
                   (single_file (lit "one.set")
                      (ascii_bytes (lit "gInput_MaxOrders=100")))
                   (lit "one.set") (lit "gInput_Group7_HedgeMode") _ _) _).
  - intros He.
    assert (Hk : parse_set_file
                   (single_file (lit "one.set")
                      (ascii_bytes (lit "gInput_MaxOrders=100")))
                   (lit "one.set") !! lit "gInput_MaxOrders" = None)
      by (rewrite He; apply lookup_empty).
    vm_compute in Hk. discriminate Hk.
  - vm_compute. reflexivity.
  - apply list_elem_of_In. apply (bool_decide_unpack _). vm_compute. exact I.
Defined.

(** X9: adding inputs to a set file never adds an error: when every key of
    one decoded mapping is a key of another, the errors for the second are
    among the errors for the first, in the same order. *)
Theorem parity_errors_shrink :
  forall (fs fs' : filesystem) (set_file set_file' : str),
    parse_set_file fs set_file <> ∅ ->
    (forall k, is_Some (parse_set_file fs set_file !! k) ->
               is_Some (parse_set_file fs' set_file' !! k)) ->
    sublist (fst (validate_set_file_parity fs' set_file'))
            (fst (validate_set_file_parity fs set_file)).
Proof.
  intros fs fs' set_file set_file' Hne Hsub.
  rewrite !validate_set_file_parity_eq.
  rewrite (bool_decide_eq_false_2 (parse_set_file fs set_file = ∅)) by assumption.
  rewrite bool_decide_eq_false_2.
  - cbn [fst]. now apply missing_everywhere_sublist.
  - intros He. apply Hne. apply map_empty. intros k.
    destruct (parse_set_file fs set_file !! k) as [v|] eqn:E; [|reflexivity].
    destruct (Hsub k) as [v' E']; [rewrite E; eauto|].
    rewrite He, lookup_empty in E'. discriminate.
Qed.

Lemma parity_errors_shrink_witness :
  sublist
    (fst (validate_set_file_parity
            (single_file (lit "two.set")
               (ascii_bytes (lit "gInput_MaxOrders=100" ++ [10]
                             ++ lit "gInput_Grid_BST3=250")))
            (lit "two.set")))
    (fst (validate_set_file_parity
            (single_file (lit "one.set") (ascii_bytes (lit "gInput_MaxOrders=100")))
            (lit "one.set"))).
Proof.
  apply parity_errors_shrink.
  - intros He.
    assert (Hk : parse_set_file
                   (single_file (lit "one.set")
                      (ascii_bytes (lit "gInput_MaxOrders=100")))
                   (lit "one.set") !! lit "gInput_MaxOrders" = None)
      by (rewrite He; apply lookup_empty).
    vm_compute in Hk. discriminate Hk.
  - intros k [v Hk].
    assert (E : parse_set_file
                  (single_file (lit "one.set")
                     (ascii_bytes (lit "gInput_MaxOrders=100")))
                  (lit "one.set")
                = {[ lit "gInput_MaxOrders" := lit "100" ]})
      by (vm_compute; reflexivity).
    rewrite E in Hk. apply lookup_singleton_Some in Hk as [<- _].
    vm_compute. eauto.
Defined.

(** ** validate_export.py: the structural validator *)

(** X10: when [validate_json_structure] returns, it returns no error
    exactly when the document has engines and, in every group of every
    engine, the group carries its 7 fields and each logic carries the 34
    fields of [REQUIRED_LOGIC_FIELDS], [start_level] and [last_lot] unless
    its name is [power] in some letter case, and the three trigger fields
    when the number of the group is 1.  Only the presence of the fields
    counts: their values, and the warnings, play no part. *)
Theorem no_errors_iff_complete :
  forall (data : json) (E W : list msg),
    validate_json_structure data = Ok (E, W) ->
    (E = [] <-> complete_document data = true).
Proof.
  intros data E W H. apply validate_Ok_iff in H as (_ & -> & _).
  apply doc_errors_nil.
Qed.

Lemma no_errors_iff_complete_witness :
  [msg_group_field (JStr (lit "A")) (JInt 1) (lit "enabled");
   msg_group_field (JStr (lit "A")) (JInt 1) (lit "reverse_mode")] = []
  <-> complete_document
        (JObj [ (lit "engines",
                 JArr [ JObj [ (lit "engine_id", JStr (lit "A"));
                               (lit "groups",
                                JArr [ JObj [ (lit "group_number", JInt 1);
                                              (lit "hedge_mode", JBool false);
                                              (lit "hedge_reference", JStr (lit "Logic_None"));
                                              (lit "entry_delay_bars", JInt 0);
                                              (lit "logics", JArr []) ] ]) ] ]) ])
      = true.
Proof.
  apply (no_errors_iff_complete _ _
           [msg_group_count (JStr (lit "A")) 1;
            msg_logic_count (JStr (lit "A")) (JInt 1) 0]).
  vm_compute. reflexivity.
Defined.

(** X11: the export [generate_full_export] builds passes the structural
    validator with no error and no warning, whatever the time stamp: it has
    the engines A, B and C, 20 groups each and 7 logics in each group, and
    every group and logic carries the fields asked of it. *)
Theorem sample_export_is_valid :
  forall (timestamp : str),
    validate_json_structure (Sample.generate_full_export timestamp) = Ok ([], [])
    /\ map id_of (engines_of (Sample.generate_full_export timestamp))
       = map JStr expected_engines
    /\ Forall (fun engine =>
                 length (groups_of engine) = 20%nat
                 /\ Forall (fun group => length (logics_of group) = 7%nat)
                      (groups_of engine))
         (engines_of (Sample.generate_full_export timestamp)).
Proof.
  intros timestamp. split; [|split].
  - vm_compute. reflexivity.
  - vm_compute. reflexivity.
  - apply Forall_forall. intros engine He.
    assert (H : forallb
                  (fun engine =>
                     Nat.eqb (length (groups_of engine)) 20
                     && forallb (fun group => Nat.eqb (length (logics_of group)) 7)
                          (groups_of engine))
                  (engines_of (Sample.generate_full_export timestamp)) = true)
      by (vm_compute; reflexivity).
    rewrite forallb_forall in H. apply list_elem_of_In in He.
    specialize (H engine He). apply andb_true_iff in H as [H1 H2].
    split; [now apply Nat.eqb_eq|].
    apply Forall_forall. intros group Hg. rewrite forallb_forall in H2.
    apply Nat.eqb_eq, H2. now apply list_elem_of_In in Hg.
Qed.

(** X12: [validate_json_structure] reads its fields with [get] and tests
    them with [in]; it never indexes.  So the only exceptions it raises are
    those of a call on a value of the wrong type, [AttributeError] and
    [TypeError], never [KeyError]; it raises [AttributeError] at once when
    the document is not an object, and it raises exactly on the documents
    that are not well shaped (a group, a logic or an engine that is no
    object, a list of them that has no length, a logic name that is no
    string). *)
Theorem validator_raises_type_failures :
  forall (data : json),
    (forall e, validate_json_structure data = Raise e ->
               e = AttributeError \/ e = TypeError)
    /\ (is_obj data = false -> validate_json_structure data = Raise AttributeError)
    /\ ((exists e, validate_json_structure data = Raise e)
        <-> well_shaped data = false).
Proof.
  intros data. split; [|split].
  - intros e. apply validate_raises.
  - apply validate_not_object.
  - split.
    + intros [e H]. destruct (well_shaped data) eqn:E; [|reflexivity].
      rewrite (validate_well_shaped data E) in H. discriminate.
    + apply validate_ill_shaped.
Qed.

(** ** validate_export.py: the expected keys *)

(** X13: the suffix [get_suffix] builds determines the short name and the
    group it was built from, for every engine identifier, group number and
    logic name, known or not; and for the engines A, B, C and the seven
    canonical logics it determines the engine and the logic: no two of the
    3 x 7 logics share a suffix in any group. *)
Theorem suffix_determines_logic :
  forall (engine_id : str) (group : Z) (logic_name : str)
         (engine_id' : str) (group' : Z) (logic_name' : str),
    get_suffix engine_id group logic_name = get_suffix engine_id' group' logic_name' ->
    get_short engine_id logic_name = get_short engine_id' logic_name'
    /\ group = group'
    /\ (In engine_id expected_engines -> In engine_id' expected_engines ->
        In logic_name canonical_logics -> In logic_name' canonical_logics ->
        engine_id = engine_id' /\ logic_name = logic_name').
Proof.
  intros e g l e' g' l' H.
  assert (Hs : get_short e l = get_short e' l' /\ g = g').
  { apply letters_number_inj; try apply get_short_capitals.
    unfold get_suffix, get_short in *. now rewrite <- !app_assoc. }
  destruct Hs as [Hs Hg]. repeat split; try assumption;
    now destruct (get_short_known_inj e l e' l').
Qed.

Lemma suffix_determines_logic_witness :
  get_short (lit "B") (lit "Stopper") = get_short (lit "B") (lit "Stopper")
  /\ 3%Z = 3%Z
  /\ (In (lit "B") expected_engines -> In (lit "B") expected_engines ->
      In (lit "Stopper") canonical_logics -> In (lit "Stopper") canonical_logics ->
      lit "B" = lit "B" /\ lit "Stopper" = lit "Stopper").
Proof.
  apply (suffix_determines_logic (lit "B") 3 (lit "Stopper") (lit "B") 3 (lit "Stopper")).
  reflexivity.
Defined.

(** ** validate_export.py: the decoder of set files *)

Lemma parse_decoded (fs : filesystem) (path : str) (content : bytes) (text : str) :
  fs path = Ok content -> decode_content content = Ok text ->
  parse_set_file fs path = parse_text ∅ text.
Proof.
  intros Hf Hd. unfold parse_set_file, parse_set_file_try. now rewrite Hf, Hd.
Qed.

(** X14: [parse_set_file] skips the byte-order mark of UTF-16 LE and
    nothing else.  A text gives the same mapping whether the file holds it
    in UTF-8 or, after the mark [FF FE], in UTF-16 LE; but after the UTF-8
    mark [EF BB BF] the file is read as the text with the character U+FEFF
    before it, which [strip] does not remove: the first line then begins
    with U+FEFF, so it is no comment, and the key of its entry begins with
    U+FEFF. *)
Theorem byte_order_marks :
  forall (fs : filesystem) (plain wide marked text : str),
    forallb scalar text = true ->
    fs plain = Ok (utf8_bytes text) ->
    fs wide = Ok (utf16_file text) ->
    fs marked = Ok (utf8_marked_file text) ->
    parse_set_file fs plain = parse_text ∅ text
    /\ parse_set_file fs wide = parse_text ∅ text
    /\ parse_set_file fs marked = parse_text ∅ (65279 :: text)
    /\ forall line, exists rest, strip (65279 :: line) = 65279 :: rest.
Proof.
  intros fs plain wide marked text Hs Hp Hw Hm. split; [|split; [|split]].
  - apply (parse_decoded _ _ _ _ Hp). now apply decode_utf8_bytes.
  - apply (parse_decoded _ _ _ _ Hw). now apply decode_utf16_file.
  - apply (parse_decoded _ _ _ _ Hm). now apply decode_utf8_marked_file.
  - intros line. unfold strip. rewrite lstrip_head by reflexivity.
    apply rstrip_keeps_head. reflexivity.
Qed.

Lemma byte_order_marks_witness :
  parse_set_file (three_encodings (lit "gInput_MaxOrders=100")) (lit "utf8.set")
  = parse_text ∅ (lit "gInput_MaxOrders=100")
  /\ parse_set_file (three_encodings (lit "gInput_MaxOrders=100")) (lit "utf16.set")
     = parse_text ∅ (lit "gInput_MaxOrders=100")
  /\ parse_set_file (three_encodings (lit "gInput_MaxOrders=100")) (lit "marked.set")
     = parse_text ∅ (65279 :: lit "gInput_MaxOrders=100")
  /\ forall line, exists rest, strip (65279 :: line) = 65279 :: rest.
Proof.
  apply (byte_order_marks (three_encodings (lit "gInput_MaxOrders=100")));
    reflexivity.
Defined.

(** X15: whatever the file holds, every entry of the mapping
    [parse_set_file] returns is trimmed (no white space at the ends of the
    key or of the value), its key holds no [=] and does not begin with [;],
    and neither the key nor the value holds a line boundary. *)
Theorem decoded_entries_are_clean :
  forall (fs : filesystem) (path k v : str),
    parse_set_file fs path !! k = Some v ->
    strip k = k /\ strip v = v /\ ~ In 61 k /\ startswith1 59 k = false
    /\ one_line k /\ one_line v.
Proof.
  intros fs path k v H. unfold parse_set_file, parse_set_file_try in H.
  destruct (fs path) as [content|e]; [|now rewrite lookup_empty in H].
  destruct (decode_content content) as [text|e]; [|now rewrite lookup_empty in H].
  unfold parse_text in H.
  apply parse_lines_lookup in H as [(i & line & Hi & E & _)|[H _]];
    [|now rewrite lookup_empty in H].
  pose proof (splitlines_one_line text) as Hl. rewrite Forall_forall in Hl.
  specialize (Hl line (list_elem_of_lookup_2 _ _ _ Hi)).
  destruct (entry_clean line k v E) as (H1 & H2 & H3 & H4 & H5).
  destruct (H5 Hl) as [H6 H7]. tauto.
Qed.

Lemma decoded_entries_are_clean_witness :
  strip (lit "gInput_MaxSpread") = lit "gInput_MaxSpread"
  /\ strip (lit "50") = lit "50"
  /\ ~ In 61 (lit "gInput_MaxSpread")
  /\ startswith1 59 (lit "gInput_MaxSpread") = false
  /\ one_line (lit "gInput_MaxSpread") /\ one_line (lit "50").
Proof.
  apply (decoded_entries_are_clean
           (single_file (lit "limits.set")
              (ascii_bytes (lit "; limits" ++ [13; 10]
                            ++ lit "  gInput_MaxSpread = 50  ")))
           (lit "limits.set")).
  vm_compute. reflexivity.
Defined.

(** ** validate_export.py: the entry points of the command line *)

(** X16: [validate_export] catches the exceptions of loading only, and it
    prints with [print], which raises [UnicodeEncodeError] on a stream that
    cannot encode a message ([printing] stops there, the messages before
    staying printed).  When the file cannot be loaded it prints the reason
    and returns [False]; when [validate_json_structure] raises (the document
    is not well shaped), the exception leaves [validate_export] after the
    three lines of the banner; otherwise it prints the warnings, then the
    errors and returns [False], or the summary and returns [True] when there
    is no error, whatever the warnings.  The summary itself raises nothing
    on a stream that takes its lines; it reports the number of engines, the
    number of groups of the first engine, and the number of logics of all
    the groups.  On a stream that cannot encode the mark of
    [Structure Valid], a document without errors ends in
    [UnicodeEncodeError], no line of the summary being printed. *)
Theorem export_command :
  forall (enc : msg -> bool) (files : str -> Cli.loaded) (file_path : str),
    let title := banner (lit "Validating Dashboard Export: ") file_path in
    (forall text,
       files file_path = Cli.LoadFailure text ->
       Cli.validate_export enc files file_path []
       = printing enc
           (title ++ [ [T (Cli.cross_mark ++ lit " Failed to load JSON: "); T text] ])
           (Cli.Returns false) [])
    /\ (forall data e,
          files file_path = Cli.Loaded data ->
          validate_json_structure data = Raise e ->
          Cli.validate_export enc files file_path []
          = printing enc title (Cli.Raises e) [])
    /\ (forall data E W,
          files file_path = Cli.Loaded data ->
          validate_json_structure data = Ok (E, W) ->
          let report :=
            title ++ warnings_block W
            ++ (if bool_decide (E = []) then summary data else errors_block E) in
          Cli.validate_export enc files file_path []
          = printing enc report (Cli.Returns (bool_decide (E = []))) []
          /\ (forallb (encodable enc) report = true ->
              Cli.validate_export enc files file_path []
              = (report, Cli.Returns (bool_decide (E = []))))
          /\ (E = [] ->
              forallb (encodable enc) (title ++ warnings_block W) = true ->
              enc [T (Cli.check_mark ++ lit " Structure Valid")] = false ->
              Cli.validate_export enc files file_path []
              = (title ++ warnings_block W, Cli.Raises UnicodeEncodeError))).
Proof.
  intros enc files file_path title. split; [|split].
  - intros text Hf. unfold Cli.validate_export. rewrite Hf.
    apply prints_run, prints_banner, prints_print, prints_ret.
  - intros data e Hf Hv. unfold Cli.validate_export. rewrite Hf, Hv.
    subst title. rewrite <- (app_nil_r (banner _ _)).
    apply prints_run, prints_banner, prints_raise.
  - intros data E W Hf Hv report.
    assert (Hrun : Cli.validate_export enc files file_path []
                   = printing enc report (Cli.Returns (bool_decide (E = []))) []).
    { unfold Cli.validate_export. rewrite Hf, Hv.
      apply prints_run, prints_banner, prints_lift. cbv zeta. cbn [fst snd].
      eapply prints_bind; [apply prints_warnings|].
      destruct (bool_decide (E = [])) eqn:HE; cbn [negb].
      - apply bool_decide_eq_true in HE. subst E.
        apply validate_Ok_iff in Hv as (Hw & He & _).
        now apply prints_summary.
      - apply prints_errors. }
    split; [exact Hrun|]. split.
    + intros Henc. rewrite Hrun. now apply printing_all.
    + intros -> Henc Hmark. rewrite Hrun. subst report.
      rewrite bool_decide_eq_true_2 by reflexivity.
      rewrite app_assoc. unfold summary.
      rewrite (printing_stops enc (title ++ warnings_block W)); [reflexivity | exact Henc |].
      exact Hmark.
Qed.

Lemma export_command_witness :
  Cli.validate_export (fun _ => true) sample_files (lit "SAMPLE_FULL_EXPORT_TEST.json") []
  = (banner (lit "Validating Dashboard Export: ") (lit "SAMPLE_FULL_EXPORT_TEST.json")
     ++ [ [T (Cli.check_mark ++ lit " Structure Valid")];
          [T (lit "   - Engines: "); V (JInt 3)];
          [T (lit "   - Groups per engine: "); V (JInt 20)];
          [T (lit "   - Total logics: "); V (JInt 420)];
          [T (lit "   - V17.04+ fields: " ++ Cli.check_mark ++ lit " Present")];
          [];
          [T (Cli.party_mark ++ lit " VALIDATION SUCCESS!")] ],
     Cli.Returns true).
Proof.
  destruct (export_command (fun _ => true) sample_files
              (lit "SAMPLE_FULL_EXPORT_TEST.json")) as (_ & _ & H).
  destruct (H (Sample.generate_full_export (lit "2024-01-01T00:00:00")) [] []
              eq_refl) as (_ & H2 & _).
  { vm_compute. reflexivity. }
  rewrite H2; [vm_compute; reflexivity|].
  apply forallb_forall. intros m _. destruct m; reflexivity.
Defined.

(** The file was parsed when the check passes. *)
Lemma parsed_when_passing (describe : exn -> str) (fs : filesystem) (set_file : str) :
  parse_set_file fs set_file <> ∅ -> parse_failure_line describe fs set_file = [].
Proof.
  unfold parse_set_file, parse_failure_line.
  destruct (parse_set_file_try fs set_file ∅); [reflexivity | congruence].
Qed.

(** X17: [validate_set_parity] raises nothing but the [UnicodeEncodeError]
    of a [print] on a stream that cannot encode a message, whatever the file
    system does.  It passes exactly when the file could be read and
    decoded, its mapping is not empty and holds every expected key; it then
    prints the banner and two lines that begin with a mark outside ASCII,
    and returns [True] if the stream takes them; on a stream that cannot
    encode the first one it ends in [UnicodeEncodeError] after the banner.
    When the check does not pass it returns [False] on a stream that takes
    its lines. *)
Theorem parity_command :
  forall (describe : exn -> str) (fs : filesystem) (set_file : str),
    let passes := bool_decide (fst (validate_set_file_parity fs set_file) = []) in
    let title := banner (lit "Validating .SET File Parity: ") set_file in
    let report :=
      title ++ parse_failure_line describe fs set_file
      ++ parity_report (fst (validate_set_file_parity fs set_file)) in
    (passes = true
     <-> (exists content text,
            fs set_file = Ok content /\ decode_content content = Ok text)
         /\ parse_set_file fs set_file <> ∅
         /\ forall k, In k all_expected_keys ->
                      is_Some (parse_set_file fs set_file !! k))
    /\ (forall enc : msg -> bool,
          Cli.validate_set_parity enc describe fs set_file []
          = printing enc report (Cli.Returns passes) []
          /\ (snd (Cli.validate_set_parity enc describe fs set_file [])
              = Cli.Returns passes
              \/ snd (Cli.validate_set_parity enc describe fs set_file [])
                 = Cli.Raises UnicodeEncodeError)
          /\ (forallb (encodable enc) report = true ->
              Cli.validate_set_parity enc describe fs set_file []
              = (report, Cli.Returns passes)))
    /\ (passes = true ->
        report
        = title
          ++ [ [T (Cli.check_mark
                   ++ lit " All expected MT4/MT5 variable names present")];
               [T (Cli.party_mark ++ lit " .SET PARITY CHECK PASSED!")] ]
        /\ forall enc : msg -> bool,
             forallb (encodable enc) title = true ->
             enc [T (Cli.check_mark
                     ++ lit " All expected MT4/MT5 variable names present")] = false ->
             Cli.validate_set_parity enc describe fs set_file []
             = (title, Cli.Raises UnicodeEncodeError)).
Proof.
  intros describe fs set_file passes title report.
  assert (Hb : passes = true
               <-> (exists content text,
                      fs set_file = Ok content /\ decode_content content = Ok text)
                   /\ parse_set_file fs set_file <> ∅
                   /\ forall k, In k all_expected_keys ->
                                is_Some (parse_set_file fs set_file !! k)).
  { subst passes. rewrite bool_decide_eq_true.
    pose proof (validate_set_file_parity_nil fs set_file) as Hnil.
    pose proof (validate_set_file_parity_eq fs set_file) as Hq.
    assert (Hread : parse_set_file fs set_file <> ∅ ->
                    exists content text,
                      fs set_file = Ok content /\ decode_content content = Ok text).
    { unfold parse_set_file, parse_set_file_try.
      destruct (fs set_file) as [content|e]; [|congruence].
      destruct (decode_content content) as [text|e] eqn:Ed; [|congruence].
      intros _. now exists content, text. }
    split.
    - intros He.
      assert (Hv : validate_set_file_parity fs set_file = ([], [])).
      { rewrite Hq in *. destruct (bool_decide (parse_set_file fs set_file = ∅));
          [discriminate He | cbn [fst] in He; now rewrite He]. }
      apply Hnil in Hv as [Hne Hall]. auto.
    - intros (_ & Hne & Hall).
      assert (Hv : validate_set_file_parity fs set_file = ([], []))
        by (apply Hnil; auto).
      now rewrite Hv. }
  assert (Hrun : forall enc,
             Cli.validate_set_parity enc describe fs set_file []
             = printing enc report (Cli.Returns passes) []).
  { intros enc. unfold Cli.validate_set_parity.
    apply prints_run, prints_banner.
    eapply prints_bind; [|cbv zeta; apply prints_parity_report].
    unfold parse_failure_line.
    destruct (parse_set_file_try fs set_file ∅) as [m|e];
      [apply prints_ret | apply prints_last]. }
  split; [exact Hb|]. split.
  - intros enc. split; [apply Hrun|]. split.
    + rewrite Hrun. apply printing_ends.
    + intros Henc. rewrite Hrun. now apply printing_all.
  - intros Hp.
    assert (Hr : report
                 = title
                   ++ [ [T (Cli.check_mark
                            ++ lit " All expected MT4/MT5 variable names present")];
                        [T (Cli.party_mark ++ lit " .SET PARITY CHECK PASSED!")] ]).
    { subst report. apply Hb in Hp as Hc. destruct Hc as (_ & Hne & _).
      rewrite (parsed_when_passing _ _ _ Hne). cbn [app]. unfold parity_report.
      subst passes. now rewrite Hp. }
    split; [exact Hr|].
    intros enc Henc Hmark. rewrite Hrun, Hr.
    rewrite (printing_stops enc title); [reflexivity | exact Henc | exact Hmark].
Qed.

(** ** generate_sample_json.py: the set file of the visible inputs *)



(** X19: where [generate_set_file] stops.  When the configuration cannot
    be indexed by ["general"], the exception leaves the function and the
    file holds the three remarks of the opening; when no engine has the
    identifier ["A"], the function returns without an error and the file
    holds the general settings only; the engines after the first engine A
    are never looked at, so two configurations that differ in them only give
    the same file and the same outcome. *)
Theorem set_file_stops :
  forall (enc : msg -> bool),
    (forall config e,
       forallb enc opening = true ->
       SampleSet.py_item config (lit "general") = Raise e ->
       SampleSet.generate_set_file enc config [] = (opening, Cli.Raises e))
    /\ (forall config gen es,
          forallb enc (general_part gen) = true ->
          SampleSet.py_item config (lit "general") = Ok gen ->
          is_obj gen = true ->
          SampleSet.py_item config (lit "engines") = Ok (JArr es) ->
          forallb other_engine es = true ->
          SampleSet.generate_set_file enc config [] = (general_part gen, Cli.Returns tt))
    /\ (forall config config' gen before engine_a after after',
          SampleSet.py_item config (lit "general") = Ok gen ->
          SampleSet.py_item config' (lit "general") = Ok gen ->
          SampleSet.py_item config (lit "engines")
          = Ok (JArr (before ++ engine_a :: after)) ->
          SampleSet.py_item config' (lit "engines")
          = Ok (JArr (before ++ engine_a :: after')) ->
          forallb other_engine before = true ->
          SampleSet.py_item engine_a (lit "engine_id") = Ok (JStr (lit "A")) ->
          SampleSet.generate_set_file enc config []
          = SampleSet.generate_set_file enc config' []).
Proof.
  intros enc. split; [|split].
  - intros config e Henc Hg. unfold SampleSet.generate_set_file.
    cbn [opening forallb] in Henc.
    apply andb_true_iff in Henc as [H1 Henc]. apply andb_true_iff in Henc as [H2 Henc].
    apply andb_true_iff in Henc as [H3 _].
    rewrite !run_write by assumption. rewrite Hg. reflexivity.
  - intros config gen es Henc Hg Ho He Hes. unfold SampleSet.generate_set_file.
    unfold general_part in Henc. rewrite forallb_app in Henc.
    apply andb_true_iff in Henc as [Henc Hgen].
    cbn [opening forallb] in Henc, Hgen.
    apply andb_true_iff in Henc as [H1 Henc]. apply andb_true_iff in Henc as [H2 Henc].
    apply andb_true_iff in Henc as [H3 _].
    apply andb_true_iff in Hgen as [H4 Hgen]. apply andb_true_iff in Hgen as [H5 Hgen].
    apply andb_true_iff in Hgen as [H6 Hgen]. apply andb_true_iff in Hgen as [H7 _].
    destruct gen as [| | | | | |d]; try discriminate. cbn [field] in H4, H5, H6.
    rewrite !run_write by assumption. rewrite Hg, run_lift.
    cbn [py_get]. rewrite run_lift, run_write by assumption.
    rewrite run_lift, run_write by assumption.
    rewrite run_lift, run_write by assumption.
    rewrite run_write by assumption.
    rewrite He, run_lift. cbn [py_iter]. rewrite run_lift.
    rewrite (next_where_none _ _ (other_engines es Hes)), run_lift.
    reflexivity.
  - intros config config' gen before engine_a after after' Hg Hg' He He' Hb Ha.
    unfold SampleSet.generate_set_file. rewrite Hg, Hg', He, He'.
    generalize (@nil msg). intros out.
    repeat (apply bind_ext; intros ? ?).
    rewrite !run_lift. cbn [py_iter]. rewrite !run_lift.
    rewrite !(next_where_first _ before _ engine_a (other_engines before Hb))
      by (rewrite Ha; reflexivity).
    reflexivity.
Qed.

Lemma set_file_stops_witness :
  SampleSet.generate_set_file (fun _ => true) engine_b_only []
  = (general_part (JObj []), Cli.Returns tt).
Proof.
  apply (proj1 (proj2 (set_file_stops (fun _ => true)))
           engine_b_only (JObj [])
           [ JObj [ (lit "engine_id", JStr (lit "B")); (lit "groups", JArr []) ] ]);
    reflexivity.
Defined.
